(** * Deployment orchestration of nexus-prediction-market-V2

    A shallow embedding of the TypeScript services that queue, price,
    submit, retry and report contract deployments:

    - [GasManager]            server/services/gasManager.ts
    - [BlockchainDeployment]  server/services/blockchainDeployment.ts
    - [AlertService]          server/services/alertService.ts
    - [MarketResolution]      server/services/marketResolutionService.ts,
                              with [logAudit] of server/services/auditLogger.ts
    - [DeploymentQueue]       server/cron/deploymentQueueProcessor.ts
    - [DeployRouter]          the tRPC deployment router (deployVault)
    - [DeploymentValidator]   server/services/deploymentValidator.ts
    - [ContractFactory]       server/contracts/contractFactory.ts

    JavaScript [bigint] is [Z]; JavaScript [number] is an IEEE-754 binary64
    value, taken from the specification of floating-point arithmetic of the
    standard library ([spec_float], precision 53, maximal exponent 1024)
    wherever the source multiplies by a fractional configuration value or
    halves a sum of block numbers, and
    [Z] where the source only counts or compares integers (retry counters,
    millisecond clocks, confirmation counts).  A rejected promise or a
    [throw] is the [Throw] branch of [Exc]. *)

From Stdlib Require Import ZArith Lia Bool List.
From Stdlib Require Import SpecFloat.
From stdpp Require Import base option list strings gmap pretty.

Local Open Scope Z_scope.

(** ** Exceptions *)

Module Js.

(** A JavaScript [Error]: only its [message] is ever read by the code. *)
Definition Error := string.

Inductive Exc (A : Type) : Type :=
  | Ok (a : A)
  | Throw (e : Error).
Arguments Ok {A} a.
Arguments Throw {A} e.

Definition bind {A B} (m : Exc A) (k : A -> Exc B) : Exc B :=
  match m with
  | Ok a => k a
  | Throw e => Throw e
  end.

(** [try { m } catch (error) { h error }] *)
Definition try_catch {A} (m : Exc A) (h : Error -> Exc A) : Exc A :=
  match m with
  | Ok a => Ok a
  | Throw e => h e
  end.

Definition is_ok {A} (m : Exc A) : bool :=
  match m with Ok _ => true | Throw _ => false end.

End Js.

Import Js.

Notation "'let*' x ':=' m 'in' k" := (Js.bind m (fun x => k))
  (at level 10, x name, m at level 100, k at level 200).

(** ** JavaScript numbers (IEEE-754 binary64) *)

Module JsNumber.

Definition prec : Z := 53.
Definition emax : Z := 1024.

Definition number := spec_float.

(** [Number(v)] for a bigint [v]: the nearest double, ties to even. *)
Definition Number (v : Z) : number := binary_normalize prec emax v 0 false.

(** [x * y] on numbers. *)
Definition mul (x y : number) : number := SFmul prec emax x y.

(** The integer [ceil (sm * 2^e)] for [e < 0]. *)
Definition ceil_shift (sm e : Z) : Z := - ((- sm) / 2 ^ (- e)).

(** [Math.ceil(x)].  The result of rounding a fractional double up is an
    integer below 2^53 in magnitude; it is kept with exponent 0, which
    denotes the same double. *)
Definition Math_ceil (x : number) : number :=
  match x with
  | S754_finite s m e =>
      if 0 <=? e then x
      else match ceil_shift (cond_Zopp s (Zpos m)) e with
           | Z0 => S754_zero s
           | Zpos c => S754_finite false c 0
           | Zneg c => S754_finite true c 0
           end
  | _ => x
  end.

(** [BigInt(x)]: the integer a number denotes; a [RangeError] when [x] is
    not an integer (fractional, infinite or NaN). *)
Definition BigInt (x : number) : Exc Z :=
  match x with
  | S754_zero _ => Ok 0
  | S754_finite s m e =>
      if 0 <=? e then Ok (cond_Zopp s (Zpos m * 2 ^ e))
      else if Zpos m mod 2 ^ (- e) =? 0
           then Ok (cond_Zopp s (Zpos m / 2 ^ (- e)))
           else Throw "RangeError: The number cannot be converted to a BigInt because it is not an integer"
  | _ => Throw "RangeError: The number cannot be converted to a BigInt because it is not an integer"
  end.

(** [x <= y] and [x >= y] on numbers ([false] when either is NaN). *)
Definition leb (x y : number) : bool := SFleb x y.
Definition geb (x y : number) : bool := SFleb y x.

(** [x < y], [x + y] and [x / y] on numbers. *)
Definition ltb (x y : number) : bool := SFltb x y.
Definition add (x y : number) : number := SFadd prec emax x y.
Definition div (x y : number) : number := SFdiv prec emax x y.

(** [Math.floor(x)].  A fractional double is below 2^53 in magnitude, so
    the integer below it is a double: the one [Number] makes of it, or a
    zero of the sign of [x]. *)
Definition Math_floor (x : number) : number :=
  match x with
  | S754_finite s m e =>
      if 0 <=? e then x
      else
        let n := cond_Zopp s (Zpos m) / 2 ^ (- e) in
        if n =? 0 then S754_zero s else Number n
  | _ => x
  end.

(** A literal [a / b] written in decimal in the source or configuration,
    e.g. [1.2] is [decimal 12 10]: the double nearest to the quotient. *)
Definition decimal (a b : Z) : number :=
  SFdiv prec emax (Number a) (Number b).

End JsNumber.

(** ** gasManager.ts *)

Module GasManager.
Import JsNumber.

Record GasEstimate := {
  gasLimit : Z;
  gasPrice : Z;
  maxFeePerGas : Z;
  maxPriorityFeePerGas : Z;
  totalCost : Z;
  totalCostInUSD : number
}.

Record GasConfig := {
  priceMultiplier : number;
  limitMultiplier : number;
  maxGasPriceGwei : number;
  minGasPriceGwei : number;
  ethPriceUSD : number
}.

(** What [provider.getFeeData()] resolves to; a field may be [null]. *)
Record FeeData := {
  fd_maxFeePerGas : option Z;
  fd_maxPriorityFeePerGas : option Z
}.

(** The answers of the ledger provider to the three calls the manager
    makes.  Each call may reject. *)
Record Provider := {
  getGasPrice_rpc : Exc Z;
  getFeeData_rpc : Exc FeeData;
  estimateGas_rpc : Exc Z
}.

Section WithManager.
Variable provider : Provider.
Variable config : GasConfig.
(** [Number(ethers.formatEther(wei))], a function of the ethers library. *)
Variable formatEtherNumber : Z -> number.

Definition applyMultiplier (value : Z) (multiplier : number) : Exc Z :=
  let multiplied := mul (Number value) multiplier in
  BigInt (Math_ceil multiplied).

Definition getGasPrice : Exc Z :=
  let* gasPrice := getGasPrice_rpc provider in
  applyMultiplier gasPrice (priceMultiplier config).

(** [!v] for [v : bigint | null]: [null] and [0n] are falsy. *)
Definition falsy (v : option Z) : bool :=
  match v with
  | None => true
  | Some z => z =? 0
  end.

Definition getEIP1559Fees : Exc (Z * Z) :=
  let* feeData := getFeeData_rpc provider in
  match fd_maxFeePerGas feeData, fd_maxPriorityFeePerGas feeData with
  | Some mf, Some mp =>
      if falsy (Some mf) || falsy (Some mp)
      then Throw "Failed to get EIP-1559 fees"
      else
        let* a := applyMultiplier mf (priceMultiplier config) in
        let* b := applyMultiplier mp (priceMultiplier config) in
        Ok (a, b)
  | _, _ => Throw "Failed to get EIP-1559 fees"
  end.

Definition estimateTransactionGas : Exc Z :=
  try_catch
    (let* gasEstimate := estimateGas_rpc provider in
     applyMultiplier gasEstimate (limitMultiplier config))
    (fun _ => Ok 300000).

Definition estimateGas : Exc GasEstimate :=
  let* gasLimit := estimateTransactionGas in
  let* feeData := getEIP1559Fees in
  let totalCost := gasLimit * fst feeData in
  let totalCostInUSD := mul (formatEtherNumber totalCost) (ethPriceUSD config) in
  let* gasPrice := getGasPrice in
  Ok {| gasLimit := gasLimit;
        gasPrice := gasPrice;
        maxFeePerGas := fst feeData;
        maxPriorityFeePerGas := snd feeData;
        totalCost := totalCost;
        totalCostInUSD := totalCostInUSD |}.

Definition isWithinBudget (gasEstimate : GasEstimate) (maxBudgetUSD : number) : bool :=
  leb (totalCostInUSD gasEstimate) maxBudgetUSD.

Definition isValidGasPrice (gasPrice : number) : bool :=
  geb gasPrice (minGasPriceGwei config) && leb gasPrice (maxGasPriceGwei config).

End WithManager.

(** [estimateContractGas(contract, functionName, args)]: the call
    [contract[functionName].estimateGas(...args)] resolves or rejects as
    [contractEstimate] says. *)
Definition estimateContractGas (config : GasConfig) (contractEstimate : Exc Z)
    : Exc Z :=
  try_catch
    (let* gasEstimate := contractEstimate in
     applyMultiplier gasEstimate (limitMultiplier config))
    (fun _ => Ok 300000).

(** The configuration of the test-suite: 1.2, 1.3, 500, 1, 2000. *)
Definition testConfig : GasConfig :=
  {| priceMultiplier := decimal 12 10;
     limitMultiplier := decimal 13 10;
     maxGasPriceGwei := Number 500;
     minGasPriceGwei := Number 1;
     ethPriceUSD := Number 2000 |}.

(** [Partial<GasConfig>]: a field is absent or holds a number. *)
Record PartialGasConfig := {
  p_priceMultiplier : option number;
  p_limitMultiplier : option number;
  p_maxGasPriceGwei : option number;
  p_minGasPriceGwei : option number;
  p_ethPriceUSD : option number
}.

(** [!x] for a number: 0, -0 and NaN are falsy. *)
Definition falsyNumber (x : number) : bool :=
  match x with
  | S754_zero _ | S754_nan => true
  | _ => false
  end.

(** [x || d] for an optional number [x] *)
Definition orDefault (x : option number) (d : number) : number :=
  match x with
  | Some v => if falsyNumber v then d else v
  | None => d
  end.

(** The configuration the constructor stores. *)
Definition createGasManager (config : PartialGasConfig) : GasConfig :=
  {| priceMultiplier := orDefault (p_priceMultiplier config) (decimal 12 10);
     limitMultiplier := orDefault (p_limitMultiplier config) (decimal 13 10);
     maxGasPriceGwei := orDefault (p_maxGasPriceGwei config) (Number 500);
     minGasPriceGwei := orDefault (p_minGasPriceGwei config) (Number 1);
     ethPriceUSD := orDefault (p_ethPriceUSD config) (Number 2000) |}.

Definition setEthPrice (price : number) (config : GasConfig) : GasConfig :=
  {| priceMultiplier := priceMultiplier config;
     limitMultiplier := limitMultiplier config;
     maxGasPriceGwei := maxGasPriceGwei config;
     minGasPriceGwei := minGasPriceGwei config;
     ethPriceUSD := price |}.

(** [{ ...this.config, ...config }]: the fields present in [config] replace
    the stored ones, whatever their value. *)
Definition updateConfig (config : PartialGasConfig) (current : GasConfig)
    : GasConfig :=
  {| priceMultiplier := default (priceMultiplier current) (p_priceMultiplier config);
     limitMultiplier := default (limitMultiplier current) (p_limitMultiplier config);
     maxGasPriceGwei := default (maxGasPriceGwei current) (p_maxGasPriceGwei config);
     minGasPriceGwei := default (minGasPriceGwei current) (p_minGasPriceGwei config);
     ethPriceUSD := default (ethPriceUSD current) (p_ethPriceUSD config) |}.

End GasManager.

(** ** Wall-clock time

    [Date.now()] reads [now]; [sleep(ms)] suspends the caller for [ms]
    milliseconds.  The list [slept] records the delays requested, oldest
    first.  While a remote call of a deployment is awaited, the time the
    call takes to settle passes ([elapse]); it is never negative. *)

Module Clock.

Record t := { now : Z; slept : list Z }.

Definition sleep (ms : Z) (c : t) : t :=
  {| now := now c + Z.max 0 ms; slept := slept c ++ [ms] |}.

Definition elapse (ms : Z) (c : t) : t :=
  {| now := now c + Z.max 0 ms; slept := slept c |}.

Definition at_time (n : Z) : t := {| now := n; slept := [] |}.

End Clock.

(** ** blockchainDeployment.ts *)

Module BlockchainDeployment.
Import JsNumber.

Record DeploymentConfig := {
  timeoutSeconds : Z;
  confirmationBlocks : Z;
  maxRetries : Z;
  retryDelayMs : Z;
  gasConfig : GasManager.GasConfig
}.

(** [contractAddress] holds [contract.address], a property the contract
    object returned by the library may lack: [None] is [undefined]. *)
Record DeploymentResult := {
  contractAddress : option string;
  transactionHash : string;
  blockNumber : Z;
  gasUsed : Z;
  deploymentTime : Z;
  confirmations : Z
}.

Record BinaryMarketDeployParams := {
  title : string;
  description : string;
  endTime : number;
  oracleAddress : string;
  initialLiquidity : Z
}.

Record CopyTradingVaultDeployParams := {
  leader : string;
  name : string;
  performanceFee : number;
  managementFee : number
}.

(** A transaction receipt as the provider reports it; [r_status] is 1 for
    a transaction that executed and 0 for one that reverted. *)
Record Receipt := {
  r_hash : string;
  r_blockNumber : Z;
  r_gasUsed : Z;
  r_confirmations : Z;
  r_status : Z
}.

(** The contract object [factory.deploy(...)] resolves to: its [address]
    property, absent from the contracts of the library version that has
    [deploymentTransaction()], and the hash of its deployment transaction. *)
Record Contract := {
  c_address : option string;
  c_deploymentHash : string
}.

(** The remote ledger and the ethers library, as the service sees them.
    The three [..Time] fields give the milliseconds a remote call takes to
    settle, whether it resolves or rejects. *)
Record Chain := {
  (** [ethers.isAddress] *)
  isAddress : string -> bool;
  (** the provider behind [config.gasManager] *)
  gasProvider : GasManager.Provider;
  formatEtherNumber : Z -> number;
  (** [config.gasManager.estimateGas(...)], all its remote calls together *)
  estimateGasTime : Z;
  (** [factory.deploy(...)]: the contract, or a rejection by signer or node *)
  deployTx : Exc Contract;
  deployTime : Z;
  (** [provider.getTransactionReceipt(hash)] asked at a given time *)
  getTransactionReceipt : string -> Z -> Exc (option Receipt);
  receiptTime : Z -> Z
}.

Definition is_js_whitespace (c : Ascii.ascii) : bool :=
  let n := Ascii.nat_of_ascii c in
  (Nat.eqb n 32 || Nat.eqb n 9 || Nat.eqb n 10 || Nat.eqb n 11
   || Nat.eqb n 12 || Nat.eqb n 13)%bool.

Fixpoint trimStart (s : string) : string :=
  match s with
  | EmptyString => EmptyString
  | String c r => if is_js_whitespace c then trimStart r else s
  end.

Fixpoint trimEnd (s : string) : string :=
  match s with
  | EmptyString => EmptyString
  | String c r =>
      match trimEnd r with
      | EmptyString => if is_js_whitespace c then EmptyString else String c EmptyString
      | r' => String c r'
      end
  end.

(** [s.trim()] on the ASCII white space. *)
Definition trim (s : string) : string := trimEnd (trimStart s).

(** [!s || s.trim().length === 0] *)
Definition blank (s : string) : bool :=
  (String.eqb s EmptyString || Nat.eqb (String.length (trim s)) 0)%bool.

Section WithService.
Variable config : DeploymentConfig.
Variable chain : Chain.

Definition validateBinaryMarketParams
    (params : BinaryMarketDeployParams) (clock : Clock.t) : Exc unit :=
  if blank (title params) then
    Throw "Invalid title: must not be empty"
  else if blank (description params) then
    Throw "Invalid description: must not be empty"
  else if leb (endTime params)
              (SFdiv prec emax (Number (Clock.now clock)) (Number 1000)) then
    Throw "Invalid endTime: must be in the future"
  else if negb (isAddress chain (oracleAddress params)) then
    Throw "Invalid oracleAddress: must be a valid Ethereum address"
  else if initialLiquidity params <=? 0 then
    Throw "Invalid initialLiquidity: must be greater than 0"
  else Ok tt.

Definition validateCopyTradingVaultParams
    (params : CopyTradingVaultDeployParams) : Exc unit :=
  if negb (isAddress chain (leader params)) then
    Throw "Invalid leader: must be a valid Ethereum address"
  else if blank (name params) then
    Throw "Invalid name: must not be empty"
  else if (SFltb (performanceFee params) (Number 0)
           || SFltb (Number 100) (performanceFee params))%bool then
    Throw "Invalid performanceFee: must be between 0 and 100"
  else if (SFltb (managementFee params) (Number 0)
           || SFltb (Number 100) (managementFee params))%bool then
    Throw "Invalid managementFee: must be between 0 and 100"
  else Ok tt.

Definition timeoutMessage : Error :=
  "Deployment timeout after " +:+ pretty (timeoutSeconds config) +:+ " seconds".

(** The body of the [while] loop of [waitForConfirmation]; [polls]
    bounds the number of iterations unfolded. *)
Fixpoint waitLoop (polls : nat) (hash : string) (startTime timeout : Z)
    (clock : Clock.t) : option (Exc Receipt * Clock.t) :=
  match polls with
  | O => None
  | S polls' =>
      if Clock.now clock - startTime <? timeout then
        let asked := Clock.now clock in
        let answered := Clock.elapse (receiptTime chain asked) clock in
        match getTransactionReceipt chain hash asked with
        | Throw e => Some (Throw e, answered)
        | Ok (Some receipt) =>
            if r_confirmations receipt >=? confirmationBlocks config
            then Some (Ok receipt, answered)
            else waitLoop polls' hash startTime timeout (Clock.sleep 1000 answered)
        | Ok None =>
            waitLoop polls' hash startTime timeout (Clock.sleep 1000 answered)
        end
      else Some (Throw timeoutMessage, clock)
  end.

(** A second at least passes from one poll to the next: one poll per
    second of the timeout, and one look at the clock after the last. *)
Definition pollBudget (timeout : Z) : nat := Z.to_nat (timeout / 1000) + 2.

Definition waitForConfirmation (hash : string) (clock : Clock.t)
    : Exc Receipt * Clock.t :=
  let startTime := Clock.now clock in
  let timeout := timeoutSeconds config * 1000 in
  match waitLoop (pollBudget timeout) hash startTime timeout clock with
  | Some r => r
  | None => (Throw timeoutMessage, clock)
  end.

Definition estimateGas : Exc GasManager.GasEstimate :=
  GasManager.estimateGas (gasProvider chain) (gasConfig config)
    (formatEtherNumber chain).

(** What both deployment methods do once the parameters are accepted;
    [startTime] is the time read when the method was entered. *)
Definition submitAndConfirm (startTime : Z) (clock : Clock.t)
    : Exc DeploymentResult * Clock.t :=
  let quoted := Clock.elapse (estimateGasTime chain) clock in
  match estimateGas with
  | Throw e => (Throw e, quoted)
  | Ok gasEstimate =>
      let submitted := Clock.elapse (deployTime chain) quoted in
      match deployTx chain with
      | Throw e => (Throw e, submitted)
      | Ok contract =>
          match waitForConfirmation (c_deploymentHash contract) submitted with
          | (Throw e, clock') => (Throw e, clock')
          | (Ok receipt, clock') =>
              (Ok {| contractAddress := c_address contract;
                     transactionHash := r_hash receipt;
                     blockNumber := r_blockNumber receipt;
                     gasUsed := r_gasUsed receipt;
                     deploymentTime := Clock.now clock' - startTime;
                     confirmations := r_confirmations receipt |},
               clock')
          end
      end
  end.

Definition deployBinaryMarketContract
    (params : BinaryMarketDeployParams) (clock : Clock.t)
    : Exc DeploymentResult * Clock.t :=
  let startTime := Clock.now clock in
  match validateBinaryMarketParams params clock with
  | Throw e => (Throw e, clock)
  | Ok _ => submitAndConfirm startTime clock
  end.

Definition deployCopyTradingVaultContract
    (params : CopyTradingVaultDeployParams) (clock : Clock.t)
    : Exc DeploymentResult * Clock.t :=
  let startTime := Clock.now clock in
  match validateCopyTradingVaultParams params with
  | Throw e => (Throw e, clock)
  | Ok _ => submitAndConfirm startTime clock
  end.

(** [retryDeployment].  The k-th call of [deployFn] (k = 0, 1, ...)
    resolves or rejects as [deployFn k] says.  The result comes with the
    number of calls made.  Of the clock only the delays handed to [sleep]
    are followed here, not the time the calls themselves take. *)
Section Retry.
Context {R : Type}.
Variable deployFn : nat -> Exc R.

Definition exhaustedMessage (lastError : option Error) : Error :=
  "Deployment failed after " +:+ pretty (maxRetries config) +:+ " attempts: "
    +:+ default "undefined" lastError.

(** The [for] loop from [attempt] on, [remaining] iterations left. *)
Fixpoint retryLoop (remaining : nat) (attempt : Z) (calls : nat)
    (lastError : option Error) (clock : Clock.t)
    : Exc R * nat * Clock.t :=
  match remaining with
  | O => (Throw (exhaustedMessage lastError), calls, clock)
  | S remaining' =>
      match deployFn calls with
      | Ok r => (Ok r, S calls, clock)
      | Throw e =>
          let clock' :=
            if attempt <? maxRetries config
            then Clock.sleep (retryDelayMs config * 2 ^ (attempt - 1)) clock
            else clock in
          retryLoop remaining' (attempt + 1) (S calls) (Some e) clock'
      end
  end.

Definition retryDeployment (clock : Clock.t) : Exc R * nat * Clock.t :=
  retryLoop (Z.to_nat (maxRetries config)) 1 0%nat None clock.
End Retry.

End WithService.

End BlockchainDeployment.

(** ** alertService.ts *)

Module AlertService.

Inductive AlertLevel := INFO | WARNING | CRITICAL.
Inductive NotificationChannel := EMAIL | SLACK | SMS.
Inductive AlertStatus := ACTIVE | ACKNOWLEDGED | RESOLVED.

#[global] Instance AlertLevel_eq_dec : EqDecision AlertLevel.
Proof. solve_decision. Defined.
#[global] Instance NotificationChannel_eq_dec : EqDecision NotificationChannel.
Proof. solve_decision. Defined.
#[global] Instance AlertStatus_eq_dec : EqDecision AlertStatus.
Proof. solve_decision. Defined.

(** [metadata] is an opaque bag; the fields the callers put in it are
    kept as key/value strings. *)
Record Alert := {
  id : string;
  title : string;
  description : string;
  level : AlertLevel;
  status : AlertStatus;
  timestamp : Z;
  source : string;
  metadata : list (string * string)
}.

(** A rule.  [condition data] is [Some b] when the predicate returns [b]
    and [None] when it throws. *)
Record AlertRule (Data : Type) := {
  rule_id : string;
  rule_name : string;
  condition : Data -> option bool;
  rule_level : AlertLevel;
  channels : list NotificationChannel;
  enabled : bool
}.
Arguments rule_id {Data} _.
Arguments rule_name {Data} _.
Arguments condition {Data} _ _.
Arguments rule_level {Data} _.
Arguments channels {Data} _.
Arguments enabled {Data} _.

(** Each channel of [NotificationConfig] is optional and carries an
    [enabled] flag, the only field the service reads. *)
Record NotificationConfig := {
  email : option bool;
  slack : option bool;
  sms : option bool
}.

(** A JavaScript [Map] keeps its keys in insertion order; [set] on a key
    already present replaces the value in place. *)
Fixpoint map_set {V} (k : string) (v : V) (m : list (string * V)) : list (string * V) :=
  match m with
  | [] => [(k, v)]
  | (k', v') :: m' =>
      if String.eqb k k' then (k, v) :: m' else (k', v') :: map_set k v m'
  end.

Definition map_delete {V} (k : string) (m : list (string * V)) : list (string * V) :=
  List.filter (fun kv => negb (String.eqb k (fst kv))) m.

Section WithData.
Context {Data : Type}.

(** The fields of the class, the stream of suffixes [Math.random()]
    yields for alert ids, and the log of the channel sends performed
    (oldest first). *)
Record State := {
  alerts : gmap string Alert;
  rules : list (string * AlertRule Data);
  notificationConfig : NotificationConfig;
  deduplicationWindow : Z;
  lastAlertTime : gmap string Z;
  random : nat -> string;
  randomUsed : nat;
  outbox : list (NotificationChannel * string)
}.

Definition create (cfg : NotificationConfig) (rnd : nat -> string) : State :=
  {| alerts := ∅; rules := []; notificationConfig := cfg;
     deduplicationWindow := 60000; lastAlertTime := ∅;
     random := rnd; randomUsed := 0%nat; outbox := [] |}.

Definition generateAlertId (now : Z) (s : State) : string * State :=
  ("alert-" +:+ pretty now +:+ "-" +:+ random s (randomUsed s),
   {| alerts := alerts s; rules := rules s;
      notificationConfig := notificationConfig s;
      deduplicationWindow := deduplicationWindow s;
      lastAlertTime := lastAlertTime s;
      random := random s; randomUsed := S (randomUsed s);
      outbox := outbox s |}).

Definition set_alerts (a : gmap string Alert) (s : State) : State :=
  {| alerts := a; rules := rules s;
     notificationConfig := notificationConfig s;
     deduplicationWindow := deduplicationWindow s;
     lastAlertTime := lastAlertTime s;
     random := random s; randomUsed := randomUsed s;
     outbox := outbox s |}.

Definition set_rules (r : list (string * AlertRule Data)) (s : State) : State :=
  {| alerts := alerts s; rules := r;
     notificationConfig := notificationConfig s;
     deduplicationWindow := deduplicationWindow s;
     lastAlertTime := lastAlertTime s;
     random := random s; randomUsed := randomUsed s;
     outbox := outbox s |}.

Definition set_lastAlertTime (l : gmap string Z) (s : State) : State :=
  {| alerts := alerts s; rules := rules s;
     notificationConfig := notificationConfig s;
     deduplicationWindow := deduplicationWindow s;
     lastAlertTime := l;
     random := random s; randomUsed := randomUsed s;
     outbox := outbox s |}.

Definition set_outbox (o : list (NotificationChannel * string)) (s : State) : State :=
  {| alerts := alerts s; rules := rules s;
     notificationConfig := notificationConfig s;
     deduplicationWindow := deduplicationWindow s;
     lastAlertTime := lastAlertTime s;
     random := random s; randomUsed := randomUsed s;
     outbox := o |}.

Definition setDeduplicationWindow (windowMs : Z) (s : State) : State :=
  {| alerts := alerts s; rules := rules s;
     notificationConfig := notificationConfig s;
     deduplicationWindow := windowMs;
     lastAlertTime := lastAlertTime s;
     random := random s; randomUsed := randomUsed s;
     outbox := outbox s |}.

Definition createAlert (title description : string) (level : AlertLevel)
    (source : string) (metadata : list (string * string)) (now : Z)
    (s : State) : Alert * State :=
  let '(newId, s1) := generateAlertId now s in
  let alert :=
    {| id := newId; title := title; description := description;
       level := level; status := ACTIVE; timestamp := now;
       source := source; metadata := metadata |} in
  (alert, set_alerts (<[newId := alert]> (alerts s1)) s1).

Definition deduplicationKey (alert : Alert) : string :=
  source alert +:+ ":" +:+ title alert.

(** [!lastTime] holds for a missing entry and for the number 0. *)
Definition shouldTriggerAlert (alert : Alert) (now : Z) (s : State) : bool :=
  match lastAlertTime s !! deduplicationKey alert with
  | None => true
  | Some lastTime =>
      if lastTime =? 0 then true
      else now - lastTime >? deduplicationWindow s
  end.

Definition getChannelsForLevel (level : AlertLevel) : list NotificationChannel :=
  match level with
  | CRITICAL => [EMAIL; SLACK; SMS]
  | WARNING => [EMAIL; SLACK]
  | INFO => [SLACK]
  end.

(** [cfg.channel?.enabled] as a condition *)
Definition channelEnabled (c : option bool) : bool := default false c.

(** One channel send: nothing leaves when the channel is absent or
    disabled. *)
Definition sendNotification (alert : Alert) (channel : NotificationChannel)
    (s : State) : bool * State :=
  let on :=
    match channel with
    | EMAIL => channelEnabled (email (notificationConfig s))
    | SLACK => channelEnabled (slack (notificationConfig s))
    | SMS => channelEnabled (sms (notificationConfig s))
    end in
  if on then (true, set_outbox (outbox s ++ [(channel, id alert)]) s)
  else (false, s).

Fixpoint sendAll (alert : Alert) (chs : list NotificationChannel) (s : State)
    : list bool * State :=
  match chs with
  | [] => ([], s)
  | c :: chs' =>
      let '(r, s1) := sendNotification alert c s in
      let '(rs, s2) := sendAll alert chs' s1 in
      (r :: rs, s2)
  end.

Definition triggerAlert (alert : Alert) (now : Z) (s : State) : bool * State :=
  if negb (shouldTriggerAlert alert now s) then (false, s)
  else
    let s1 := set_lastAlertTime (<[deduplicationKey alert := now]> (lastAlertTime s)) s in
    let '(results, s2) := sendAll alert (getChannelsForLevel (level alert)) s1 in
    (forallb (fun r => r) results, s2).

Definition isHigherLevel (newLevel currentLevel : AlertLevel) : bool :=
  let levelOrder l := match l with INFO => 0 | WARNING => 1 | CRITICAL => 2 end in
  levelOrder newLevel >? levelOrder currentLevel.

Definition with_status (st : AlertStatus) (a : Alert) : Alert :=
  {| id := id a; title := title a; description := description a;
     level := level a; status := st; timestamp := timestamp a;
     source := source a; metadata := metadata a |}.

Definition with_level (l : AlertLevel) (a : Alert) : Alert :=
  {| id := id a; title := title a; description := description a;
     level := l; status := status a; timestamp := timestamp a;
     source := source a; metadata := metadata a |}.

Definition acknowledgeAlert (alertId : string) (s : State) : State :=
  set_alerts (alter (with_status ACKNOWLEDGED) alertId (alerts s)) s.

Definition resolveAlert (alertId : string) (s : State) : State :=
  set_alerts (alter (with_status RESOLVED) alertId (alerts s)) s.

Definition escalateAlert (alertId : string) (newLevel : AlertLevel) (now : Z)
    (s : State) : State :=
  match alerts s !! alertId with
  | Some alert =>
      if isHigherLevel newLevel (level alert) then
        let alert' := with_level newLevel alert in
        snd (triggerAlert alert' now (set_alerts (<[alertId := alert']> (alerts s)) s))
      else s
  | None => s
  end.

Definition addRule (rule : AlertRule Data) (s : State) : State :=
  set_rules (map_set (rule_id rule) rule (rules s)) s.

Definition removeRule (ruleId : string) (s : State) : State :=
  set_rules (map_delete ruleId (rules s)) s.

(** The body of the [for] loop of [evaluateRules] for one rule: the
    [try] block yields the new alert, nothing, or the exception of the
    predicate, which the [catch] block swallows. *)
Definition evaluateRule (data : Data) (showData : Data -> string) (now : Z)
    (rule : AlertRule Data) (s : State) : Exc (list Alert * State) :=
  if negb (enabled rule) then Ok ([], s)
  else
    try_catch
      (match condition rule data with
       | None => Throw ("rule " +:+ rule_id rule +:+ " threw")
       | Some true =>
           let '(alert, s1) :=
             createAlert (rule_name rule)
               ("Rule triggered: " +:+ rule_name rule)
               (rule_level rule) "rule-engine"
               [("ruleId", rule_id rule); ("data", showData data)] now s in
           Ok ([alert], s1)
       | Some false => Ok ([], s)
       end)
      (fun _ => Ok ([], s)).

Fixpoint evaluateLoop (data : Data) (showData : Data -> string) (now : Z)
    (rs : list (string * AlertRule Data)) (triggeredAlerts : list Alert)
    (s : State) : Exc (list Alert * State) :=
  match rs with
  | [] => Ok (triggeredAlerts, s)
  | (_, rule) :: rs' =>
      let* r := evaluateRule data showData now rule s in
      evaluateLoop data showData now rs' (triggeredAlerts ++ fst r) (snd r)
  end.

Definition evaluateRules (data : Data) (showData : Data -> string) (now : Z)
    (s : State) : Exc (list Alert * State) :=
  evaluateLoop data showData now (rules s) [] s.

Definition clearAllAlerts (s : State) : State :=
  set_lastAlertTime ∅ (set_alerts ∅ s).

(** [alerts.filter(p).length] *)
Definition count (p : Alert -> bool) (alerts : list Alert) : nat :=
  length (List.filter p alerts).

Record Statistics := {
  total : nat;
  active : nat;
  acknowledged : nat;
  resolved : nat;
  byLevel : AlertLevel -> nat
}.

Definition getStatistics (s : State) : Statistics :=
  let alerts := List.map snd (map_to_list (alerts s)) in
  {| total := length alerts;
     active := count (fun a => bool_decide (status a = ACTIVE)) alerts;
     acknowledged := count (fun a => bool_decide (status a = ACKNOWLEDGED)) alerts;
     resolved := count (fun a => bool_decide (status a = RESOLVED)) alerts;
     byLevel := fun l => count (fun a => bool_decide (level a = l)) alerts |}.

End WithData.

Arguments State : clear implicits.

End AlertService.

(** ** marketResolutionService.ts: the deployment queue kept in the database

    with [logAudit] of auditLogger.ts. *)

Module MarketResolution.

Inductive DeploymentStatus := PENDING | DEPLOYING | DEPLOYED | FAILED.

#[global] Instance DeploymentStatus_eq_dec : EqDecision DeploymentStatus.
Proof. solve_decision. Defined.

(** A row of [contractDeployQueue]; its [id] is the key of the table. *)
Record QueueRow := {
  marketId : Z;
  contractType : string;
  deploymentStatus : DeploymentStatus;
  retryCount : Z;
  maxRetries : Z;
  lastError : option string;
  deployedAddress : option string;
  deploymentTx : option string;
  gasUsed : option Z;
  gasPrice : option string
}.

(** A row of [markets], with the columns the queue reads and writes. *)
Record MarketRow := {
  m_title : string;
  m_oracleAddress : string;
  m_contractAddress : option string;
  m_deploymentStatus : DeploymentStatus;
  m_lastDeploymentError : option string
}.

(** A value among the [changes] handed to [logAudit]. *)
Inductive Value :=
  | VString (s : string)
  | VNumber (x : JsNumber.number)
  | VBigInt (z : Z).

(** A row of [auditLogs]; the column [changes] holds the text
    [JSON.stringify] makes of the fields listed here. *)
Record AuditEntry := {
  eventType : string;
  entityType : string;
  entityId : Z;
  changes : list (string * Value)
}.

(** [notifyOwner({ title, content })] *)
Record OwnerNotification := {
  n_title : string;
  n_content : string
}.

(** The tables, and what was handed to the notification service. *)
Record Db := {
  contractDeployQueue : gmap Z QueueRow;
  markets : gmap Z MarketRow;
  auditLogs : list AuditEntry;
  ownerNotifications : list OwnerNotification
}.

(** What [deployContract] resolves to: [gasUsed] is a number and
    [gasPrice] a string. *)
Record DeployOutcome := {
  address : string;
  tx : string;
  d_gasUsed : JsNumber.number;
  d_gasPrice : string
}.

(** A queue item as [select()] returns it: the key and a copy of the row. *)
Definition Item : Type := Z * QueueRow.

Definition updateQueue (f : QueueRow -> QueueRow) (id : Z) (db : Db) : Db :=
  {| contractDeployQueue := alter f id (contractDeployQueue db);
     markets := markets db;
     auditLogs := auditLogs db;
     ownerNotifications := ownerNotifications db |}.

Definition updateMarkets (f : MarketRow -> MarketRow) (id : Z) (db : Db) : Db :=
  {| contractDeployQueue := contractDeployQueue db;
     markets := alter f id (markets db);
     auditLogs := auditLogs db;
     ownerNotifications := ownerNotifications db |}.

(** [JSON.stringify(changes)] raises a TypeError when a field holds a
    bigint. *)
Definition serializable (ch : list (string * Value)) : bool :=
  forallb (fun kv => match snd kv with VBigInt _ => false | _ => true end) ch.

(** [logAudit(eventType, entityType, entityId, null, changes)]: the
    insertion sits in a [try] whose [catch] only prints the error, so
    nothing is written when the changes cannot be serialized, and the caller
    carries on. *)
Definition logAudit (ev ent : string) (id : Z) (ch : list (string * Value))
    (db : Db) : Db :=
  if serializable ch then
    {| contractDeployQueue := contractDeployQueue db;
       markets := markets db;
       auditLogs := auditLogs db ++
         [{| eventType := ev; entityType := ent; entityId := id; changes := ch |}];
       ownerNotifications := ownerNotifications db |}
  else db.

Definition notifyOwner (n : OwnerNotification) (db : Db) : Db :=
  {| contractDeployQueue := contractDeployQueue db;
     markets := markets db;
     auditLogs := auditLogs db;
     ownerNotifications := ownerNotifications db ++ [n] |}.

(** [.set({ deploymentStatus: s })] *)
Definition setStatus (s : DeploymentStatus) (r : QueueRow) : QueueRow :=
  {| marketId := marketId r; contractType := contractType r;
     deploymentStatus := s;
     retryCount := retryCount r; maxRetries := maxRetries r;
     lastError := lastError r;
     deployedAddress := deployedAddress r; deploymentTx := deploymentTx r;
     gasUsed := gasUsed r; gasPrice := gasPrice r |}.

(** [.set({ deploymentStatus: 'DEPLOYED', deployedAddress, deploymentTx,
    gasUsed, gasPrice })], with the bigint and the decimal made of the
    outcome's [gasUsed] and [gasPrice] *)
Definition setDeployed (o : DeployOutcome) (used : Z) (price : string)
    (r : QueueRow) : QueueRow :=
  {| marketId := marketId r; contractType := contractType r;
     deploymentStatus := DEPLOYED;
     retryCount := retryCount r; maxRetries := maxRetries r;
     lastError := lastError r;
     deployedAddress := Some (address o); deploymentTx := Some (tx o);
     gasUsed := Some used; gasPrice := Some price |}.

(** [.set({ deploymentStatus: 'FAILED', lastError })] *)
Definition setFailed (msg : string) (r : QueueRow) : QueueRow :=
  {| marketId := marketId r; contractType := contractType r;
     deploymentStatus := FAILED;
     retryCount := retryCount r; maxRetries := maxRetries r;
     lastError := Some msg;
     deployedAddress := deployedAddress r; deploymentTx := deploymentTx r;
     gasUsed := gasUsed r; gasPrice := gasPrice r |}.

(** [.set({ deploymentStatus: 'PENDING', retryCount, lastError })] *)
Definition setRetry (n : Z) (msg : option string) (r : QueueRow) : QueueRow :=
  {| marketId := marketId r; contractType := contractType r;
     deploymentStatus := PENDING;
     retryCount := n; maxRetries := maxRetries r;
     lastError := msg;
     deployedAddress := deployedAddress r; deploymentTx := deploymentTx r;
     gasUsed := gasUsed r; gasPrice := gasPrice r |}.

Definition marketDeployed (addr : string) (m : MarketRow) : MarketRow :=
  {| m_title := m_title m; m_oracleAddress := m_oracleAddress m;
     m_contractAddress := Some addr; m_deploymentStatus := DEPLOYED;
     m_lastDeploymentError := m_lastDeploymentError m |}.

Definition marketFailed (msg : string) (m : MarketRow) : MarketRow :=
  {| m_title := m_title m; m_oracleAddress := m_oracleAddress m;
     m_contractAddress := m_contractAddress m; m_deploymentStatus := FAILED;
     m_lastDeploymentError := Some msg |}.

Section WithDeployer.
(** [deployContract(item, market)]: the source has a placeholder that
    always resolves; the real deployment may reject. *)
Variable deployContract : Item -> MarketRow -> Exc DeployOutcome.
(** [new Decimal(v)] of decimal.js for a string [v]: the decimal, kept by
    its text, or the library's error for a string it cannot read. *)
Variable newDecimal : string -> Exc string.

Definition processDeploymentItem (item : Item) (db : Db) : Exc unit * Db :=
  let db1 := updateQueue (setStatus DEPLOYING) (fst item) db in
  match markets db1 !! marketId (snd item) with
  | None => (Throw ("Market " +:+ pretty (marketId (snd item)) +:+ " not found"), db1)
  | Some market =>
      match deployContract item market with
      | Throw e => (Throw e, db1)
      | Ok deploymentResult =>
          match JsNumber.BigInt (d_gasUsed deploymentResult) with
          | Throw e => (Throw e, db1)
          | Ok used =>
              match newDecimal (d_gasPrice deploymentResult) with
              | Throw e => (Throw e, db1)
              | Ok price =>
                  let db2 := updateQueue (setDeployed deploymentResult used price)
                               (fst item) db1 in
                  let db3 := updateMarkets (marketDeployed (address deploymentResult))
                               (marketId (snd item)) db2 in
                  let db4 := logAudit "DEPLOYMENT_SUCCESS" "deployment" (fst item)
                               [("marketId", VBigInt (marketId (snd item)));
                                ("deployedAddress", VString (address deploymentResult));
                                ("deploymentTx", VString (tx deploymentResult));
                                ("gasUsed", VNumber (d_gasUsed deploymentResult))] db3 in
                  (Ok tt, db4)
              end
          end
      end
  end.

Definition handleDeploymentFailure (item : Item) (error : Error) (db : Db) : Db :=
  let newRetryCount := retryCount (snd item) + 1 in
  if newRetryCount >=? maxRetries (snd item) then
    let db1 := updateQueue (setFailed error) (fst item) db in
    let db2 := updateMarkets (marketFailed error) (marketId (snd item)) db1 in
    let db3 := notifyOwner
      {| n_title := "Deployment Failed";
         n_content := "Deployment for market " +:+ pretty (marketId (snd item))
           +:+ " failed after " +:+ pretty newRetryCount +:+ " retries: " +:+ error |}
      db2 in
    logAudit "DEPLOYMENT_FAILED" "deployment" (fst item)
      [("error", VString error);
       ("retries", VNumber (JsNumber.Number newRetryCount))] db3
  else
    updateQueue (setRetry newRetryCount (Some error)) (fst item) db.

(** The body of the loop of [processDeploymentQueue]. *)
Definition processOne (item : Item) (db : Db) : Db :=
  match processDeploymentItem item db with
  | (Ok _, db') => db'
  | (Throw error, db') => handleDeploymentFailure item error db'
  end.




End WithDeployer.

Record QueueStatus := {
  pending : nat;
  deploying : nat;
  deployed : nat;
  failed : nat
}.

Definition countStatus (s : DeploymentStatus) (all : list QueueRow) : nat :=
  length (List.filter (fun x => bool_decide (deploymentStatus x = s)) all).

Definition getDeploymentQueueStatus (db : Db) : QueueStatus :=
  let all := List.map snd (map_to_list (contractDeployQueue db)) in
  {| pending := countStatus PENDING all;
     deploying := countStatus DEPLOYING all;
     deployed := countStatus DEPLOYED all;
     failed := countStatus FAILED all |}.

End MarketResolution.

(** ** deploymentQueueProcessor.ts: the periodic batch processor *)

Module DeploymentQueue.
Import BlockchainDeployment.

(** [params: any]: one of the two parameter bags. *)
Inductive Params :=
  | BinaryMarketParams (p : BinaryMarketDeployParams)
  | VaultParams (p : CopyTradingVaultDeployParams).

Record DeploymentQueueItem := {
  id : string;
  type : string;
  params : Params;
  status : string;
  retryCount : Z;
  maxRetries : Z;
  createdAt : Z;
  updatedAt : Z;
  error : option string
}.

Definition set_error (e : string) (item : DeploymentQueueItem) : DeploymentQueueItem :=
  {| id := id item; type := type item; params := params item;
     status := status item; retryCount := retryCount item;
     maxRetries := maxRetries item; createdAt := createdAt item;
     updatedAt := updatedAt item; error := Some e |}.

Definition set_retryCount (n : Z) (item : DeploymentQueueItem) : DeploymentQueueItem :=
  {| id := id item; type := type item; params := params item;
     status := status item; retryCount := n;
     maxRetries := maxRetries item; createdAt := createdAt item;
     updatedAt := updatedAt item; error := error item |}.

(** How a call of [processQueue] ended. *)
Inductive Exit :=
  | AlreadyProcessing
  | EmptyBatch
  | BatchDone
  | BatchError (e : Error).

Section WithCollaborators.
Context {Data : Type}.

(** The job store behind the four data-access methods.  The source has
    placeholders for them ([Stub] below); the definitions here take any
    implementation, including one that rejects. *)
Context {Store : Type}.
Variable getQueueItems : string -> Z -> Store -> Exc (list DeploymentQueueItem).
Variable updateQueueItemStatus : string -> string -> Store -> Exc Store.
Variable saveDeploymentResult :
  DeploymentQueueItem -> DeploymentResult -> Store -> Exc Store.

(** The deployment service and the ledger it talks to when the
    deployment of an item starts at a given time. *)
Variable deployConfig : DeploymentConfig.
Variable chainFor : DeploymentQueueItem -> Z -> Chain.

Record State := {
  isProcessing : bool;
  batchSize : Z;
  alertService : AlertService.State Data;
  store : Store;
  clock : Clock.t
}.

Definition set_isProcessing (b : bool) (st : State) : State :=
  {| isProcessing := b; batchSize := batchSize st;
     alertService := alertService st; store := store st; clock := clock st |}.

Definition set_store (s : Store) (st : State) : State :=
  {| isProcessing := isProcessing st; batchSize := batchSize st;
     alertService := alertService st; store := s; clock := clock st |}.

Definition set_clock (c : Clock.t) (st : State) : State :=
  {| isProcessing := isProcessing st; batchSize := batchSize st;
     alertService := alertService st; store := store st; clock := c |}.

Definition set_alertService (a : AlertService.State Data) (st : State) : State :=
  {| isProcessing := isProcessing st; batchSize := batchSize st;
     alertService := a; store := store st; clock := clock st |}.

Definition setBatchSize (size : Z) (st : State) : State :=
  {| isProcessing := isProcessing st; batchSize := size;
     alertService := alertService st; store := store st; clock := clock st |}.

(** [this.alertService.createAlert(...)], the alert itself dropped *)
Definition createAlert (title description : string)
    (level : AlertService.AlertLevel) (source : string)
    (metadata : list (string * string)) (st : State) : State :=
  set_alertService
    (snd (AlertService.createAlert title description level source metadata
            (Clock.now (clock st)) (alertService st))) st.

Definition updateStatus (itemId status : string) (st : State) : Exc unit * State :=
  match updateQueueItemStatus itemId status (store st) with
  | Ok s' => (Ok tt, set_store s' st)
  | Throw e => (Throw e, st)
  end.

(** The two deployment calls of [processQueueItem], chosen by
    [item.type].  A bag of the other kind has none of the fields the
    validation reads, so its first check fails. *)
Definition deploy (item : DeploymentQueueItem) (c : Clock.t)
    : Exc DeploymentResult * Clock.t :=
  let chain := chainFor item (Clock.now c) in
  if String.eqb (type item) "BinaryMarket" then
    match params item with
    | BinaryMarketParams p => deployBinaryMarketContract deployConfig chain p c
    | VaultParams _ => (Throw "Invalid title: must not be empty", c)
    end
  else if String.eqb (type item) "CopyTradingVault" then
    match params item with
    | VaultParams p => deployCopyTradingVaultContract deployConfig chain p c
    | BinaryMarketParams _ =>
        (Throw "Invalid leader: must be a valid Ethereum address", c)
    end
  else (Throw ("Unknown deployment type: " +:+ type item), c).

(** The [try] block of [processQueueItem]. *)
Definition processQueueItem_try (item : DeploymentQueueItem) (st : State)
    : Exc unit * State :=
  match updateStatus (id item) "processing" st with
  | (Throw e, st1) => (Throw e, st1)
  | (Ok _, st1) =>
      let '(r, c) := deploy item (clock st1) in
      let st2 := set_clock c st1 in
      match r with
      | Throw e => (Throw e, st2)
      | Ok result =>
          match saveDeploymentResult item result (store st2) with
          | Throw e => (Throw e, st2)
          | Ok s3 =>
              match updateStatus (id item) "completed" (set_store s3 st2) with
              | (Throw e, st4) => (Throw e, st4)
              | (Ok _, st4) =>
                  (Ok tt,
                   createAlert (type item +:+ " Deployment Successful")
                     ("Contract deployed successfully at "
                        +:+ default "undefined" (contractAddress result))
                     AlertService.INFO "deployment-queue"
                     [("contractAddress", default "undefined" (contractAddress result));
                      ("transactionHash", transactionHash result)] st4)
              end
          end
      end
  end.

Definition markQueueItemFailed (item : DeploymentQueueItem) (e : string)
    (st : State) : Exc unit * DeploymentQueueItem * State :=
  let item' := set_error e item in
  let '(r, st') := updateStatus (id item) "failed" st in
  (r, item', st').

Definition processQueueItem (item : DeploymentQueueItem) (st : State)
    : Exc unit * DeploymentQueueItem * State :=
  match processQueueItem_try item st with
  | (Ok _, st1) => (Ok tt, item, st1)
  | (Throw e, st1) =>
      match markQueueItemFailed item e st1 with
      | (Throw e', item', st2) => (Throw e', item', st2)
      | (Ok _, item', st2) =>
          (Ok tt, item',
           createAlert (type item +:+ " Deployment Failed")
             ("Deployment failed: " +:+ e)
             AlertService.WARNING "deployment-queue"
             [("queueItemId", id item)] st2)
      end
  end.

Definition retryQueueItem (item : DeploymentQueueItem) (st : State)
    : Exc unit * DeploymentQueueItem * State :=
  let item' := set_retryCount (retryCount item + 1) item in
  processQueueItem item' st.

(** [for (const item of items) await this.processQueueItem(item)] *)
Fixpoint processItems (items : list DeploymentQueueItem) (st : State)
    : Exc unit * State :=
  match items with
  | [] => (Ok tt, st)
  | item :: rest =>
      match processQueueItem item st with
      | (Throw e, _, st') => (Throw e, st')
      | (Ok _, _, st') => processItems rest st'
      end
  end.

(** The body of the loop over the failed items. *)
Definition retryOne (item : DeploymentQueueItem) (st : State)
    : Exc unit * DeploymentQueueItem * State :=
  if retryCount item <? maxRetries item
  then retryQueueItem item st
  else markQueueItemFailed item "Max retries exceeded" st.

(** [for (const item of failedItems) ...] *)
Fixpoint retryItems (items : list DeploymentQueueItem) (st : State)
    : Exc unit * State :=
  match items with
  | [] => (Ok tt, st)
  | item :: rest =>
      match retryOne item st with
      | (Throw e, _, st') => (Throw e, st')
      | (Ok _, _, st') => retryItems rest st'
      end
  end.

(** The [try] block of [processQueue]. *)
Definition processQueue_try (st : State) : Exc Exit * State :=
  match getQueueItems "pending" (batchSize st) (store st) with
  | Throw e => (Throw e, st)
  | Ok items =>
      if Nat.eqb (length items) 0 then (Ok EmptyBatch, st)
      else
        match processItems items st with
        | (Throw e, st1) => (Throw e, st1)
        | (Ok _, st1) =>
            match getQueueItems "failed" (batchSize st1) (store st1) with
            | Throw e => (Throw e, st1)
            | Ok failedItems =>
                match retryItems failedItems st1 with
                | (Throw e, st2) => (Throw e, st2)
                | (Ok _, st2) => (Ok BatchDone, st2)
                end
            end
        end
  end.

Definition processQueue (st : State) : Exit * State :=
  if isProcessing st then (AlreadyProcessing, st)
  else
    let st0 := set_isProcessing true st in
    let '(exit, st1) :=
      match processQueue_try st0 with
      | (Ok exit, st1) => (exit, st1)
      | (Throw e, st1) =>
          (BatchError e,
           createAlert "Deployment Queue Processing Error"
             ("Failed to process deployment queue: " +:+ e)
             AlertService.CRITICAL "deployment-queue" [] st1)
      end in
    (exit, set_isProcessing false st1).

End WithCollaborators.

(** The data-access methods as the source has them: nothing is stored. *)
Module Stub.
Definition Store := unit.
Definition getQueueItems (status : string) (limit : Z) (s : Store)
  : Exc (list DeploymentQueueItem) := Ok [].
Definition updateQueueItemStatus (itemId status : string) (s : Store)
  : Exc Store := Ok s.
Definition saveDeploymentResult (item : DeploymentQueueItem)
  (result : DeploymentResult) (s : Store) : Exc Store := Ok s.
End Stub.

(** A job table held in memory, oldest job first, for running whole
    batches in the examples: a fetch hands out copies of the first [limit]
    rows in the status asked for, an update rewrites the status of the row
    with the given id.  [failing] makes every call reject, as an unreachable
    database does. *)
Module Table.
Record Store := { rows : list DeploymentQueueItem; failing : bool }.

Definition set_status (st : string) (item : DeploymentQueueItem)
    : DeploymentQueueItem :=
  {| id := id item; type := type item; params := params item;
     status := st; retryCount := retryCount item;
     maxRetries := maxRetries item; createdAt := createdAt item;
     updatedAt := updatedAt item; error := error item |}.

Definition getQueueItems (status_ : string) (limit : Z) (s : Store)
    : Exc (list DeploymentQueueItem) :=
  if failing s then Throw "database unreachable"
  else Ok (take (Z.to_nat limit)
             (List.filter (fun it => String.eqb (status it) status_) (rows s))).

Definition updateQueueItemStatus (itemId status_ : string) (s : Store)
    : Exc Store :=
  if failing s then Throw "database unreachable"
  else Ok {| rows := List.map (fun it => if String.eqb (id it) itemId
                                     then set_status status_ it else it) (rows s);
             failing := failing s |}.

Definition saveDeploymentResult (item : DeploymentQueueItem)
    (result : DeploymentResult) (s : Store) : Exc Store :=
  if failing s then Throw "database unreachable" else Ok s.
End Table.

End DeploymentQueue.

(** ** The deployment router: [deployVault] *)

Module DeployRouter.
Import JsNumber.

Record DeployVaultInput := {
  name : string;
  performanceFee : number;
  managementFee : number
}.

(** The checks of the [deployVault] mutation that follow the role check;
    on success the deployment is queued under an id made from the clock. *)
Definition deployVault (isAdmin : bool) (input : DeployVaultInput) (now : Z)
    : Exc string :=
  try_catch
    (if negb isAdmin then Throw "Only administrators can deploy vaults"
     else if SFltb (Number 100)
               (SFadd prec emax (performanceFee input) (managementFee input))
     then Throw "Total fees cannot exceed 100%"
     else Ok ("vault-deployment-" +:+ pretty now))
    (fun e => Throw ("Failed to deploy vault: " +:+ e)).

End DeployRouter.


(** ** deploymentValidator.ts: the check of a mined transaction *)

Module DeploymentValidator.
Import JsNumber.

Record ValidationResult := {
  isValid : bool;
  errors : list string;
  warnings : list string
}.

Definition result (errors warnings : list string) : ValidationResult :=
  {| isValid := Nat.eqb (length errors) 0; errors := errors; warnings := warnings |}.

(** [validateTransaction(txHash)], given what the provider answers to
    [getTransaction] and [getTransactionReceipt].  [gasLimit] is the
    [gasLimit] field read off the receipt, if it has one; [toFixed2] prints a
    number with two decimals. *)
Definition validateTransaction
    (getTransaction : Exc (option string))
    (getTransactionReceipt : Exc (option BlockchainDeployment.Receipt))
    (gasLimit : option Z) (toFixed2 : number -> string) : ValidationResult :=
  match getTransaction with
  | Throw e => result ["Failed to validate transaction: " +:+ e] []
  | Ok None => result ["Transaction not found"] []
  | Ok (Some _) =>
      match getTransactionReceipt with
      | Throw e => result ["Failed to validate transaction: " +:+ e] []
      | Ok None => result [] ["Transaction not yet confirmed"]
      | Ok (Some receipt) =>
          let errors :=
            if BlockchainDeployment.r_status receipt =? 0
            then ["Transaction failed (status = 0)"] else [] in
          let warnings :=
            if BlockchainDeployment.r_gasUsed receipt =? 0 then []
            else
              let gasUsedPercent :=
                mul (SFdiv prec emax (Number (BlockchainDeployment.r_gasUsed receipt))
                       (match gasLimit with
                        | Some l => Number l
                        | None => S754_nan
                        end))
                    (Number 100) in
              if SFltb (Number 90) gasUsedPercent
              then ["High gas usage: " +:+ toFixed2 gasUsedPercent +:+ "% of limit"]
              else [] in
          result errors warnings
      end
  end.

(** *** The oracle whitelist *)

Record OracleConfig := {
  whitelist : list string;
  maxAge : Z
}.

(** [l.join(sep)] *)
Fixpoint join (sep : string) (l : list string) : string :=
  match l with
  | [] => ""
  | x :: l' =>
      match l' with
      | [] => x
      | _ :: _ => x +:+ sep +:+ join sep l'
      end
  end.

Section WithEthers.
(** [ethers.isAddress] and [String.prototype.toLowerCase]. *)
Variable isAddress : string -> bool.
Variable toLowerCase : string -> string.

Definition validateOracleAddress (address : string) (oracleConfig : OracleConfig)
    : ValidationResult :=
  if negb (isAddress address) then
    {| isValid := false;
       errors := ["Invalid Oracle address: not a valid Ethereum address"];
       warnings := [] |}
  else
    let isWhitelisted :=
      existsb (fun whitelistedAddress =>
                 String.eqb (toLowerCase whitelistedAddress) (toLowerCase address))
        (whitelist oracleConfig) in
    let errors :=
      if negb isWhitelisted
      then ["Oracle address not in whitelist. Whitelisted addresses: "
              +:+ join ", " (whitelist oracleConfig)]
      else [] in
    result errors [].

Definition setOracleWhitelist (whitelist_ : list string) (oracleConfig : OracleConfig)
    : OracleConfig :=
  {| whitelist := List.map toLowerCase whitelist_; maxAge := maxAge oracleConfig |}.

Definition getOracleWhitelist (oracleConfig : OracleConfig) : list string :=
  whitelist oracleConfig.

(** [whitelist.includes(a)] *)
Definition includes (a : string) (l : list string) : bool :=
  existsb (String.eqb a) l.

Definition addOracleToWhitelist (address : string) (oracleConfig : OracleConfig)
    : OracleConfig :=
  if isAddress address then
    let lowerAddress := toLowerCase address in
    if negb (includes lowerAddress (whitelist oracleConfig)) then
      {| whitelist := whitelist oracleConfig ++ [lowerAddress];
         maxAge := maxAge oracleConfig |}
    else oracleConfig
  else oracleConfig.

Definition removeOracleFromWhitelist (address : string) (oracleConfig : OracleConfig)
    : OracleConfig :=
  let lowerAddress := toLowerCase address in
  {| whitelist :=
       List.filter (fun addr => negb (String.eqb addr lowerAddress))
         (whitelist oracleConfig);
     maxAge := maxAge oracleConfig |}.

End WithEthers.

End DeploymentValidator.

(** ** contractFactory.ts: the block at which a contract was deployed *)

Module ContractFactory.
Import JsNumber.

(** The two calls made on the provider.  [getBlockNumber k] is the answer
    to the call of [getBlockNumber()] made after [k] earlier ones: the ledger
    may have grown, or been reorganised, in between.  [getCode address block]
    is the bytecode at [address] as of [block]. *)
Record Provider := {
  getBlockNumber : nat -> Exc number;
  getCode : string -> number -> Exc string
}.

Section WithEthers.
Variable isAddress : string -> bool.
Variable provider : Provider.

Definition isValidContractAddress (address : string) : bool := isAddress address.

(** The [while (low < high)] loop of [getContractDeploymentBlock], on
    numbers as the source has it; [steps] bounds the number of iterations
    unfolded, and [None] says that the loop is still running after them. *)
Fixpoint bisect (steps : nat) (address : string) (low high : number)
    : option (Exc number) :=
  match steps with
  | O => None
  | S steps' =>
      if ltb low high then
        let mid := Math_floor (div (add low high) (Number 2)) in
        match getCode provider address mid with
        | Throw e => Some (Throw e)
        | Ok bytecode =>
            if String.eqb bytecode "0x"
            then bisect steps' address (add mid (Number 1)) high
            else bisect steps' address low mid
        end
      else Some (Ok low)
  end.

(** [Some (Ok None)] is the [null] of the source; the result is [None]
    when the loop has not ended within [steps] iterations. *)
Definition getContractDeploymentBlock (steps : nat) (address : string)
    : option (Exc (option number)) :=
  if negb (isValidContractAddress address)
  then Some (Throw ("Invalid contract address: " +:+ address))
  else
    match getBlockNumber provider 0 with
    | Throw e => Some (Throw e)
    | Ok high =>
        match bisect steps address (Number 0) high with
        | None => None
        | Some (Throw e) => Some (Throw e)
        | Some (Ok low) =>
            match getBlockNumber provider 1 with
            | Throw e => Some (Throw e)
            | Ok head => Some (Ok (if leb low head then Some low else None))
            end
        end
    end.

End WithEthers.

End ContractFactory.

(** * Properties *)

(** ** The rule engine of the alert service *)

Section RuleEngine.
Import AlertService.
Context {Data : Type}.
Implicit Types (s : AlertService.State Data) (rule : AlertRule Data).

(** The rules that must produce an alert: enabled, and the predicate
    returned [true]. *)
Definition fires (data : Data) (rule : AlertRule Data) : bool :=
  enabled rule && bool_decide (condition rule data = Some true).

Definition firingRules (data : Data) (rs : list (string * AlertRule Data))
    : list (AlertRule Data) :=
  List.filter (fires data) (List.map snd rs).

(** The alert [evaluateRules] builds for a rule. *)
Definition alertOf (rule : AlertRule Data) (a : Alert) : Prop :=
  title a = rule_name rule /\
  description a = "Rule triggered: " +:+ rule_name rule /\
  level a = rule_level rule /\
  status a = ACTIVE /\
  source a = "rule-engine".

Lemma filter_cons_split {A} (f : A -> bool) (x : A) (l : list A) :
  List.filter f (x :: l) = List.filter f [x] ++ List.filter f l.
Proof. cbn [List.filter]. destruct (f x); reflexivity. Qed.

Lemma createAlert_fields t d l src md now s :
  let a := fst (createAlert t d l src md now s) in
  title a = t /\ description a = d /\ level a = l /\ status a = ACTIVE /\
  source a = src /\ timestamp a = now.
Proof. unfold createAlert, generateAlertId. simpl. repeat split. Qed.

Lemma createAlert_rules t d l src md now s :
  rules (snd (createAlert t d l src md now s)) = rules s.
Proof. reflexivity. Qed.

Lemma evaluateRule_disabled data sd now rule s :
  enabled rule = false -> evaluateRule data sd now rule s = Ok ([], s).
Proof. intros H. unfold evaluateRule. rewrite H. reflexivity. Qed.

Lemma evaluateRule_throwing data sd now rule s :
  condition rule data = None -> evaluateRule data sd now rule s = Ok ([], s).
Proof.
  intros H. unfold evaluateRule. rewrite H.
  destruct (enabled rule); reflexivity.
Qed.

Lemma evaluateRule_ok data sd now rule s :
  exists new s',
    evaluateRule data sd now rule s = Ok (new, s') /\
    Forall2 (fun a r => alertOf r a) new (List.filter (fires data) [rule]).
Proof.
  unfold evaluateRule. cbn [List.filter]. unfold fires.
  destruct (enabled rule) eqn:En; cbn [negb andb].
  2:{ exists [], s. split; [reflexivity | constructor]. }
  destruct (condition rule data) as [[|]|] eqn:Hc; cbn [try_catch];
    case_bool_decide; try congruence.
  - eexists _, _. split; [reflexivity|].
    constructor; [|constructor].
    unfold alertOf. cbn. repeat split.
  - exists [], s. split; [reflexivity | constructor].
  - exists [], s. split; [reflexivity | constructor].
Qed.

Lemma evaluateLoop_ok data sd now rs : forall acc s,
  exists new s',
    evaluateLoop data sd now rs acc s = Ok (acc ++ new, s') /\
    Forall2 (fun a r => alertOf r a) new (firingRules data rs).
Proof.
  induction rs as [|[k rule] rs IH]; intros acc s.
  - exists [], s. simpl. rewrite app_nil_r. split; [reflexivity | constructor].
  - destruct (evaluateRule_ok data sd now rule s) as (new1 & s1 & E1 & F1).
    destruct (IH (acc ++ new1) s1) as (new2 & s2 & E2 & F2).
    exists (new1 ++ new2), s2. split.
    + simpl. rewrite E1. simpl. rewrite E2. rewrite <- app_assoc. reflexivity.
    + unfold firingRules in *. cbn [List.map snd].
      rewrite filter_cons_split. apply Forall2_app; assumption.
Qed.

(** C10.  [evaluateRules(data)] always returns, never raises: whatever the
    rules and the payload, and whichever predicates throw, the call yields a
    list holding exactly one alert for each enabled rule whose predicate
    returned true, in the order of the rules.  Disabled rules and rules whose
    predicate throws contribute nothing and do not stop the evaluation of the
    rules after them. *)
Theorem evaluateRules_one_alert_per_firing_rule :
  forall (data : Data) (showData : Data -> string) (now : Z)
         (s : AlertService.State Data),
  exists triggered s',
    evaluateRules data showData now s = Ok (triggered, s') /\
    Forall2 (fun a r => alertOf r a) triggered (firingRules data (rules s)) /\
    length triggered = length (firingRules data (rules s)).
Proof.
  intros data sd now s.
  destruct (evaluateLoop_ok data sd now (rules s) [] s) as (new & s' & E & F).
  exists new, s'. split; [exact E|]. split; [exact F|].
  eapply Forall2_length; exact F.
Qed.

End RuleEngine.

(** ** Deduplication of triggered alerts *)

Section Deduplication.
Import AlertService.
Context {Data : Type}.
Implicit Types (s : AlertService.State Data) (a : Alert).

Definition channelOn (cfg : NotificationConfig) (c : NotificationChannel) : bool :=
  match c with
  | EMAIL => channelEnabled (email cfg)
  | SLACK => channelEnabled (slack cfg)
  | SMS => channelEnabled (sms cfg)
  end.

(** What one dispatch of [a] puts on the wire: one message per channel of
    its level that is switched on. *)
Definition notifications (cfg : NotificationConfig) (a : Alert)
    : list (NotificationChannel * string) :=
  List.map (fun c => (c, id a))
    (List.filter (channelOn cfg) (getChannelsForLevel (level a))).

Lemma set_outbox_id s : set_outbox (outbox s) s = s.
Proof. destruct s; reflexivity. Qed.

Lemma sendAll_spec a chs : forall s,
  sendAll a chs s =
    (List.map (channelOn (notificationConfig s)) chs,
     set_outbox (outbox s ++
                 List.map (fun c => (c, id a))
                   (List.filter (channelOn (notificationConfig s)) chs)) s).
Proof.
  induction chs as [|c chs IH]; intros s.
  - cbn. rewrite app_nil_r, set_outbox_id. reflexivity.
  - cbn [sendAll List.map List.filter].
    unfold sendNotification.
    replace (match c with
             | EMAIL => channelEnabled (email (notificationConfig s))
             | SLACK => channelEnabled (slack (notificationConfig s))
             | SMS => channelEnabled (sms (notificationConfig s))
             end) with (channelOn (notificationConfig s) c) by (destruct c; reflexivity).
    destruct (channelOn (notificationConfig s) c) eqn:On.
    + rewrite IH. cbn. rewrite <- app_assoc. reflexivity.
    + rewrite IH. reflexivity.
Qed.

Lemma triggerAlert_dispatch a now s :
  shouldTriggerAlert a now s = true ->
  triggerAlert a now s =
    (forallb (fun r => r)
       (List.map (channelOn (notificationConfig s)) (getChannelsForLevel (level a))),
     set_outbox (outbox s ++ notifications (notificationConfig s) a)
       (set_lastAlertTime (<[deduplicationKey a := now]> (lastAlertTime s)) s)).
Proof.
  intros H. unfold triggerAlert. rewrite H. cbn [negb].
  rewrite sendAll_spec. reflexivity.
Qed.

Lemma triggerAlert_suppressed a now s :
  shouldTriggerAlert a now s = false -> triggerAlert a now s = (false, s).
Proof. intros H. unfold triggerAlert. rewrite H. reflexivity. Qed.

Lemma deduplicationKey_ext a b :
  source b = source a -> title b = title a ->
  deduplicationKey b = deduplicationKey a.
Proof. unfold deduplicationKey. intros -> ->. reflexivity. Qed.

(** C9.  Three [trigger()] calls for the same [(source, title)], made at
    clock readings [t1], [t2], [t3] (after the epoch), the first of which is
    dispatched: when the second call comes within the deduplication window of
    that dispatch it returns [false] and changes nothing, so nothing is sent
    for it and the two calls together dispatch exactly one alert; a third
    call made once the window has elapsed is dispatched again. *)
Theorem triggerAlert_deduplicates_within_window :
  forall (s0 : AlertService.State Data) (a1 a2 a3 : Alert) (t1 t2 t3 : Z),
    source a2 = source a1 -> title a2 = title a1 ->
    source a3 = source a1 -> title a3 = title a1 ->
    0 < t1 ->
    shouldTriggerAlert a1 t1 s0 = true ->
    t2 - t1 <= deduplicationWindow s0 ->
    deduplicationWindow s0 < t3 - t1 ->
    let cfg := notificationConfig s0 in
    let s1 := snd (triggerAlert a1 t1 s0) in
    let s2 := snd (triggerAlert a2 t2 s1) in
    let s3 := snd (triggerAlert a3 t3 s2) in
    outbox s1 = outbox s0 ++ notifications cfg a1 /\
    triggerAlert a2 t2 s1 = (false, s1) /\
    outbox s2 = outbox s0 ++ notifications cfg a1 /\
    shouldTriggerAlert a3 t3 s2 = true /\
    outbox s3 = outbox s2 ++ notifications cfg a3 /\
    lastAlertTime s3 !! deduplicationKey a3 = Some t3.
Proof.
  intros s0 a1 a2 a3 t1 t2 t3 Hs2 Ht2 Hs3 Ht3 Hpos Hfirst Hin Hout cfg s1 s2 s3.
  pose proof (deduplicationKey_ext a1 a2 Hs2 Ht2) as K2.
  pose proof (deduplicationKey_ext a1 a3 Hs3 Ht3) as K3.
  assert (E1 : s1 = set_outbox (outbox s0 ++ notifications cfg a1)
                 (set_lastAlertTime (<[deduplicationKey a1 := t1]> (lastAlertTime s0)) s0)).
  { subst s1. rewrite (triggerAlert_dispatch _ _ _ Hfirst). reflexivity. }
  assert (L1 : lastAlertTime s1 !! deduplicationKey a1 = Some t1).
  { rewrite E1. cbn. apply lookup_insert_eq. }
  assert (W1 : deduplicationWindow s1 = deduplicationWindow s0) by (rewrite E1; reflexivity).
  assert (C1 : notificationConfig s1 = cfg) by (rewrite E1; reflexivity).
  assert (S2 : shouldTriggerAlert a2 t2 s1 = false).
  { unfold shouldTriggerAlert. rewrite K2, L1, W1.
    destruct (t1 =? 0) eqn:Z1; [apply Z.eqb_eq in Z1; lia|].
    rewrite Z.gtb_ltb. apply Z.ltb_ge. lia. }
  assert (T2 : triggerAlert a2 t2 s1 = (false, s1)) by (apply triggerAlert_suppressed, S2).
  assert (E2 : s2 = s1) by (subst s2; rewrite T2; reflexivity).
  assert (S3 : shouldTriggerAlert a3 t3 s2 = true).
  { rewrite E2. unfold shouldTriggerAlert. rewrite K3, L1, W1.
    destruct (t1 =? 0); [reflexivity|].
    rewrite Z.gtb_ltb. apply Z.ltb_lt. lia. }
  assert (O1 : outbox s1 = outbox s0 ++ notifications cfg a1) by (rewrite E1; reflexivity).
  split; [exact O1|]. split; [exact T2|]. split; [rewrite E2; exact O1|].
  split; [exact S3|].
  subst s3. rewrite (triggerAlert_dispatch _ _ _ S3). cbn [snd].
  rewrite E2, C1. split; [reflexivity|].
  cbn. apply lookup_insert_eq.
Qed.

End Deduplication.

Definition sampleAlert : AlertService.Alert :=
  {| AlertService.id := "alert-1000-k3x9q2m1z";
     AlertService.title := "BinaryMarket Deployment Failed";
     AlertService.description := "Deployment failed: nonce too low";
     AlertService.level := AlertService.CRITICAL;
     AlertService.status := AlertService.ACTIVE;
     AlertService.timestamp := 1000;
     AlertService.source := "deployment-queue";
     AlertService.metadata := [] |}.

Definition sampleChannels : AlertService.NotificationConfig :=
  {| AlertService.email := Some true;
     AlertService.slack := Some true;
     AlertService.sms := Some false |}.

Definition sampleAlertService : AlertService.State unit :=
  AlertService.create sampleChannels (fun n => pretty n).

Lemma triggerAlert_deduplicates_within_window_witness :
  let s0 := sampleAlertService in
  let s1 := snd (AlertService.triggerAlert sampleAlert 1000 s0) in
  let s2 := snd (AlertService.triggerAlert sampleAlert 31000 s1) in
  let s3 := snd (AlertService.triggerAlert sampleAlert 61001 s2) in
  AlertService.outbox s1 = AlertService.outbox s0 ++ notifications sampleChannels sampleAlert /\
  AlertService.triggerAlert sampleAlert 31000 s1 = (false, s1) /\
  AlertService.outbox s2 = AlertService.outbox s0 ++ notifications sampleChannels sampleAlert /\
  AlertService.shouldTriggerAlert sampleAlert 61001 s2 = true /\
  AlertService.outbox s3 = AlertService.outbox s2 ++ notifications sampleChannels sampleAlert /\
  AlertService.lastAlertTime s3 !! AlertService.deduplicationKey sampleAlert = Some 61001.
Proof.
  apply (triggerAlert_deduplicates_within_window sampleAlertService
           sampleAlert sampleAlert sampleAlert 1000 31000 61001);
    try reflexivity; cbn; lia.
Defined.

(** ** Bounded retries with exponential backoff *)

Section Retry.
Import BlockchainDeployment.
Context {R : Type}.
Variable cfg : DeploymentConfig.
Variable deployFn : nat -> Exc R.

(** The delays [d * 2^first, d * 2^(first+1), ...], [n] of them. *)
Definition delaysFrom (d : Z) (first n : nat) : list Z :=
  List.map (fun i => d * 2 ^ Z.of_nat i) (seq first n).

(** The backoff delays before attempts 2, 3, ..., n+1. *)
Definition backoff (d : Z) (n : nat) : list Z := delaysFrom d 0 n.

Definition failsAt (k : nat) : Prop := exists e, deployFn k = Throw e.

Definition errorAt (k : nat) : option Error :=
  match deployFn k with
  | Throw e => Some e
  | Ok _ => None
  end.

Lemma delaysFrom_cons d first n :
  delaysFrom d first (S n) = d * 2 ^ Z.of_nat first :: delaysFrom d (S first) n.
Proof. reflexivity. Qed.

Lemma slept_sleep ms c : Clock.slept (Clock.sleep ms c) = Clock.slept c ++ [ms].
Proof. reflexivity. Qed.

Lemma retryLoop_exhausted : forall remaining attempt calls lastError clock,
  attempt = Z.of_nat calls + 1 ->
  Z.of_nat (calls + remaining) = maxRetries cfg ->
  (forall k, (calls <= k < calls + remaining)%nat -> failsAt k) ->
  exists clock',
    retryLoop cfg deployFn remaining attempt calls lastError clock =
      (Throw (exhaustedMessage cfg
                (match remaining with
                 | O => lastError
                 | S _ => errorAt (calls + remaining - 1)
                 end)),
       (calls + remaining)%nat, clock') /\
    Clock.slept clock' =
      Clock.slept clock ++ delaysFrom (retryDelayMs cfg) calls (remaining - 1).
Proof.
  induction remaining as [|r IH]; intros attempt calls lastError clock Ha Hn Hf.
  - exists clock. cbn. rewrite Nat.add_0_r, app_nil_r. split; reflexivity.
  - destruct (Hf calls ltac:(lia)) as [e He].
    cbn [retryLoop]. rewrite He.
    set (clock1 := if attempt <? maxRetries cfg then _ else clock).
    destruct (IH (attempt + 1) (S calls) (Some e) clock1) as (clock' & E & S');
      [lia | lia | intros k Hk; apply Hf; lia |].
    exists clock'. split.
    + rewrite E. f_equal. f_equal.
      * f_equal. f_equal. destruct r as [|r'].
        -- unfold errorAt. replace (calls + 1 - 1)%nat with calls by lia.
           rewrite He. reflexivity.
        -- f_equal. lia.
      * lia.
    + rewrite S'. subst clock1. destruct r as [|r'].
      * destruct (attempt <? maxRetries cfg) eqn:L; [apply Z.ltb_lt in L; lia|].
        cbn. rewrite app_nil_r. reflexivity.
      * destruct (attempt <? maxRetries cfg) eqn:L; [|apply Z.ltb_ge in L; lia].
        rewrite slept_sleep, <- app_assoc. cbn [app].
        replace (S (S r') - 1)%nat with (S r') by lia.
        replace (S r' - 1)%nat with r' by lia.
        rewrite delaysFrom_cons. subst attempt.
        replace (Z.of_nat calls + 1 - 1) with (Z.of_nat calls) by lia.
        reflexivity.
Qed.

Lemma retryLoop_succeeds : forall gap remaining attempt calls lastError clock r,
  attempt = Z.of_nat calls + 1 ->
  Z.of_nat (calls + remaining) = maxRetries cfg ->
  (gap < remaining)%nat ->
  (forall k, (calls <= k < calls + gap)%nat -> failsAt k) ->
  deployFn (calls + gap) = Ok r ->
  exists clock',
    retryLoop cfg deployFn remaining attempt calls lastError clock =
      (Ok r, S (calls + gap), clock') /\
    Clock.slept clock' =
      Clock.slept clock ++ delaysFrom (retryDelayMs cfg) calls gap.
Proof.
  induction gap as [|g IH]; intros remaining attempt calls lastError clock r Ha Hn Hg Hf Hr.
  - destruct remaining as [|rem]; [lia|].
    exists clock. cbn [retryLoop]. rewrite Nat.add_0_r in Hr. rewrite Hr.
    rewrite Nat.add_0_r. cbn. rewrite app_nil_r. split; reflexivity.
  - destruct remaining as [|rem]; [lia|].
    destruct (Hf calls ltac:(lia)) as [e He].
    cbn [retryLoop]. rewrite He.
    destruct (attempt <? maxRetries cfg) eqn:L; [|apply Z.ltb_ge in L; lia].
    destruct (IH rem (attempt + 1) (S calls) (Some e)
                (Clock.sleep (retryDelayMs cfg * 2 ^ (attempt - 1)) clock) r)
      as (clock' & E & S'); [lia | lia | lia | intros k Hk; apply Hf; lia | |].
    { replace (S calls + g)%nat with (calls + S g)%nat by lia. exact Hr. }
    exists clock'. split.
    + rewrite E. f_equal. f_equal. lia.
    + rewrite S', slept_sleep, <- app_assoc. cbn [app].
      rewrite delaysFrom_cons. subst attempt.
      replace (Z.of_nat calls + 1 - 1) with (Z.of_nat calls) by lia.
      reflexivity.
Qed.

(** C5.  With [maxRetries >= 1] attempts allowed and base delay [d], the
    retry wrapper calls the operation at most [maxRetries] times.  When
    attempt [j+1] is the first that succeeds, its result is returned after
    exactly [j+1] calls, and the delays slept before it are
    [d, 2d, ..., d * 2^(j-1)].  When every attempt fails, the wrapper makes
    [maxRetries] calls, sleeps [d * 2^(attempt-1)] after each failed attempt
    but the last, and raises an error whose message wraps the message of the
    last underlying error.  For attempts 1..4 the delays are [d, 2d, 4d, 8d]. *)
Theorem retryDeployment_backoff_and_exhaustion :
  forall (clock : Clock.t),
    1 <= maxRetries cfg ->
    let n := Z.to_nat (maxRetries cfg) in
    let d := retryDelayMs cfg in
    (forall j r,
        (j < n)%nat ->
        (forall k, (k < j)%nat -> failsAt k) ->
        deployFn j = Ok r ->
        exists clock',
          retryDeployment cfg deployFn clock = (Ok r, S j, clock') /\
          Clock.slept clock' = Clock.slept clock ++ backoff d j) /\
    ((forall k, (k < n)%nat -> failsAt k) ->
        exists clock' e,
          deployFn (n - 1) = Throw e /\
          retryDeployment cfg deployFn clock =
            (Throw ("Deployment failed after " +:+ pretty (maxRetries cfg)
                    +:+ " attempts: " +:+ e), n, clock') /\
          Clock.slept clock' = Clock.slept clock ++ backoff d (n - 1)) /\
    backoff d 4 = [d; 2 * d; 4 * d; 8 * d].
Proof.
  intros clock Hmax n d. split; [|split].
  - intros j r Hj Hf Hr.
    destruct (retryLoop_succeeds j n 1 0%nat None clock r) as (clock' & E & S');
      [reflexivity | subst n; cbn; lia | exact Hj
       | intros k Hk; apply Hf; lia | exact Hr |].
    exists clock'. split; [exact E | exact S'].
  - intros Hf.
    destruct (retryLoop_exhausted n 1 0%nat None clock) as (clock' & E & S');
      [reflexivity | subst n; cbn; lia | intros k Hk; apply Hf; lia |].
    destruct (Hf (n - 1)%nat ltac:(subst n; lia)) as [e He].
    exists clock', e. split; [exact He|]. split; [|exact S'].
    unfold retryDeployment. fold n. rewrite E.
    destruct n as [|n'] eqn:En; [subst n; lia|].
    cbn [Nat.add]. unfold errorAt.
    replace (S n' - 1)%nat with n' in * by lia.
    rewrite He. reflexivity.
  - unfold backoff, delaysFrom. cbn [seq List.map Z.of_nat].
    f_equal; [lia|]. f_equal; [cbn; lia|]. f_equal; [cbn; lia|].
    f_equal; cbn; lia.
Qed.

End Retry.

Definition sampleDeploymentConfig : BlockchainDeployment.DeploymentConfig :=
  {| BlockchainDeployment.timeoutSeconds := 300;
     BlockchainDeployment.confirmationBlocks := 2;
     BlockchainDeployment.maxRetries := 5;
     BlockchainDeployment.retryDelayMs := 1000;
     BlockchainDeployment.gasConfig := GasManager.testConfig |}.

Definition sampleResult : BlockchainDeployment.DeploymentResult :=
  {| BlockchainDeployment.contractAddress :=
       Some "0x5FbDB2315678afecb367f032d93F642f64180aa3";
     BlockchainDeployment.transactionHash := "0xa1b2";
     BlockchainDeployment.blockNumber := 4200001;
     BlockchainDeployment.gasUsed := 1490000;
     BlockchainDeployment.deploymentTime := 24000;
     BlockchainDeployment.confirmations := 2 |}.

(** An operation that fails twice and then succeeds. *)
Definition flakyDeploy (k : nat) : Exc BlockchainDeployment.DeploymentResult :=
  if (k <? 2)%nat then Throw "nonce too low" else Ok sampleResult.

Lemma retryDeployment_backoff_and_exhaustion_witness :
  1 <= BlockchainDeployment.maxRetries sampleDeploymentConfig /\
  exists clock',
    BlockchainDeployment.retryDeployment sampleDeploymentConfig flakyDeploy
      (Clock.at_time 0) = (Ok sampleResult, 3%nat, clock') /\
    Clock.slept clock' = [1000; 2000].
Proof.
  split; [cbn; lia|].
  destruct (retryDeployment_backoff_and_exhaustion sampleDeploymentConfig flakyDeploy
              (Clock.at_time 0) ltac:(cbn; lia)) as [H _].
  destruct (H 2%nat sampleResult) as (clock' & E & S').
  - cbn. lia.
  - intros k Hk. exists "nonce too low".
    destruct k as [|[|k]]; [reflexivity | reflexivity | lia].
  - reflexivity.
  - exists clock'. split; [exact E | exact S'].
Defined.

(** ** The queue kept in the database: one processing step *)

Section DatabaseQueue.
Import MarketResolution.
Variable deployContract : Item -> MarketRow -> Exc DeployOutcome.
Variable newDecimal : string -> Exc string.


Lemma queue_updateQueue f id db :
  contractDeployQueue (updateQueue f id db) !! id = f <$> contractDeployQueue db !! id.
Proof. cbn. apply lookup_alter_eq. Qed.

(** [logAudit] writes to the audit log, if it writes at all. *)
Lemma logAudit_frame ev ent id ch db :
  contractDeployQueue (logAudit ev ent id ch db) = contractDeployQueue db /\
  markets (logAudit ev ent id ch db) = markets db /\
  ownerNotifications (logAudit ev ent id ch db) = ownerNotifications db.
Proof. unfold logAudit. destruct (serializable ch); repeat split. Qed.

Lemma processDeploymentItem_queue item db :
  forall row, contractDeployQueue db !! fst item = Some row ->
  match processDeploymentItem deployContract newDecimal item db with
  | (Ok _, db') =>
      exists o used price,
        contractDeployQueue db' !! fst item = Some (setDeployed o used price row) /\
        ownerNotifications db' = ownerNotifications db
  | (Throw _, db') =>
      contractDeployQueue db' !! fst item = Some (setStatus DEPLOYING row) /\
      ownerNotifications db' = ownerNotifications db
  end.
Proof.
  intros row Hrow. unfold processDeploymentItem.
  set (db1 := updateQueue (setStatus DEPLOYING) (fst item) db).
  assert (H1 : contractDeployQueue db1 !! fst item = Some (setStatus DEPLOYING row)).
  { subst db1. rewrite queue_updateQueue, Hrow. reflexivity. }
  destruct (markets db1 !! marketId (snd item)) as [market|]; [|split; [exact H1|reflexivity]].
  destruct (deployContract item market) as [o|e]; [|split; [exact H1|reflexivity]].
  destruct (JsNumber.BigInt (d_gasUsed o)) as [used|e]; [|split; [exact H1|reflexivity]].
  destruct (newDecimal (d_gasPrice o)) as [price|e]; [|split; [exact H1|reflexivity]].
  exists o, used, price.
  destruct (logAudit_frame "DEPLOYMENT_SUCCESS" "deployment" (fst item)
              [("marketId", VBigInt (marketId (snd item)));
               ("deployedAddress", VString (address o));
               ("deploymentTx", VString (tx o));
               ("gasUsed", VNumber (d_gasUsed o))]
              (updateMarkets (marketDeployed (address o)) (marketId (snd item))
                 (updateQueue (setDeployed o used price) (fst item) db1)))
    as (Q & _ & N).
  rewrite Q, N. split; [|reflexivity].
  cbn. rewrite lookup_alter_eq. cbn in H1. rewrite H1. cbn.
  destruct row; reflexivity.
Qed.

(** What one step of the queue leaves of a job stored with
    [retryCount = k].  An attempt that throws has left the job DEPLOYING;
    [handleDeploymentFailure] then puts it back to PENDING with
    [retryCount = k + 1], notifying nobody, when [k + 1 < maxRetries], and
    otherwise finalizes it FAILED and hands exactly one notification, titled
    "Deployment Failed", to the owner.  An attempt that returns leaves the job
    DEPLOYED. *)
Lemma processOne_outcomes :
  forall (db : Db) (id : Z) (row : QueueRow),
    contractDeployQueue db !! id = Some row ->
    let item : Item := (id, row) in
    let db' := processOne deployContract newDecimal item db in
    match processDeploymentItem deployContract newDecimal item db with
    | (Ok _, _) =>
        deploymentStatus <$> contractDeployQueue db' !! id = Some DEPLOYED /\
        ownerNotifications db' = ownerNotifications db
    | (Throw e, db1) =>
        contractDeployQueue db1 !! id = Some (setStatus DEPLOYING row) /\
        db' = handleDeploymentFailure item e db1 /\
        if retryCount row + 1 <? maxRetries row then
          contractDeployQueue db' !! id
            = Some (setRetry (retryCount row + 1) (Some e) row) /\
          ownerNotifications db' = ownerNotifications db
        else
          contractDeployQueue db' !! id = Some (setFailed e row) /\
          ownerNotifications db' = ownerNotifications db ++
            [{| n_title := "Deployment Failed";
                n_content :=
                  "Deployment for market " +:+ pretty (marketId row)
                  +:+ " failed after " +:+ pretty (retryCount row + 1)
                  +:+ " retries: " +:+ e |}]
    end.
Proof.
  intros db id row Hrow item db'.
  pose proof (processDeploymentItem_queue (id, row) db row Hrow) as P.
  subst db' item. unfold processOne.
  destruct (processDeploymentItem deployContract newDecimal (id, row) db) as [[u|e] db1];
    cbn [fst snd] in *.
  - destruct P as (o & used & price & Hq & Hn). rewrite Hq. split; [reflexivity|exact Hn].
  - destruct P as (Hq & Hn). split; [exact Hq|]. split; [reflexivity|].
    unfold handleDeploymentFailure. cbn [fst snd].
    rewrite Z.geb_leb.
    destruct (retryCount row + 1 <? maxRetries row) eqn:L.
    + apply Z.ltb_lt in L.
      destruct (maxRetries row <=? retryCount row + 1) eqn:G;
        [apply Z.leb_le in G; lia|].
      rewrite queue_updateQueue, Hq. cbn. split; [|exact Hn].
      destruct row; reflexivity.
    + apply Z.ltb_ge in L.
      destruct (maxRetries row <=? retryCount row + 1) eqn:G;
        [|apply Z.leb_gt in G; lia].
      match goal with
      | |- context [logAudit ?ev ?ent ?i ?ch ?d] =>
          destruct (logAudit_frame ev ent i ch d) as (Q & _ & N); rewrite Q, N
      end.
      cbn. rewrite lookup_alter_eq. cbn in Hq. rewrite Hq. cbn. split.
      * destruct row; reflexivity.
      * rewrite Hn. reflexivity.
Qed.

(** C1.  The queue kept in the database gives up one retry early.  Take a
    job stored with [retryCount = k] and [maxRetries = k + 1], so that
    [k < maxRetries] and one retry is left, and let its attempt fail.  The
    attempt has marked the job DEPLOYING; [handleDeploymentFailure] then does
    not put it back to PENDING with [retryCount = k + 1]: it finalizes the
    job FAILED with [retryCount] still [k], and tells the owner that the
    deployment failed after [k + 1] retries. *)
Theorem processOne_gives_up_one_retry_early :
  forall (db db1 : Db) (id : Z) (row : QueueRow) (e : Error),
    contractDeployQueue db !! id = Some row ->
    processDeploymentItem deployContract newDecimal (id, row) db = (Throw e, db1) ->
    retryCount row + 1 = maxRetries row ->
    let db' := processOne deployContract newDecimal (id, row) db in
    retryCount row < maxRetries row /\
    deploymentStatus <$> contractDeployQueue db1 !! id = Some DEPLOYING /\
    db' = handleDeploymentFailure (id, row) e db1 /\
    deploymentStatus <$> contractDeployQueue db' !! id = Some FAILED /\
    retryCount <$> contractDeployQueue db' !! id = Some (retryCount row) /\
    lastError <$> contractDeployQueue db' !! id = Some (Some e) /\
    ownerNotifications db' = ownerNotifications db ++
      [{| n_title := "Deployment Failed";
          n_content :=
            "Deployment for market " +:+ pretty (marketId row)
            +:+ " failed after " +:+ pretty (maxRetries row)
            +:+ " retries: " +:+ e |}].
Proof.
  intros db db1 id row e Hrow Hthrow Hlast db'.
  pose proof (processOne_outcomes db id row Hrow) as P. cbn zeta in P.
  rewrite Hthrow in P. fold db' in P.
  destruct (Z.ltb_spec (retryCount row + 1) (maxRetries row)) as [L|_]; [lia|].
  destruct P as (Hq1 & Hh & Hq & Hn).
  split; [lia|]. split; [rewrite Hq1; reflexivity|]. split; [exact Hh|].
  rewrite Hq, Hn, <- Hlast. repeat split.
Qed.

End DatabaseQueue.

Definition sampleQueueRow (k : Z) : MarketResolution.QueueRow :=
  {| MarketResolution.marketId := 1;
     MarketResolution.contractType := "BinaryMarket";
     MarketResolution.deploymentStatus := MarketResolution.PENDING;
     MarketResolution.retryCount := k;
     MarketResolution.maxRetries := 3;
     MarketResolution.lastError := None;
     MarketResolution.deployedAddress := None;
     MarketResolution.deploymentTx := None;
     MarketResolution.gasUsed := None;
     MarketResolution.gasPrice := None |}.

Definition sampleMarketRow : MarketResolution.MarketRow :=
  {| MarketResolution.m_title := "Arsenal v Chelsea: home win";
     MarketResolution.m_oracleAddress := "0x70997970C51812dc3A010C7d01b50e0d17dc79C8";
     MarketResolution.m_contractAddress := None;
     MarketResolution.m_deploymentStatus := MarketResolution.PENDING;
     MarketResolution.m_lastDeploymentError := None |}.

(** A database holding job 7 for market 1, already retried [k] times. *)
Definition sampleDb (k : Z) : MarketResolution.Db :=
  {| MarketResolution.contractDeployQueue := {[ 7 := sampleQueueRow k ]};
     MarketResolution.markets := {[ 1 := sampleMarketRow ]};
     MarketResolution.auditLogs := [];
     MarketResolution.ownerNotifications := [] |}.

Definition revertingDeploy (item : MarketResolution.Item)
    (market : MarketResolution.MarketRow) : Exc MarketResolution.DeployOutcome :=
  Throw "execution reverted".

Definition isDigit (c : Ascii.ascii) : bool :=
  let n := Ascii.nat_of_ascii c in ((48 <=? n) && (n <=? 57))%nat.

Fixpoint allDigits (s : string) : bool :=
  match s with
  | EmptyString => true
  | String c r => isDigit c && allDigits r
  end.

(** A reader of decimals for the examples: it takes the unsigned whole
    numbers, which decimal.js reads as they are written, and refuses
    everything else. *)
Definition wholeDecimal (v : string) : Exc string :=
  if negb (String.eqb v "") && allDigits v then Ok v
  else Throw ("[DecimalError] Invalid argument: " +:+ v).

(** The failing input of C1: job 7 has been retried twice of its three
    retries, and its next attempt fails.  It is left FAILED, not PENDING,
    with [retryCount] still 2, and the owner reads "failed after 3 retries". *)
Lemma processOne_gives_up_one_retry_early_witness :
  let row := sampleQueueRow 2 in
  let db' := MarketResolution.processOne revertingDeploy wholeDecimal (7, row) (sampleDb 2) in
  MarketResolution.retryCount row = 2 /\ MarketResolution.maxRetries row = 3 /\
  MarketResolution.deploymentStatus <$> MarketResolution.contractDeployQueue db' !! 7
    = Some MarketResolution.FAILED /\
  MarketResolution.retryCount <$> MarketResolution.contractDeployQueue db' !! 7
    = Some 2 /\
  MarketResolution.ownerNotifications db' =
    [{| MarketResolution.n_title := "Deployment Failed";
        MarketResolution.n_content :=
          "Deployment for market 1 failed after 3 retries: execution reverted" |}].
Proof.
  destruct (processOne_gives_up_one_retry_early revertingDeploy wholeDecimal
              (sampleDb 2)
              (MarketResolution.updateQueue
                 (MarketResolution.setStatus MarketResolution.DEPLOYING) 7 (sampleDb 2))
              7 (sampleQueueRow 2) "execution reverted"
              ltac:(reflexivity) ltac:(reflexivity) ltac:(reflexivity))
    as (_ & _ & _ & S & R & _ & N).
  split; [reflexivity|]. split; [reflexivity|].
  split; [exact S|]. split; [exact R | exact N].
Defined.

(** ** The batch processor: re-entrancy and failure handling *)

Section BatchProcessor.
Import DeploymentQueue.
Context {Data Store : Type}.
Variable getQueueItems : string -> Z -> Store -> Exc (list DeploymentQueueItem).
Variable updateQueueItemStatus : string -> string -> Store -> Exc Store.
Variable saveDeploymentResult :
  DeploymentQueueItem -> BlockchainDeployment.DeploymentResult -> Store -> Exc Store.
Variable deployConfig : BlockchainDeployment.DeploymentConfig.
Variable chainFor : DeploymentQueueItem -> Z -> BlockchainDeployment.Chain.

Local Abbreviation State := (@DeploymentQueue.State Data Store).
Local Abbreviation processQueue :=
  (@DeploymentQueue.processQueue Data Store getQueueItems updateQueueItemStatus
     saveDeploymentResult deployConfig chainFor).
Local Abbreviation processQueue_try :=
  (@DeploymentQueue.processQueue_try Data Store getQueueItems updateQueueItemStatus
     saveDeploymentResult deployConfig chainFor).
Local Abbreviation processQueueItem :=
  (@DeploymentQueue.processQueueItem Data Store updateQueueItemStatus
     saveDeploymentResult deployConfig chainFor).
Local Abbreviation processQueueItem_try :=
  (@DeploymentQueue.processQueueItem_try Data Store updateQueueItemStatus
     saveDeploymentResult deployConfig chainFor).
Local Abbreviation retryQueueItem :=
  (@DeploymentQueue.retryQueueItem Data Store updateQueueItemStatus
     saveDeploymentResult deployConfig chainFor).
Local Abbreviation retryItems :=
  (@DeploymentQueue.retryItems Data Store updateQueueItemStatus
     saveDeploymentResult deployConfig chainFor).
Local Abbreviation retryOne :=
  (@DeploymentQueue.retryOne Data Store updateQueueItemStatus
     saveDeploymentResult deployConfig chainFor).
Local Abbreviation markQueueItemFailed :=
  (@DeploymentQueue.markQueueItemFailed Data Store updateQueueItemStatus).
Local Abbreviation deploy := (DeploymentQueue.deploy deployConfig chainFor).

Lemma isProcessing_set b (st : State) : isProcessing (set_isProcessing b st) = b.
Proof. reflexivity. Qed.


(** What the [catch] block of [processQueueItem] adds to the alert service. *)
Definition failureAlert (item : DeploymentQueueItem) (e : Error) (now : Z)
    (a : AlertService.State Data) : AlertService.Alert * AlertService.State Data :=
  AlertService.createAlert (type item +:+ " Deployment Failed")
    ("Deployment failed: " +:+ e) AlertService.WARNING "deployment-queue"
    [("queueItemId", id item)] now a.

Lemma processQueueItem_try_deploy_fails item (st : State) s1 e c :
  updateQueueItemStatus (id item) "processing" (store st) = Ok s1 ->
  deploy item (clock st) = (Throw e, c) ->
  processQueueItem_try item st = (Throw e, set_clock c (set_store s1 st)).
Proof.
  intros U D. unfold DeploymentQueue.processQueueItem_try, updateStatus.
  rewrite U. cbn [clock set_store]. rewrite D. reflexivity.
Qed.

(** The job store accepts every write. *)
Definition storeAccepts : Prop :=
  (forall itemId status s, exists s', updateQueueItemStatus itemId status s = Ok s') /\
  (forall item result s, exists s', saveDeploymentResult item result s = Ok s').

(** The alert service after one more [createAlert] of the given level. *)
Definition oneMoreAlert (level : AlertService.AlertLevel)
    (a a' : AlertService.State Data) : Prop :=
  exists title description source metadata now,
    a' = snd (AlertService.createAlert title description level source metadata now a).

Lemma oneMoreAlert_randomUsed level a a' :
  oneMoreAlert level a a' ->
  AlertService.randomUsed a' = S (AlertService.randomUsed a).
Proof. intros (t & d & src & md & now & ->). reflexivity. Qed.

Lemma processQueueItem_alert (item : DeploymentQueueItem) (st : State) :
  storeAccepts ->
  exists item' st',
    processQueueItem item st = (Ok tt, item', st') /\
    isProcessing st' = isProcessing st /\
    batchSize st' = batchSize st /\
    oneMoreAlert
      (if Js.is_ok (fst (deploy item (clock st)))
       then AlertService.INFO else AlertService.WARNING)
      (alertService st) (alertService st').
Proof.
  intros [Hupd Hsave].
  unfold DeploymentQueue.processQueueItem, DeploymentQueue.processQueueItem_try,
    markQueueItemFailed, updateStatus.
  destruct (Hupd (id item) "processing" (store st)) as [s1 ->].
  cbn [clock set_store].
  destruct (DeploymentQueue.deploy deployConfig chainFor item (clock st)) as [[result|e] c];
    cbn [fst Js.is_ok].
  - cbn [store set_clock set_store].
    destruct (Hsave item result s1) as [s3 ->].
    cbn [store set_store].
    destruct (Hupd (id item) "completed" s3) as [s4 ->].
    eexists _, _. split; [reflexivity|]. cbn.
    split; [reflexivity|]. split; [reflexivity|].
    eexists _, _, _, _, _. reflexivity.
  - cbn [store set_clock set_store].
    destruct (Hupd (id item) "failed" s1) as [s2 ->].
    eexists _, _. split; [reflexivity|]. cbn.
    split; [reflexivity|]. split; [reflexivity|].
    eexists _, _, _, _, _. reflexivity.
Qed.

(** The pass over the failed jobs, one job after the other. *)
Definition retryPass (items : list DeploymentQueueItem) (st : State) : State :=
  fold_left (fun s item => snd (retryOne item s)) items st.

Lemma retryOne_never_rejects (item : DeploymentQueueItem) (st : State) :
  storeAccepts ->
  exists item' st', retryOne item st = (Ok tt, item', st').
Proof.
  intros Hstore. unfold DeploymentQueue.retryOne.
  destruct (retryCount item <? maxRetries item).
  - unfold DeploymentQueue.retryQueueItem.
    destruct (processQueueItem_alert (set_retryCount (retryCount item + 1) item) st Hstore)
      as (item' & st' & E & _).
    exists item', st'. exact E.
  - unfold DeploymentQueue.markQueueItemFailed, updateStatus.
    destruct (proj1 Hstore (id item) "failed" (store st)) as [s' ->].
    eexists _, _. reflexivity.
Qed.

Lemma retryItems_retryPass :
  storeAccepts ->
  forall (items : list DeploymentQueueItem) (st : State),
    retryItems items st = (Ok tt, retryPass items st).
Proof.
  intros Hstore. induction items as [|item items IH]; intros st; [reflexivity|].
  cbn [DeploymentQueue.retryItems retryPass fold_left].
  destruct (retryOne_never_rejects item st Hstore) as (item' & st' & E).
  rewrite E. cbn [snd]. apply IH.
Qed.

(** The pass in general: it handles the jobs in the order fetched, and
    ends early only at a job whose handling rejects. *)
Lemma retryItems_spec :
  forall (items : list DeploymentQueueItem) (st : State),
    match retryItems items st with
    | (Ok _, st') => st' = retryPass items st
    | (Throw e, st') =>
        exists before failed after_ item',
          items = before ++ failed :: after_ /\
          retryOne failed (retryPass before st) = (Throw e, item', st')
    end.
Proof.
  induction items as [|item items IH]; intros st; [reflexivity|].
  cbn [DeploymentQueue.retryItems retryPass fold_left].
  destruct (retryOne item st) as [[[u|e] item'] st1] eqn:E; cbn [snd].
  - specialize (IH st1).
    destruct (retryItems items st1) as [[u'|e'] st']; [exact IH|].
    destruct IH as (before & failed & after_ & item'' & -> & F).
    exists (item :: before), failed, after_, item''. split; [reflexivity|].
    cbn [retryPass fold_left]. rewrite E. exact F.
  - exists [], item, items, item'. split; [reflexivity | exact E].
Qed.

(** C2 (as the code has it).  The processor does not tell failures apart.
    Whenever the deployment of a job fails, in the validation of its
    parameters or at any later step, [processQueueItem] records the message
    on the job, leaves its [retryCount] as it was, has the store mark the job
    failed and creates exactly one alert, of level WARNING.  The retry pass
    treats every failed job alike as well, whatever made it fail: a job with
    [retryCount < maxRetries] has its count raised by one and is processed
    again; any other job is marked failed with "Max retries exceeded", and
    no alert is created for it.  The pass does so for every job of the list
    it fetched, one after the other; it ends early only at a job whose
    handling rejects, which does not happen when the store accepts the
    writes. *)
Theorem processQueueItem_failure_handling :
  forall (item : DeploymentQueueItem) (st : State) (e : Error) (c : Clock.t)
         (s1 s2 : Store),
    updateQueueItemStatus (id item) "processing" (store st) = Ok s1 ->
    deploy item (clock st) = (Throw e, c) ->
    updateQueueItemStatus (id item) "failed" s1 = Ok s2 ->
    (exists st',
        processQueueItem item st = (Ok tt, set_error e item, st') /\
        retryCount (set_error e item) = retryCount item /\
        error (set_error e item) = Some e /\
        store st' = s2 /\
        alertService st' =
          snd (failureAlert item e (Clock.now c) (alertService st)) /\
        AlertService.level
          (fst (failureAlert item e (Clock.now c) (alertService st)))
          = AlertService.WARNING) /\
    (forall failed st0,
        retryCount failed < maxRetries failed ->
        retryOne failed st0
          = processQueueItem (set_retryCount (retryCount failed + 1) failed) st0) /\
    (forall failed st0 s',
        maxRetries failed <= retryCount failed ->
        updateQueueItemStatus (id failed) "failed" (store st0) = Ok s' ->
        retryOne failed st0
          = (Ok tt, set_error "Max retries exceeded" failed, set_store s' st0) /\
        alertService (set_store s' st0) = alertService st0) /\
    (forall failedItems st0,
        match retryItems failedItems st0 with
        | (Ok _, st') => st' = retryPass failedItems st0
        | (Throw e', st') =>
            exists before failed after_ item',
              failedItems = before ++ failed :: after_ /\
              retryOne failed (retryPass before st0) = (Throw e', item', st')
        end) /\
    (forall failedItems before failed after_ st0,
        failedItems = before ++ failed :: after_ ->
        retryPass failedItems st0
          = retryPass after_ (snd (retryOne failed (retryPass before st0)))) /\
    (storeAccepts ->
     forall failedItems st0,
       retryItems failedItems st0 = (Ok tt, retryPass failedItems st0)).
Proof.
  intros item st e c s1 s2 U D F. split; [|split; [|split; [|split; [|split]]]].
  - eexists. unfold DeploymentQueue.processQueueItem.
    rewrite (processQueueItem_try_deploy_fails item st s1 e c U D).
    unfold DeploymentQueue.markQueueItemFailed, updateStatus.
    cbn [store set_clock set_store]. rewrite F.
    split; [reflexivity|]. repeat split.
  - intros failed st0 L. unfold DeploymentQueue.retryOne.
    destruct (Z.ltb_spec (retryCount failed) (maxRetries failed)); [reflexivity | lia].
  - intros failed st0 s' L U'. unfold DeploymentQueue.retryOne.
    destruct (Z.ltb_spec (retryCount failed) (maxRetries failed)); [lia|].
    unfold DeploymentQueue.markQueueItemFailed, updateStatus. rewrite U'.
    split; reflexivity.
  - apply retryItems_spec.
  - intros failedItems before failed after_ st0 ->. unfold retryPass.
    rewrite fold_left_app. reflexivity.
  - intros Hstore. apply retryItems_retryPass, Hstore.
Qed.

End BatchProcessor.

(** ** Sample ledgers, jobs and processor states *)

Definition isHexDigit (c : Ascii.ascii) : bool :=
  let n := Ascii.nat_of_ascii c in
  ((48 <=? n) && (n <=? 57) || (65 <=? n) && (n <=? 70)
   || (97 <=? n) && (n <=? 102))%nat.

Fixpoint allHex (s : string) : bool :=
  match s with
  | EmptyString => true
  | String c r => isHexDigit c && allHex r
  end.

(** A 20-byte address in hexadecimal, as [ethers.isAddress] accepts it
    (without the checksum rule for mixed case). *)
Definition isHexAddress (s : string) : bool :=
  String.prefix "0x" s && Nat.eqb (String.length s) 42
  && allHex (String.substring 2 40 s).

(** The number of ether a number of wei makes. *)
Definition etherNumber (wei : Z) : JsNumber.number :=
  SFdiv JsNumber.prec JsNumber.emax (JsNumber.Number wei)
    (JsNumber.Number (10 ^ 18)).

(** The provider of the test-suite: 20 Gwei, 30 Gwei and 2 Gwei, 100000 gas. *)
Definition sampleProvider : GasManager.Provider :=
  {| GasManager.getGasPrice_rpc := Ok 20000000000;
     GasManager.getFeeData_rpc :=
       Ok {| GasManager.fd_maxFeePerGas := Some 30000000000;
             GasManager.fd_maxPriorityFeePerGas := Some 2000000000 |};
     GasManager.estimateGas_rpc := Ok 100000 |}.

(** A transaction mined at [minedAt] with the given status, which gains one
    confirmation every 12 seconds. *)
Definition receiptOf (minedAt status : Z) (hash : string) (t : Z)
    : Exc (option BlockchainDeployment.Receipt) :=
  Ok (if t <? minedAt then None
      else Some {| BlockchainDeployment.r_hash := hash;
                   BlockchainDeployment.r_blockNumber := 4200001;
                   BlockchainDeployment.r_gasUsed := 1490000;
                   BlockchainDeployment.r_confirmations := (t - minedAt) / 12000 + 1;
                   BlockchainDeployment.r_status := status |}).

Definition sampleStart : Z := 1700000000000.

(** A ledger that accepts the deployment and mines it three seconds later. *)
Definition healthyChain (status : Z) : BlockchainDeployment.Chain :=
  {| BlockchainDeployment.isAddress := isHexAddress;
     BlockchainDeployment.gasProvider := sampleProvider;
     BlockchainDeployment.formatEtherNumber := etherNumber;
     BlockchainDeployment.estimateGasTime := 0;
     BlockchainDeployment.deployTx :=
       Ok {| BlockchainDeployment.c_address :=
               Some "0x5FbDB2315678afecb367f032d93F642f64180aa3";
             BlockchainDeployment.c_deploymentHash := "0xa1b2" |};
     BlockchainDeployment.deployTime := 0;
     BlockchainDeployment.getTransactionReceipt :=
       receiptOf (sampleStart + 3000) status;
     BlockchainDeployment.receiptTime := fun _ => 0 |}.

(** A ledger that refuses the deployment transaction. *)
Definition brokeChain : BlockchainDeployment.Chain :=
  {| BlockchainDeployment.isAddress := isHexAddress;
     BlockchainDeployment.gasProvider := sampleProvider;
     BlockchainDeployment.formatEtherNumber := etherNumber;
     BlockchainDeployment.estimateGasTime := 0;
     BlockchainDeployment.deployTx :=
       Throw "insufficient funds for intrinsic transaction cost";
     BlockchainDeployment.deployTime := 0;
     BlockchainDeployment.getTransactionReceipt := fun _ _ => Ok None;
     BlockchainDeployment.receiptTime := fun _ => 0 |}.

Definition sampleMarketParams : BlockchainDeployment.BinaryMarketDeployParams :=
  {| BlockchainDeployment.title := "Arsenal v Chelsea: home win";
     BlockchainDeployment.description := "Resolves YES if the home side wins";
     BlockchainDeployment.endTime := JsNumber.Number 1800000000;
     BlockchainDeployment.oracleAddress := "0x70997970C51812dc3A010C7d01b50e0d17dc79C8";
     BlockchainDeployment.initialLiquidity := 1000000000000000000 |}.

Definition untitledMarketParams : BlockchainDeployment.BinaryMarketDeployParams :=
  {| BlockchainDeployment.title := "   ";
     BlockchainDeployment.description := "Resolves YES if the home side wins";
     BlockchainDeployment.endTime := JsNumber.Number 1800000000;
     BlockchainDeployment.oracleAddress := "0x70997970C51812dc3A010C7d01b50e0d17dc79C8";
     BlockchainDeployment.initialLiquidity := 1000000000000000000 |}.

Definition greedyVaultParams : BlockchainDeployment.CopyTradingVaultDeployParams :=
  {| BlockchainDeployment.leader := "0x70997970C51812dc3A010C7d01b50e0d17dc79C8";
     BlockchainDeployment.name := "Alpha vault";
     BlockchainDeployment.performanceFee := JsNumber.Number 60;
     BlockchainDeployment.managementFee := JsNumber.Number 60 |}.

Definition sampleJob (itemId : string) (p : DeploymentQueue.Params)
    (st : string) (retries : Z) (err : option string)
    : DeploymentQueue.DeploymentQueueItem :=
  {| DeploymentQueue.id := itemId;
     DeploymentQueue.type := "BinaryMarket";
     DeploymentQueue.params := p;
     DeploymentQueue.status := st;
     DeploymentQueue.retryCount := retries;
     DeploymentQueue.maxRetries := 3;
     DeploymentQueue.createdAt := sampleStart - 60000;
     DeploymentQueue.updatedAt := sampleStart - 60000;
     DeploymentQueue.error := err |}.

Definition sampleState {Store : Type} (processing : bool) (s : Store)
    : @DeploymentQueue.State unit Store :=
  {| DeploymentQueue.isProcessing := processing;
     DeploymentQueue.batchSize := 5;
     DeploymentQueue.alertService := sampleAlertService;
     DeploymentQueue.store := s;
     DeploymentQueue.clock := Clock.at_time sampleStart |}.

(** The levels of the alerts an alert service holds. *)
Definition alertLevels {Data} (a : AlertService.State Data) : list AlertService.AlertLevel :=
  List.map (fun kv => AlertService.level (snd kv)) (map_to_list (AlertService.alerts a)).

Definition tableOf (jobs : list DeploymentQueue.DeploymentQueueItem) (down : bool)
    : DeploymentQueue.Table.Store :=
  {| DeploymentQueue.Table.rows := jobs; DeploymentQueue.Table.failing := down |}.

Definition tableProcessQueue (chain : BlockchainDeployment.Chain) :=
  @DeploymentQueue.processQueue unit _
    DeploymentQueue.Table.getQueueItems
    DeploymentQueue.Table.updateQueueItemStatus
    DeploymentQueue.Table.saveDeploymentResult
    sampleDeploymentConfig (fun _ _ => chain).

Definition stubProcessQueue (chain : BlockchainDeployment.Chain) :=
  @DeploymentQueue.processQueue unit _
    DeploymentQueue.Stub.getQueueItems
    DeploymentQueue.Stub.updateQueueItemStatus
    DeploymentQueue.Stub.saveDeploymentResult
    sampleDeploymentConfig (fun _ _ => chain).

Definition stubProcessQueueItem (chain : BlockchainDeployment.Chain) :=
  @DeploymentQueue.processQueueItem unit _
    DeploymentQueue.Stub.updateQueueItemStatus
    DeploymentQueue.Stub.saveDeploymentResult
    sampleDeploymentConfig (fun _ _ => chain).

Definition stubRetryItems (chain : BlockchainDeployment.Chain) :=
  @DeploymentQueue.retryItems unit _
    DeploymentQueue.Stub.updateQueueItemStatus
    DeploymentQueue.Stub.saveDeploymentResult
    sampleDeploymentConfig (fun _ _ => chain).

(** *** The exits of [processQueue] *)

Definition pendingJob : DeploymentQueue.DeploymentQueueItem :=
  sampleJob "job-1" (DeploymentQueue.BinaryMarketParams sampleMarketParams)
    "pending" 0 None.

(** The job whose title is blank: its parameters fail validation. *)
Definition untitledJob : DeploymentQueue.DeploymentQueueItem :=
  sampleJob "job-2" (DeploymentQueue.BinaryMarketParams untitledMarketParams)
    "failed" 0 (Some "Invalid title: must not be empty").


(** With the data-access placeholders of the source every batch is empty. *)
Lemma processQueue_exit_empty_batch :
  forall chain,
    stubProcessQueue chain (sampleState false tt)
      = (DeploymentQueue.EmptyBatch, sampleState false tt).
Proof. intros chain. reflexivity. Qed.

(** A batch with one pending job that deploys: normal completion. *)
Lemma processQueue_exit_batch_done :
  let end_ := tableProcessQueue (healthyChain 1)
                (sampleState false (tableOf [pendingJob] false)) in
  fst end_ = DeploymentQueue.BatchDone /\
  DeploymentQueue.isProcessing (snd end_) = false /\
  List.map DeploymentQueue.status
    (DeploymentQueue.Table.rows (DeploymentQueue.store (snd end_))) = ["completed"] /\
  alertLevels (DeploymentQueue.alertService (snd end_)) = [AlertService.INFO].
Proof. vm_compute. repeat split. Qed.

(** The store becomes unreachable: the batch ends in the [catch] block,
    which creates one CRITICAL alert, and the flag is cleared all the same. *)
Lemma processQueue_exit_exception :
  let end_ := tableProcessQueue (healthyChain 1)
                (sampleState false (tableOf [pendingJob] true)) in
  fst end_ = DeploymentQueue.BatchError "database unreachable" /\
  DeploymentQueue.isProcessing (snd end_) = false /\
  alertLevels (DeploymentQueue.alertService (snd end_)) = [AlertService.CRITICAL].
Proof. vm_compute. repeat split. Qed.

(** *** Failures of one job *)

(** A failed job that has used up its three retries. *)
Definition exhaustedJob : DeploymentQueue.DeploymentQueueItem :=
  sampleJob "job-3" (DeploymentQueue.BinaryMarketParams sampleMarketParams)
    "failed" 3 (Some "insufficient funds for intrinsic transaction cost").

Lemma processQueueItem_failure_handling_witness :
  let st := sampleState false tt in
  (exists st',
     stubProcessQueueItem brokeChain pendingJob st
       = (Ok tt,
          DeploymentQueue.set_error
            "insufficient funds for intrinsic transaction cost" pendingJob, st') /\
     alertLevels (DeploymentQueue.alertService st') = [AlertService.WARNING]) /\
  (exists st',
     stubRetryItems (healthyChain 1) [untitledJob; exhaustedJob] st = (Ok tt, st') /\
     alertLevels (DeploymentQueue.alertService st') = [AlertService.WARNING]).
Proof.
  split.
  - destruct (processQueueItem_failure_handling (Data := unit)
                DeploymentQueue.Stub.updateQueueItemStatus
                DeploymentQueue.Stub.saveDeploymentResult
                sampleDeploymentConfig (fun _ _ => brokeChain)
                pendingJob (sampleState false tt)
                "insufficient funds for intrinsic transaction cost"
                (Clock.at_time sampleStart) tt tt
                ltac:(reflexivity) ltac:(vm_compute; reflexivity) ltac:(reflexivity))
      as [(st' & E & _ & _ & _ & A & _) _].
    exists st'. split; [exact E|].
    rewrite A. vm_compute. reflexivity.
  - destruct (processQueueItem_failure_handling (Data := unit)
                DeploymentQueue.Stub.updateQueueItemStatus
                DeploymentQueue.Stub.saveDeploymentResult
                sampleDeploymentConfig (fun _ _ => healthyChain 1)
                untitledJob (sampleState false tt)
                "Invalid title: must not be empty"
                (Clock.at_time sampleStart) tt tt
                ltac:(reflexivity) ltac:(vm_compute; reflexivity) ltac:(reflexivity))
      as (_ & _ & _ & _ & _ & P).
    pose proof (P ltac:(split; intros; eexists; reflexivity)
                  [untitledJob; exhaustedJob] (sampleState false tt)) as E.
    eexists. split; [exact E|]. vm_compute. reflexivity.
Defined.

(** C2 as stated fails on both of its halves.  A deployment that passes
    validation and is then refused by the ledger leaves [retryCount] at 0 and
    creates a WARNING alert, no CRITICAL one.  A job that failed validation
    is picked up by the retry pass like any other: its [retryCount] goes
    from 0 to 1 and it is processed again. *)
Lemma processQueueItem_failure_kinds_counterexample :
  let st := sampleState false tt in
  BlockchainDeployment.validateBinaryMarketParams brokeChain sampleMarketParams
    (DeploymentQueue.clock st) = Ok tt /\
  (exists item' st',
      stubProcessQueueItem brokeChain pendingJob st = (Ok tt, item', st') /\
      DeploymentQueue.retryCount pendingJob = 0 /\
      DeploymentQueue.retryCount item' = 0 /\
      alertLevels (DeploymentQueue.alertService st') = [AlertService.WARNING]) /\
  BlockchainDeployment.validateBinaryMarketParams (healthyChain 1) untitledMarketParams
    (DeploymentQueue.clock st) = Throw "Invalid title: must not be empty" /\
  (exists item' st',
      @DeploymentQueue.retryQueueItem unit _
        DeploymentQueue.Stub.updateQueueItemStatus
        DeploymentQueue.Stub.saveDeploymentResult
        sampleDeploymentConfig (fun _ _ => healthyChain 1) untitledJob st
        = (Ok tt, item', st') /\
      DeploymentQueue.retryCount untitledJob = 0 /\
      DeploymentQueue.retryCount item' = 1).
Proof.
  cbn zeta. split; [vm_compute; reflexivity|]. split.
  { eexists _, _. split; [vm_compute; reflexivity|]. vm_compute. repeat split. }
  split; [vm_compute; reflexivity|].
  eexists _, _. split; [vm_compute; reflexivity|]. vm_compute. split; reflexivity.
Qed.

(** ** Waiting for confirmations *)

Section ConfirmationWait.
Import BlockchainDeployment.
Variable config : DeploymentConfig.
Variable chain : Chain.
Variable hash : string.

(** The poll made at time [t] finds a receipt with enough confirmations. *)
Definition confirmedAt (t : Z) : bool :=
  match getTransactionReceipt chain hash t with
  | Ok (Some receipt) => r_confirmations receipt >=? confirmationBlocks config
  | _ => false
  end.

Lemma now_sleep ms c : Clock.now (Clock.sleep ms c) = Clock.now c + Z.max 0 ms.
Proof. reflexivity. Qed.

Lemma now_elapse ms c : Clock.now (Clock.elapse ms c) = Clock.now c + Z.max 0 ms.
Proof. reflexivity. Qed.

(** The time at which the answer to a poll asked at [t] has settled, and
    the time of the poll after it: the loop sleeps a second in between. *)
Definition answeredAt (t : Z) : Z := t + Z.max 0 (receiptTime chain t).
Definition nextPoll (t : Z) : Z := answeredAt t + 1000.

(** The time of poll number [k] of a wait whose first poll is asked at [t]. *)
Fixpoint pollTime (k : nat) (t : Z) : Z :=
  match k with
  | O => t
  | S k' => pollTime k' (nextPoll t)
  end.

Lemma pollTime_lower k : forall t, t + 1000 * Z.of_nat k <= pollTime k t.
Proof.
  induction k as [|k IH]; intros t; [cbn; lia|].
  cbn [pollTime]. specialize (IH (nextPoll t)).
  unfold nextPoll, answeredAt in *. lia.
Qed.

(** What the loop returns, for any number of polls that covers the time
    left: it never runs out of polls; a receipt it returns was asked for
    before the timeout, at the first poll that found enough confirmations;
    the errors it raises are the timeout, when no poll before the deadline
    found enough confirmations, or the rejection of the provider. *)
Lemma waitLoop_spec (startTime timeout : Z) : forall polls clock,
  (Z.max 0 (timeout - (Clock.now clock - startTime)) + 999) / 1000 + 1
    <= Z.of_nat polls ->
  match waitLoop config chain polls hash startTime timeout clock with
  | Some (Ok receipt, clock') =>
      exists k,
        let asked := pollTime k (Clock.now clock) in
        asked - startTime < timeout /\
        getTransactionReceipt chain hash asked = Ok (Some receipt) /\
        confirmationBlocks config <= r_confirmations receipt /\
        Clock.now clock' = answeredAt asked /\
        forall j, (j < k)%nat -> confirmedAt (pollTime j (Clock.now clock)) = false
  | Some (Throw e, clock') =>
      (e = timeoutMessage config /\
       forall j, pollTime j (Clock.now clock) - startTime < timeout ->
                 confirmedAt (pollTime j (Clock.now clock)) = false) \/
      (exists k, getTransactionReceipt chain hash (pollTime k (Clock.now clock)) = Throw e)
  | None => False
  end.
Proof.
  induction polls as [|polls IH]; intros clock Hfuel.
  - exfalso.
    pose proof (Z.div_pos (Z.max 0 (timeout - (Clock.now clock - startTime)) + 999) 1000
                  ltac:(lia) ltac:(lia)).
    change (Z.of_nat 0) with 0 in Hfuel. lia.
  - cbn [waitLoop].
    destruct (Clock.now clock - startTime <? timeout) eqn:Hlt.
    2:{ apply Z.ltb_ge in Hlt. left. split; [reflexivity|]. intros j Hj.
        pose proof (pollTime_lower j (Clock.now clock)). lia. }
    apply Z.ltb_lt in Hlt. cbn zeta.
    set (next := Clock.sleep 1000 (Clock.elapse (receiptTime chain (Clock.now clock)) clock)).
    assert (Hn : Clock.now next = nextPoll (Clock.now clock)).
    { subst next. rewrite now_sleep, now_elapse. reflexivity. }
    assert (Hnext : (Z.max 0 (timeout - (Clock.now next - startTime)) + 999) / 1000 + 1
                      <= Z.of_nat polls).
    { rewrite Hn. unfold nextPoll, answeredAt.
      set (left_ := timeout - (Clock.now clock - startTime)) in *.
      set (d := Z.max 0 (receiptTime chain (Clock.now clock))).
      assert (0 <= d) by (subst d; lia).
      rewrite Z.max_r in Hfuel by lia.
      rewrite Nat2Z.inj_succ in Hfuel.
      assert ((Z.max 0 (timeout - (Clock.now clock + d + 1000 - startTime)) + 999) / 1000
                <= (Z.max 0 (left_ - 1000) + 999) / 1000)
        by (apply Z.div_le_mono; lia).
      destruct (Z.le_gt_cases (left_ - 1000) 0).
      - rewrite Z.max_l in * by lia. change ((0 + 999) / 1000) with 0 in *.
        assert (1 <= (left_ + 999) / 1000) by (apply Z.div_le_lower_bound; lia).
        lia.
      - rewrite (Z.max_r 0 (left_ - 1000)) in * by lia.
        replace (left_ - 1000 + 999) with (left_ + 999 + (-1) * 1000) in * by lia.
        rewrite Z.div_add in * by lia. lia. }
    assert (Hrec : confirmedAt (Clock.now clock) = false ->
      match waitLoop config chain polls hash startTime timeout next with
      | Some (Ok receipt, clock') =>
          exists k,
            let asked := pollTime k (Clock.now clock) in
            asked - startTime < timeout /\
            getTransactionReceipt chain hash asked = Ok (Some receipt) /\
            confirmationBlocks config <= r_confirmations receipt /\
            Clock.now clock' = answeredAt asked /\
            forall j, (j < k)%nat -> confirmedAt (pollTime j (Clock.now clock)) = false
      | Some (Throw e, clock') =>
          (e = timeoutMessage config /\
           forall j, pollTime j (Clock.now clock) - startTime < timeout ->
                     confirmedAt (pollTime j (Clock.now clock)) = false) \/
          (exists k, getTransactionReceipt chain hash (pollTime k (Clock.now clock)) = Throw e)
      | None => False
      end).
    { intros Hnot. specialize (IH next Hnext).
      destruct (waitLoop config chain polls hash startTime timeout next)
        as [[[receipt|e] clock']|]; [| |exact IH].
      - destruct IH as (k & Hbefore & Hrc & Hconf & Hnow & Hfirst).
        rewrite Hn in *.
        exists (S k). cbn [pollTime]. repeat split; try assumption.
        intros [|j] Hj; [exact Hnot|]. cbn [pollTime]. apply Hfirst. lia.
      - rewrite Hn in IH.
        destruct IH as [[He Hall]|[k Hrej]]; [left|right; exists (S k); exact Hrej].
        split; [exact He|]. intros [|j] Hj; [exact Hnot|].
        cbn [pollTime] in *. apply Hall, Hj. }
    unfold confirmedAt in Hrec at 1.
    destruct (getTransactionReceipt chain hash (Clock.now clock)) as [[receipt|]|e] eqn:Hrc.
    + destruct (r_confirmations receipt >=? confirmationBlocks config) eqn:Hc.
      * exists 0%nat. rewrite Z.geb_leb in Hc. apply Z.leb_le in Hc.
        cbn [pollTime]. repeat split; try assumption; try reflexivity. lia.
      * apply Hrec. reflexivity.
    + apply Hrec. reflexivity.
    + right. exists 0%nat. exact Hrc.
Qed.

Lemma pollBudget_covers (clock : Clock.t) (timeout : Z) :
  (Z.max 0 (timeout - (Clock.now clock - Clock.now clock)) + 999) / 1000 + 1
    <= Z.of_nat (pollBudget timeout).
Proof.
  unfold pollBudget. rewrite Z.sub_diag, Z.sub_0_r.
  destruct (Z.le_gt_cases timeout 0).
  - rewrite Z.max_l by lia. change ((0 + 999) / 1000) with 0. lia.
  - rewrite Z.max_r by lia.
    pose proof (Z.div_pos timeout 1000 ltac:(lia) ltac:(lia)).
    replace (timeout + 999) with (timeout + (-1) + 1 * 1000) by lia.
    rewrite Z.div_add by lia.
    assert ((timeout + -1) / 1000 <= timeout / 1000)
      by (apply Z.div_le_mono; lia).
    lia.
Qed.

(** The confirmation wait always ends, within the polls allotted to it.  It
    returns a receipt exactly when some poll asked before [timeoutSeconds]
    have elapsed finds a receipt whose confirmation count reaches
    [confirmationBlocks] (the provider answering every poll); failing that it
    raises the timeout error.  The status of the receipt plays no part. *)
Lemma waitForConfirmation_success_iff (clock : Clock.t) :
  (forall t, exists answer, getTransactionReceipt chain hash t = Ok answer) ->
  let timeout := timeoutSeconds config * 1000 in
  let polled k := pollTime k (Clock.now clock) in
  ((exists receipt clock',
       waitForConfirmation config chain hash clock = (Ok receipt, clock')) <->
   (exists k, polled k - Clock.now clock < timeout /\ confirmedAt (polled k) = true)) /\
  ((forall k, polled k - Clock.now clock < timeout -> confirmedAt (polled k) = false) ->
   exists clock',
     waitForConfirmation config chain hash clock = (Throw (timeoutMessage config), clock')).
Proof.
  intros Hanswers timeout polled.
  pose proof (waitLoop_spec (Clock.now clock) timeout (pollBudget timeout) clock
                (pollBudget_covers clock timeout)) as S.
  unfold waitForConfirmation. fold timeout.
  destruct (waitLoop config chain (pollBudget timeout) hash (Clock.now clock) timeout clock)
    as [[[receipt|e] clock']|]; [| |contradiction].
  - destruct S as (k & Hbefore & Hrc & Hconf & Hnow & Hfirst).
    assert (Hc : confirmedAt (polled k) = true).
    { unfold confirmedAt, polled. rewrite Hrc.
      rewrite Z.geb_leb. apply Z.leb_le. exact Hconf. }
    split.
    + split; [intros _; exists k; split; [exact Hbefore | exact Hc] | intros _; eauto].
    + intros Hnone. rewrite Hnone in Hc by exact Hbefore. discriminate.
  - destruct S as [[He Hall]|[k Hrej]].
    2:{ destruct (Hanswers (pollTime k (Clock.now clock))) as [answer Ha]. congruence. }
    subst e. split.
    + split.
      * intros (receipt & c & [=]).
      * intros (k & Hlt & Hc). unfold polled in *.
        rewrite Hall in Hc by exact Hlt. discriminate.
    + intros _. eauto.
Qed.

End ConfirmationWait.

(** ** A reverted deployment is reported as deployed *)

(** C3.  The confirmation wait does not look at the status of the receipt.
    The deployment transaction of this ledger is mined after three seconds
    and reverts (status 0); twelve seconds later it has the two confirmations
    asked for.  [waitForConfirmation] returns that receipt, and
    [deployBinaryMarketContract] reports a successful deployment, where the
    specification asks for a failure.  [validateTransaction] of the deployment
    validator does reject the same receipt. *)
Theorem waitForConfirmation_accepts_reverted_receipt :
  let chain := healthyChain 0 in
  let start := Clock.at_time sampleStart in
  exists receipt clock' result,
    BlockchainDeployment.waitForConfirmation sampleDeploymentConfig chain "0xa1b2" start
      = (Ok receipt, clock') /\
    BlockchainDeployment.r_status receipt = 0 /\
    BlockchainDeployment.r_confirmations receipt = 2 /\
    Clock.now clock' - sampleStart = 15000 /\
    BlockchainDeployment.deployBinaryMarketContract sampleDeploymentConfig chain
      sampleMarketParams start = (Ok result, clock') /\
    BlockchainDeployment.confirmations result = 2 /\
    DeploymentValidator.errors
      (DeploymentValidator.validateTransaction (Ok (Some "0xa1b2"))
         (Ok (Some receipt)) None (fun _ => ""))
      = ["Transaction failed (status = 0)"].
Proof.
  cbn zeta. eexists _, _, _.
  split; [vm_compute; reflexivity|].
  split; [reflexivity|]. split; [reflexivity|]. split; [reflexivity|].
  split; [vm_compute; reflexivity|].
  split; [reflexivity|]. vm_compute. reflexivity.
Qed.

(** ** Vault fees *)

(** C8.  A vault with a performance fee of 60% and a management fee of 60%
    passes [validateCopyTradingVaultParams], which bounds each fee by 100 on
    its own: the deployment is submitted and confirmed.  The [deployVault]
    mutation of the router refuses the same fees, their sum exceeding 100. *)
Theorem deployCopyTradingVaultContract_accepts_fees_above_100 :
  let chain := healthyChain 1 in
  let start := Clock.at_time sampleStart in
  SFltb (JsNumber.Number 100)
    (SFadd JsNumber.prec JsNumber.emax
       (BlockchainDeployment.performanceFee greedyVaultParams)
       (BlockchainDeployment.managementFee greedyVaultParams)) = true /\
  BlockchainDeployment.validateCopyTradingVaultParams chain greedyVaultParams = Ok tt /\
  (exists result clock',
      BlockchainDeployment.deployCopyTradingVaultContract sampleDeploymentConfig chain
        greedyVaultParams start = (Ok result, clock') /\
      BlockchainDeployment.transactionHash result = "0xa1b2") /\
  DeployRouter.deployVault true
    {| DeployRouter.name := "Alpha vault";
       DeployRouter.performanceFee := JsNumber.Number 60;
       DeployRouter.managementFee := JsNumber.Number 60 |} sampleStart
    = Throw "Failed to deploy vault: Total fees cannot exceed 100%".
Proof.
  cbn zeta. split; [vm_compute; reflexivity|].
  split; [vm_compute; reflexivity|]. split.
  - eexists _, _. split; [vm_compute; reflexivity|]. reflexivity.
  - vm_compute. reflexivity.
Qed.

(** ** Fee quotes *)

Section FeeQuotes.
Import JsNumber GasManager.

(** A number that is not negative: a zero, a positive finite number or
    +Infinity; NaN, which no comparison calls negative, is let through. *)
Definition notNegative (x : number) : Prop :=
  match x with
  | S754_finite s _ _ => s = false
  | S754_infinity s => s = false
  | _ => True
  end.

Lemma binary_round_aux_sign s m e l :
  match binary_round_aux prec emax s m e l with
  | S754_finite s' _ _ => s' = s
  | S754_infinity s' => s' = s
  | _ => True
  end.
Proof.
  unfold binary_round_aux.
  destruct (shr_fexp prec emax m e l) as [mrs' e'].
  destruct (shr_fexp prec emax _ e' loc_Exact) as [mrs'' e''].
  destruct (shr_m mrs''); [exact I| |exact I].
  destruct (e'' <=? emax - prec)%Z; reflexivity.
Qed.

Lemma Number_notNegative v : 0 <= v -> notNegative (Number v).
Proof.
  intros H. unfold Number, binary_normalize.
  destruct v as [|p|p]; [exact I| |lia].
  unfold binary_round.
  destruct (shl_align p 0 _) as [mz ez].
  pose proof (binary_round_aux_sign false (Zpos mz) ez loc_Exact) as S.
  unfold notNegative.
  destruct (binary_round_aux prec emax false (Zpos mz) ez loc_Exact); auto.
Qed.

Lemma mul_notNegative x y : notNegative x -> notNegative y -> notNegative (mul x y).
Proof.
  unfold mul, SFmul, notNegative.
  destruct x as [sx|sx| |sx mx ex], y as [sy|sy| |sy my ey]; try exact (fun _ _ => I);
    try (intros -> ->; reflexivity); try (intros _ ->; reflexivity);
    try (intros -> _; reflexivity).
  intros -> ->. cbn [xorb].
  pose proof (binary_round_aux_sign false (Zpos (mx * my)) (ex + ey) loc_Exact) as S.
  destruct (binary_round_aux prec emax false (Zpos (mx * my)) (ex + ey) loc_Exact); auto.
Qed.

Lemma ceil_shift_nonneg m e : 0 <= m -> 0 <= ceil_shift m e.
Proof.
  intros H. unfold ceil_shift.
  assert (0 <= 2 ^ (- e)) by (apply Z.pow_nonneg; lia).
  destruct (Z.eq_dec (2 ^ (- e)) 0) as [E|E].
  - rewrite E, Z.div_0_r. lia.
  - assert (- m / 2 ^ (- e) <= 0); [|lia].
    apply Z.div_le_upper_bound; lia.
Qed.

Lemma Math_ceil_notNegative x : notNegative x -> notNegative (Math_ceil x).
Proof.
  destruct x as [s|s| |s m e]; cbn; auto.
  intros ->. destruct (0 <=? e); [reflexivity|]. cbn [cond_Zopp].
  pose proof (ceil_shift_nonneg (Zpos m) e ltac:(lia)).
  destruct (ceil_shift (Zpos m) e); [exact I | reflexivity | lia].
Qed.

Lemma BigInt_notNegative x v : notNegative x -> BigInt x = Ok v -> 0 <= v.
Proof.
  destruct x as [s|s| |s m e]; cbn; try discriminate.
  - intros _ [= <-]. lia.
  - intros ->. cbn [cond_Zopp].
    destruct (0 <=? e).
    + intros [= <-]. apply Z.mul_nonneg_nonneg; [lia|]. apply Z.pow_nonneg. lia.
    + destruct (Zpos m mod 2 ^ (- e) =? 0); [|discriminate].
      intros [= <-]. apply Z_div_nonneg_nonneg; [lia|].
      apply Z.pow_nonneg. lia.
Qed.

(** [m > 0], as JavaScript compares. *)
Definition positiveNumber (m : number) : Prop := SFltb (S754_zero false) m = true.

Lemma positiveNumber_notNegative m : positiveNumber m -> notNegative m.
Proof.
  unfold positiveNumber, SFltb, SFcompare, notNegative.
  destruct m as [s|[|]| |[|] mm e]; try discriminate; auto.
Qed.

Lemma applyMultiplier_nonneg value multiplier r :
  0 <= value -> positiveNumber multiplier ->
  applyMultiplier value multiplier = Ok r -> 0 <= r.
Proof.
  intros Hv Hm. unfold applyMultiplier.
  apply BigInt_notNegative, Math_ceil_notNegative, mul_notNegative.
  - apply Number_notNegative, Hv.
  - apply positiveNumber_notNegative, Hm.
Qed.

(** The provider reports no negative price, fee or gas amount. *)
Definition providerNotNegative (provider : Provider) : Prop :=
  (forall p, getGasPrice_rpc provider = Ok p -> 0 <= p) /\
  (forall fd, getFeeData_rpc provider = Ok fd ->
     (forall v, fd_maxFeePerGas fd = Some v -> 0 <= v) /\
     (forall v, fd_maxPriorityFeePerGas fd = Some v -> 0 <= v)) /\
  (forall g, estimateGas_rpc provider = Ok g -> 0 <= g).

Lemma estimateGas_fields provider config fmt q :
  estimateGas provider config fmt = Ok q ->
  exists fees,
    estimateTransactionGas provider config = Ok (gasLimit q) /\
    getEIP1559Fees provider config = Ok fees /\
    getGasPrice provider config = Ok (gasPrice q) /\
    maxFeePerGas q = fst fees /\ maxPriorityFeePerGas q = snd fees /\
    totalCost q = gasLimit q * fst fees.
Proof.
  unfold estimateGas.
  destruct (estimateTransactionGas provider config) as [gl|]; [|discriminate].
  cbn [bind].
  destruct (getEIP1559Fees provider config) as [fees|]; [|discriminate].
  cbn [bind].
  destruct (getGasPrice provider config) as [gp|]; [|discriminate].
  cbn [bind]. intros [= <-]. exists fees. cbn. repeat split.
Qed.

(** C6 (as the code has it).  Every quote of the estimator has
    [totalCost = gasLimit * maxFeePerGas]; that is
    [gasLimit * max(gasPrice, maxFeePerGas)] whenever the legacy gas price
    does not exceed [maxFeePerGas].  With multipliers above zero and a
    provider that reports no negative amount, all five fee fields are
    non-negative. *)
Theorem estimateGas_quote_invariant :
  forall (provider : Provider) (config : GasConfig) (fmt : Z -> number)
         (q : GasEstimate),
    estimateGas provider config fmt = Ok q ->
    totalCost q = gasLimit q * maxFeePerGas q /\
    (gasPrice q <= maxFeePerGas q ->
       totalCost q = gasLimit q * Z.max (gasPrice q) (maxFeePerGas q)) /\
    (positiveNumber (priceMultiplier config) ->
     positiveNumber (limitMultiplier config) ->
     providerNotNegative provider ->
       0 <= gasLimit q /\ 0 <= gasPrice q /\ 0 <= maxFeePerGas q /\
       0 <= maxPriorityFeePerGas q /\ 0 <= totalCost q).
Proof.
  intros provider config fmt q H.
  destruct (estimateGas_fields provider config fmt q H)
    as (fees & Hgl & Hfees & Hgp & Hmf & Hmp & Htc).
  assert (T : totalCost q = gasLimit q * maxFeePerGas q) by (rewrite Hmf; exact Htc).
  split; [exact T|]. split.
  { intros Hle. rewrite Z.max_r by exact Hle. exact T. }
  intros Pm Lm (Pgp & Pfd & Pgas).
  assert (G : 0 <= gasLimit q).
  { revert Hgl. unfold estimateTransactionGas.
    destruct (estimateGas_rpc provider) as [g|] eqn:Eg; cbn [bind try_catch].
    - destruct (applyMultiplier g (limitMultiplier config)) as [r|] eqn:Er; cbn.
      + intros [= <-]. eapply applyMultiplier_nonneg; [|exact Lm|exact Er].
        apply Pgas. reflexivity.
      + intros [= <-]. lia.
    - intros [= <-]. lia. }
  assert (P : 0 <= gasPrice q).
  { revert Hgp. unfold getGasPrice.
    destruct (getGasPrice_rpc provider) as [p|] eqn:Ep; cbn [bind]; [|discriminate].
    intros Er. eapply applyMultiplier_nonneg; [|exact Pm|exact Er].
    apply Pgp. reflexivity. }
  assert (F : 0 <= fst fees /\ 0 <= snd fees).
  { revert Hfees. unfold getEIP1559Fees.
    destruct (getFeeData_rpc provider) as [fd|] eqn:Ef; cbn [bind]; [|discriminate].
    destruct (Pfd fd eq_refl) as [Pmf Pmp].
    destruct (fd_maxFeePerGas fd) as [mf|]; [|discriminate].
    destruct (fd_maxPriorityFeePerGas fd) as [mp|]; [|discriminate].
    destruct (falsy (Some mf) || falsy (Some mp)); [discriminate|].
    destruct (applyMultiplier mf (priceMultiplier config)) as [a|] eqn:Ea;
      cbn [bind]; [|discriminate].
    destruct (applyMultiplier mp (priceMultiplier config)) as [b|] eqn:Eb;
      cbn [bind]; [|discriminate].
    intros [= <-]. cbn [fst snd]. split.
    - eapply applyMultiplier_nonneg; [|exact Pm|exact Ea]. apply Pmf. reflexivity.
    - eapply applyMultiplier_nonneg; [|exact Pm|exact Eb]. apply Pmp. reflexivity. }
  destruct F as [F1 F2].
  rewrite Hmf, Hmp, Htc. repeat split; try assumption.
  apply Z.mul_nonneg_nonneg; assumption.
Qed.

End FeeQuotes.

Lemma estimateGas_quote_invariant_witness :
  exists q,
    GasManager.estimateGas sampleProvider GasManager.testConfig etherNumber = Ok q /\
    GasManager.gasLimit q = 130000 /\
    GasManager.maxFeePerGas q = 36000000000 /\
    GasManager.totalCost q = GasManager.gasLimit q * GasManager.maxFeePerGas q /\
    0 <= GasManager.gasPrice q.
Proof.
  eexists. split; [vm_compute; reflexivity|].
  split; [reflexivity|]. split; [reflexivity|].
  destruct (estimateGas_quote_invariant sampleProvider GasManager.testConfig etherNumber _
              ltac:(vm_compute; reflexivity)) as (T & _ & N).
  split; [exact T|].
  destruct N as (_ & P & _).
  - vm_compute. reflexivity.
  - vm_compute. reflexivity.
  - unfold providerNotNegative, sampleProvider. cbn.
    split; [intros p [= <-]; lia|].
    split; [intros fd [= <-]; cbn; split; intros v [= <-]; lia
           | intros g [= <-]; lia].
  - exact P.
Defined.

(** A provider whose legacy gas price (50 Gwei) is above its
    [maxFeePerGas] (30 Gwei). *)
Definition legacyHeavyProvider : GasManager.Provider :=
  {| GasManager.getGasPrice_rpc := Ok 50000000000;
     GasManager.getFeeData_rpc :=
       Ok {| GasManager.fd_maxFeePerGas := Some 30000000000;
             GasManager.fd_maxPriorityFeePerGas := Some 2000000000 |};
     GasManager.estimateGas_rpc := Ok 100000 |}.

(** The quote for that provider: [gasPrice] is 60 Gwei, [maxFeePerGas] is 36
    Gwei, and [totalCost] is [gasLimit * 36 Gwei], not [gasLimit * 60 Gwei]. *)
Lemma estimateGas_totalCost_counterexample :
  exists q,
    GasManager.estimateGas legacyHeavyProvider GasManager.testConfig etherNumber = Ok q /\
    GasManager.gasPrice q = 60000000000 /\
    GasManager.maxFeePerGas q = 36000000000 /\
    GasManager.totalCost q = 4680000000000000 /\
    GasManager.totalCost q
      <> GasManager.gasLimit q * Z.max (GasManager.gasPrice q) (GasManager.maxFeePerGas q).
Proof.
  eexists. split; [vm_compute; reflexivity|].
  split; [reflexivity|]. split; [reflexivity|]. split; [reflexivity|].
  vm_compute. discriminate.
Qed.

(** ** Gas prices in double arithmetic

    [applyMultiplier] multiplies in IEEE-754 binary64.  The lemmas below
    relate the bit-level rounding of the floating-point specification
    ([shr], [round_nearest_even], [binary_round_aux]) to integer arithmetic:
    a positive value [M * 2^E] rounds to [roundAt M E * 2^E], the nearest
    multiple of the spacing of doubles at its magnitude, ties to even. *)

Section DoubleArithmetic.
Import JsNumber GasManager.

(** digits *)
Lemma digits2_pos_size p : digits2_pos p = Pos.size p.
Proof. induction p; cbn; congruence. Qed.

Lemma Zdigits2_log2 p : Zdigits2 (Zpos p) = Z.log2 (Zpos p) + 1.
Proof.
  cbn [Zdigits2]. rewrite digits2_pos_size.
  destruct p; cbn [Z.log2 Pos.size]; lia.
Qed.

Lemma Zdigits2_bounds p :
  2 ^ (Zdigits2 (Zpos p) - 1) <= Zpos p < 2 ^ (Zdigits2 (Zpos p)).
Proof.
  rewrite Zdigits2_log2.
  replace (Z.log2 (Zpos p) + 1 - 1) with (Z.log2 (Zpos p)) by lia.
  pose proof (Z.log2_spec (Zpos p) ltac:(lia)) as H.
  replace (Z.log2 (Zpos p) + 1) with (Z.succ (Z.log2 (Zpos p))) by lia.
  exact H.
Qed.

Lemma Zdigits2_pos_pos p : 1 <= Zdigits2 (Zpos p).
Proof. rewrite Zdigits2_log2. pose proof (Z.log2_nonneg (Zpos p)). lia. Qed.

(** digits of a positive integer is characterised by its bounds *)
Lemma Zdigits2_unique p d :
  2 ^ (d - 1) <= Zpos p < 2 ^ d -> Zdigits2 (Zpos p) = d.
Proof.
  intros H. rewrite Zdigits2_log2.
  assert (0 < d).
  { destruct (Z.lt_ge_cases 0 d); [assumption|].
    destruct H as [_ H]. 
    assert (2 ^ d <= 1).
    { destruct (Z.eq_dec d 0) as [->|]; [cbn; lia|]. rewrite Z.pow_neg_r by lia. lia. }
    lia. }
  assert (Z.log2 (Zpos p) = d - 1); [|lia].
  apply Z.log2_unique; [lia|].
  replace (Z.succ (d - 1)) with d by lia. exact H.
Qed.

Lemma Zdigits2_mono p q : (Zpos p <= Zpos q) -> Zdigits2 (Zpos p) <= Zdigits2 (Zpos q).
Proof.
  intros H. rewrite !Zdigits2_log2. apply Z.log2_le_mono in H. lia.
Qed.

Lemma shr_1_spec m r s :
  0 <= m ->
  shr_1 (Build_shr_record m r s) = Build_shr_record (m / 2) (Z.odd m) (r || s).
Proof.
  intros H. rewrite <- Z.div2_div.
  destruct m as [|[p|p|]|]; try lia; reflexivity.
Qed.

(** The record after [k] right shifts of [M], started without remainder. *)
Definition shrState (M k : Z) : shr_record :=
  if k <=? 0 then Build_shr_record M false false
  else Build_shr_record (M / 2 ^ k)
         (2 ^ (k - 1) <=? M mod 2 ^ k)
         (negb (M mod 2 ^ k =? 0) && negb (M mod 2 ^ k =? 2 ^ (k - 1))).

Lemma split_bit M k :
  0 <= M -> 0 <= k ->
  exists q b rem,
    0 <= q /\ (b = 0 \/ b = 1) /\ 0 <= rem < 2 ^ k /\
    M / 2 ^ k = 2 * q + b /\ M mod 2 ^ k = rem /\
    M / 2 ^ (k + 1) = q /\ M mod 2 ^ (k + 1) = b * 2 ^ k + rem.
Proof.
  intros HM Hk.
  assert (P : 0 < 2 ^ k) by (apply Z.pow_pos_nonneg; lia).
  pose proof (Z.div_mod M (2 ^ k) ltac:(lia)) as D1.
  pose proof (Z.mod_pos_bound M (2 ^ k) P) as B1.
  assert (0 <= M / 2 ^ k) by (apply Z.div_pos; lia).
  pose proof (Z.div_mod (M / 2 ^ k) 2 ltac:(lia)) as D2.
  pose proof (Z.mod_pos_bound (M / 2 ^ k) 2 ltac:(lia)) as B2.
  exists (M / 2 ^ k / 2), ((M / 2 ^ k) mod 2), (M mod 2 ^ k).
  assert (0 <= M / 2 ^ k / 2) by (apply Z.div_pos; lia).
  assert (E : 2 ^ (k + 1) = 2 ^ k * 2) by (rewrite Z.pow_add_r by lia; reflexivity).
  repeat split; try lia.
  - rewrite E, Z.div_div by lia. reflexivity.
  - rewrite E. symmetry.
    apply Z.mod_unique with (q := M / 2 ^ k / 2); [left; nia | nia].
Qed.

Lemma half_div q b : (b = 0 \/ b = 1) -> (2 * q + b) / 2 = q.
Proof. intros H. symmetry. apply Z.div_unique with (r := b); lia. Qed.

Lemma half_odd q b : (b = 0 \/ b = 1) -> Z.odd (2 * q + b) = (b =? 1).
Proof.
  intros H. rewrite Z.add_comm, Z.odd_add_mul_2.
  destruct H; subst b; reflexivity.
Qed.

Ltac bool_cases :=
  repeat (match goal with
          | |- context [?a <=? ?b] => destruct (Z.leb_spec a b)
          | |- context [?a =? ?b] => destruct (Z.eqb_spec a b)
          | |- context [?a <? ?b] => destruct (Z.ltb_spec a b)
          end); cbn; try reflexivity; try lia.

Lemma shr_1_state M k :
  0 <= M -> 0 <= k -> shr_1 (shrState M k) = shrState M (k + 1).
Proof.
  intros HM Hk.
  destruct (split_bit M k HM Hk) as (q & b & rem & Hq & Hb & Hrem & Ediv & Emod & Ediv' & Emod').
  assert (P : 0 < 2 ^ k) by (apply Z.pow_pos_nonneg; lia).
  unfold shrState at 2.
  destruct (k + 1 <=? 0) eqn:K1; [apply Z.leb_le in K1; lia|].
  replace (k + 1 - 1) with k by lia.
  rewrite Ediv', Emod'.
  unfold shrState.
  destruct (k <=? 0) eqn:K0.
  - apply Z.leb_le in K0. assert (k = 0) by lia. subst k.
    change (2 ^ 0) with 1 in *. rewrite Z.div_1_r in Ediv.
    assert (R0 : rem = 0) by lia. rewrite R0 in *. clear R0.
    rewrite shr_1_spec by lia. f_equal.
    + rewrite Ediv. apply half_div, Hb.
    + rewrite Ediv, half_odd by exact Hb.
      destruct Hb as [-> | ->]; reflexivity.
    + destruct Hb as [-> | ->]; reflexivity.
  - apply Z.leb_gt in K0.
    assert (Hh : 2 ^ k = 2 * 2 ^ (k - 1)).
    { replace k with (1 + (k - 1)) at 1 by lia. rewrite Z.pow_add_r by lia. reflexivity. }
    assert (0 < 2 ^ (k - 1)) by (apply Z.pow_pos_nonneg; lia).
    rewrite shr_1_spec by (apply Z.div_pos; lia).
    rewrite Emod, Ediv. f_equal.
    + apply half_div, Hb.
    + rewrite half_odd by exact Hb.
      destruct Hb; subst b; cbn [Z.eqb]; symmetry.
      * apply Z.leb_gt. lia.
      * apply Z.leb_le. lia.
    + destruct Hb as [-> | ->]; bool_cases.
Qed.

Lemma iter_pos_shr M : 0 <= M ->
  forall p k, 0 <= k -> SpecFloat.iter_pos shr_1 p (shrState M k) = shrState M (k + Zpos p).
Proof.
  intros HM. induction p as [p IH|p IH|]; intros k Hk; cbn [SpecFloat.iter_pos].
  - rewrite shr_1_state, IH, IH by lia. f_equal. lia.
  - rewrite IH, IH by lia. f_equal. lia.
  - apply shr_1_state; assumption.
Qed.

Lemma shr_spec M E n :
  0 <= M ->
  shr (Build_shr_record M false false) E n = (shrState M (Z.max 0 n), E + Z.max 0 n).
Proof.
  intros HM. unfold shr. destruct n as [|p|p].
  - cbn. rewrite Z.add_0_r. reflexivity.
  - change (Build_shr_record M false false) with (shrState M 0).
    rewrite iter_pos_shr by lia. rewrite Z.max_r by lia. reflexivity.
  - rewrite Z.max_l by lia. rewrite Z.add_0_r. reflexivity.
Qed.

Lemma shr_fexp_spec M E :
  0 <= M ->
  shr_fexp prec emax M E loc_Exact =
    (shrState M (Z.max 0 (fexp prec emax (Zdigits2 M + E) - E)),
     E + Z.max 0 (fexp prec emax (Zdigits2 M + E) - E)).
Proof. intros HM. unfold shr_fexp. cbn [shr_record_of_loc]. apply shr_spec, HM. Qed.

(** [M / 2^k] rounded to the nearest integer, ties to even. *)
Definition rneZ (M k : Z) : Z :=
  if k <=? 0 then M
  else
    let q := M / 2 ^ k in
    let rem := M mod 2 ^ k in
    let half := 2 ^ (k - 1) in
    if rem <? half then q
    else if rem =? half then (if Z.even q then q else q + 1)
    else q + 1.

Lemma round_state M k :
  0 <= M ->
  round_nearest_even (shr_m (shrState M k)) (loc_of_shr_record (shrState M k))
    = rneZ M k.
Proof.
  intros HM. unfold shrState, rneZ.
  destruct (k <=? 0) eqn:K; [reflexivity|]. apply Z.leb_gt in K.
  cbn [shr_m loc_of_shr_record].
  assert (0 < 2 ^ (k - 1)) by (apply Z.pow_pos_nonneg; lia).
  pose proof (Z.mod_pos_bound M (2 ^ k) ltac:(apply Z.pow_pos_nonneg; lia)).
  destruct (Z.leb_spec (2 ^ (k - 1)) (M mod 2 ^ k));
    destruct (Z.eqb_spec (M mod 2 ^ k) 0);
    destruct (Z.eqb_spec (M mod 2 ^ k) (2 ^ (k - 1)));
    destruct (Z.ltb_spec (M mod 2 ^ k) (2 ^ (k - 1)));
    cbn; try reflexivity; try lia.
Qed.

Definition gridShift (M E : Z) : Z :=
  Z.max 0 (fexp prec emax (Zdigits2 M + E) - E).

(** The value [M * 2^E] rounded to the nearest double, in units of [2^E]. *)
Definition roundAt (M E : Z) : Z :=
  rneZ M (gridShift M E) * 2 ^ gridShift M E.

Lemma fexp_eq e : fexp prec emax e = Z.max (e - 53) (-1074).
Proof. reflexivity. Qed.

Lemma rneZ_bounds M k :
  0 <= M -> 0 <= k -> M / 2 ^ k <= rneZ M k <= M / 2 ^ k + 1.
Proof.
  intros HM Hk. unfold rneZ.
  destruct (Z.leb_spec k 0).
  - assert (k = 0) by lia. subst k. change (2 ^ 0) with 1. rewrite Z.div_1_r. lia.
  - cbn zeta. bool_cases. destruct (Z.even (M / 2 ^ k)); lia.
Qed.

Lemma rneZ_nonneg M k : 0 <= M -> 0 <= k -> 0 <= rneZ M k.
Proof.
  intros HM Hk. pose proof (rneZ_bounds M k HM Hk).
  assert (0 <= M / 2 ^ k) by (apply Z.div_pos; [lia | apply Z.pow_pos_nonneg; lia]).
  lia.
Qed.

Lemma gridShift_nonneg M E : 0 <= gridShift M E.
Proof. unfold gridShift. lia. Qed.

(** The rounded significand fits 53 bits, or is exactly 2^53. *)
Lemma rneZ_grid_bound p E :
  rneZ (Zpos p) (gridShift (Zpos p) E) <= 2 ^ 53.
Proof.
  pose proof (Zdigits2_bounds p) as [_ Hd].
  pose proof (Zdigits2_pos_pos p) as Hd1.
  set (d := Zdigits2 (Zpos p)) in *.
  set (k := gridShift (Zpos p) E).
  assert (Hk : 0 <= k) by apply gridShift_nonneg.
  assert (Hkd : d - 53 <= k).
  { subst k. unfold gridShift. rewrite fexp_eq. fold d. lia. }
  pose proof (rneZ_bounds (Zpos p) k ltac:(lia) Hk) as [_ Hu].
  assert (Zpos p / 2 ^ k < 2 ^ 53); [|lia].
  apply Z.div_lt_upper_bound; [apply Z.pow_pos_nonneg; lia|].
  rewrite <- Z.pow_add_r by lia.
  eapply Z.lt_le_trans; [exact Hd|].
  apply Z.pow_le_mono_r; lia.
Qed.

Lemma rneZ_no_shift_bound p E :
  gridShift (Zpos p) E = 0 -> Zpos p < 2 ^ 53.
Proof.
  intros H.
  pose proof (Zdigits2_bounds p) as [_ Hd].
  unfold gridShift in H. rewrite fexp_eq in H.
  eapply Z.lt_le_trans; [exact Hd|].
  apply Z.pow_le_mono_r; lia.
Qed.

(** [binary_round_aux] on an exact positive significand, in closed form. *)
Definition roundedFloat (M E : Z) : spec_float :=
  let k := gridShift M E in
  match rneZ M k with
  | Z0 => S754_zero false
  | Zpos m' =>
      if Zpos m' =? 2 ^ 53 then
        if E + k + 1 <=? 971 then S754_finite false (2 ^ 52)%positive (E + k + 1)
        else S754_infinity false
      else
        if E + k <=? 971 then S754_finite false m' (E + k)
        else S754_infinity false
  | Zneg _ => S754_nan
  end.

Lemma binary_round_aux_eq p E :
  binary_round_aux prec emax false (Zpos p) E loc_Exact = roundedFloat (Zpos p) E.
Proof.
  unfold binary_round_aux, roundedFloat. rewrite shr_fexp_spec by lia.
  fold (gridShift (Zpos p) E). set (k := gridShift (Zpos p) E).
  assert (Hk : 0 <= k) by apply gridShift_nonneg.
  rewrite round_state by lia.
  pose proof (rneZ_nonneg (Zpos p) k ltac:(lia) Hk) as Hnn.
  pose proof (rneZ_grid_bound p E) as Hub. fold k in Hub.
  assert (Hemin : -1074 <= E + k).
  { subst k. unfold gridShift. rewrite fexp_eq. lia. }
  set (M' := rneZ (Zpos p) k) in *.
  rewrite shr_fexp_spec by lia.
  destruct M' as [|p'|p'] eqn:EM'; [| |lia].
  - cbn [Zdigits2]. rewrite fexp_eq.
    replace (Z.max 0 (Z.max (0 + (E + k) - 53) (-1074) - (E + k))) with 0 by lia.
    reflexivity.
  - pose proof (Zdigits2_bounds p') as [Hlo Hhi].
    pose proof (Zdigits2_pos_pos p') as Hd1.
    rewrite fexp_eq.
    destruct (Z.eqb_spec (Zpos p') (2 ^ 53)) as [Etop|Ntop].
    + assert (Hd : Zdigits2 (Zpos p') = 54).
      { apply Zdigits2_unique. rewrite Etop. cbn. lia. }
      rewrite Hd.
      replace (Z.max 0 (Z.max (54 + (E + k) - 53) (-1074) - (E + k))) with 1 by lia.
      rewrite Etop. cbn [shrState Z.leb Z.compare shr_m].
      change (2 ^ 53 / 2 ^ 1) with (Zpos (2 ^ 52)%positive).
      cbv iota. reflexivity.
    + assert (Hd : Zdigits2 (Zpos p') <= 53).
      { destruct (Z.le_gt_cases (Zdigits2 (Zpos p')) 53); [assumption|].
        assert (2 ^ 53 <= 2 ^ (Zdigits2 (Zpos p') - 1)) by (apply Z.pow_le_mono_r; lia).
        lia. }
      replace (Z.max 0 (Z.max (Zdigits2 (Zpos p') + (E + k) - 53) (-1074) - (E + k)))
        with 0 by lia.
      cbn [shrState Z.leb Z.compare shr_m]. rewrite Z.add_0_r. reflexivity.
Qed.

Lemma binary_round_aux_spec p E :
  match binary_round_aux prec emax false (Zpos p) E loc_Exact with
  | S754_zero s => s = false /\ roundAt (Zpos p) E = 0
  | S754_finite s m e =>
      s = false /\ E <= e /\ Zpos m * 2 ^ (e - E) = roundAt (Zpos p) E
  | S754_infinity s => s = false /\ 971 <= E + gridShift (Zpos p) E
  | S754_nan => False
  end.
Proof.
  rewrite binary_round_aux_eq. unfold roundedFloat, roundAt.
  set (k := gridShift (Zpos p) E).
  assert (Hk : 0 <= k) by apply gridShift_nonneg.
  pose proof (rneZ_nonneg (Zpos p) k ltac:(lia) Hk) as Hnn.
  destruct (rneZ (Zpos p) k) as [|m'|m'] eqn:EM'; [| |lia].
  - split; reflexivity.
  - destruct (Z.eqb_spec (Zpos m') (2 ^ 53)) as [Etop|Ntop].
    + destruct (Z.leb_spec (E + k + 1) 971).
      * split; [reflexivity|]. split; [lia|].
        replace (E + k + 1 - E) with (1 + k) by lia.
        rewrite Z.pow_add_r, Etop by lia.
        change (2 ^ 53) with (Zpos (2 ^ 52)%positive * 2 ^ 1). ring.
      * split; [reflexivity | lia].
    + destruct (Z.leb_spec (E + k) 971).
      * split; [reflexivity|]. split; [lia|].
        replace (E + k - E) with k by lia. reflexivity.
      * split; [reflexivity | lia].
Qed.

Lemma rneZ_exact Y k : 0 <= k -> rneZ (Y * 2 ^ k) k = Y.
Proof.
  intros Hk. unfold rneZ. destruct (Z.leb_spec k 0).
  - assert (k = 0) by lia. subst k. change (2 ^ 0) with 1. lia.
  - assert (0 < 2 ^ k) by (apply Z.pow_pos_nonneg; lia).
    assert (0 < 2 ^ (k - 1)) by (apply Z.pow_pos_nonneg; lia).
    cbn zeta. rewrite Z.mod_mul, Z.div_mul by lia.
    destruct (Z.ltb_spec 0 (2 ^ (k - 1))); [reflexivity | lia].
Qed.

Lemma rneZ_shift M k s :
  0 <= M -> 0 < k -> 0 <= s -> rneZ (M * 2 ^ s) (k + s) = rneZ M k.
Proof.
  intros HM Hk Hs. unfold rneZ.
  destruct (Z.leb_spec (k + s) 0); [lia|]. destruct (Z.leb_spec k 0); [lia|].
  assert (Ps : 0 < 2 ^ s) by (apply Z.pow_pos_nonneg; lia).
  assert (Pk : 0 < 2 ^ k) by (apply Z.pow_pos_nonneg; lia).
  assert (Ph : 0 < 2 ^ (k - 1)) by (apply Z.pow_pos_nonneg; lia).
  cbn zeta.
  replace (k + s - 1) with ((k - 1) + s) by lia.
  rewrite !Z.pow_add_r by lia.
  rewrite Z.div_mul_cancel_r by lia.
  rewrite Z.mul_mod_distr_r by lia.
  pose proof (Z.mod_pos_bound M (2 ^ k) Pk).
  destruct (Z.ltb_spec (M mod 2 ^ k * 2 ^ s) (2 ^ (k - 1) * 2 ^ s));
    destruct (Z.ltb_spec (M mod 2 ^ k) (2 ^ (k - 1))); try reflexivity; try nia.
  destruct (Z.eqb_spec (M mod 2 ^ k * 2 ^ s) (2 ^ (k - 1) * 2 ^ s));
    destruct (Z.eqb_spec (M mod 2 ^ k) (2 ^ (k - 1))); try reflexivity; try nia.
Qed.

Lemma rneZ_mono M1 M2 k :
  0 <= M1 -> M1 <= M2 -> 0 <= k -> rneZ M1 k <= rneZ M2 k.
Proof.
  intros H1 H12 Hk. unfold rneZ. destruct (Z.leb_spec k 0); [lia|].
  assert (Pk : 0 < 2 ^ k) by (apply Z.pow_pos_nonneg; lia).
  assert (Hh : 2 ^ k = 2 * 2 ^ (k - 1)).
  { replace k with (1 + (k - 1)) at 1 by lia. rewrite Z.pow_add_r by lia. reflexivity. }
  cbn zeta.
  pose proof (Z.div_mod M1 (2 ^ k) ltac:(lia)) as D1.
  pose proof (Z.div_mod M2 (2 ^ k) ltac:(lia)) as D2.
  pose proof (Z.mod_pos_bound M1 (2 ^ k) Pk) as B1.
  pose proof (Z.mod_pos_bound M2 (2 ^ k) Pk) as B2.
  pose proof (Z.div_le_mono M1 M2 (2 ^ k) Pk H12) as Q.
  set (q1 := M1 / 2 ^ k) in *. set (q2 := M2 / 2 ^ k) in *.
  set (r1 := M1 mod 2 ^ k) in *. set (r2 := M2 mod 2 ^ k) in *.
  set (h := 2 ^ (k - 1)) in *.
  destruct (Z.eq_dec q1 q2) as [Eq|Nq].
  - assert (r1 <= r2) by nia. rewrite Eq.
    destruct (Z.ltb_spec r1 h); destruct (Z.ltb_spec r2 h); try lia;
      destruct (Z.eqb_spec r1 h); destruct (Z.eqb_spec r2 h); try lia;
      destruct (Z.even q2); lia.
  - assert (q1 + 1 <= q2) by lia.
    destruct (Z.ltb_spec r1 h); destruct (Z.ltb_spec r2 h); try lia;
      destruct (Z.eqb_spec r1 h); destruct (Z.eqb_spec r2 h); try lia;
      destruct (Z.even q1); destruct (Z.even q2); lia.
Qed.

Lemma Zdigits2_shift p s :
  0 <= s -> Zdigits2 (Zpos p * 2 ^ s) = Zdigits2 (Zpos p) + s.
Proof.
  intros Hs.
  assert (Ps : 0 < 2 ^ s) by (apply Z.pow_pos_nonneg; lia).
  destruct (Zpos p * 2 ^ s) as [|q|q] eqn:E; try lia.
  apply Zdigits2_unique. rewrite <- E.
  pose proof (Zdigits2_bounds p) as [Hlo Hhi].
  pose proof (Zdigits2_pos_pos p).
  replace (Zdigits2 (Zpos p) + s - 1) with (Zdigits2 (Zpos p) - 1 + s) by lia.
  rewrite !Z.pow_add_r by lia. nia.
Qed.

Lemma roundAt_shift p E s :
  0 <= s -> roundAt (Zpos p * 2 ^ s) (E - s) = roundAt (Zpos p) E * 2 ^ s.
Proof.
  intros Hs. unfold roundAt, gridShift.
  rewrite Zdigits2_shift by lia.
  replace (Zdigits2 (Zpos p) + s + (E - s)) with (Zdigits2 (Zpos p) + E) by lia.
  set (g := fexp prec emax (Zdigits2 (Zpos p) + E)).
  assert (Ps : 0 < 2 ^ s) by (apply Z.pow_pos_nonneg; lia).
  destruct (Z.lt_ge_cases 0 (g - E)) as [Hpos|Hneg].
  - rewrite (Z.max_r 0 (g - E)) by lia.
    replace (Z.max 0 (g - (E - s))) with ((g - E) + s) by lia.
    rewrite rneZ_shift by lia. rewrite Z.pow_add_r by lia. ring.
  - rewrite (Z.max_l 0 (g - E)) by lia.
    change (rneZ (Zpos p) 0) with (Zpos p). change (2 ^ 0) with 1.
    set (k' := Z.max 0 (g - (E - s))).
    assert (0 <= k' <= s) by lia.
    replace (Zpos p * 2 ^ s) with (Zpos p * 2 ^ (s - k') * 2 ^ k').
    2:{ rewrite <- Z.mul_assoc, <- Z.pow_add_r by lia. f_equal. f_equal. lia. }
    rewrite rneZ_exact by lia.
    rewrite <- Z.mul_assoc, <- Z.pow_add_r by lia.
    replace (s - k' + k') with s by lia. ring.
Qed.

Lemma gridShift_mono p q E :
  Zpos p <= Zpos q -> gridShift (Zpos p) E <= gridShift (Zpos q) E.
Proof.
  intros H. unfold gridShift. rewrite !fexp_eq.
  pose proof (Zdigits2_mono p q H). lia.
Qed.

(** Rounding to the nearest double is monotone. *)
Lemma roundAt_mono p q E :
  Zpos p <= Zpos q -> roundAt (Zpos p) E <= roundAt (Zpos q) E.
Proof.
  intros H. unfold roundAt.
  pose proof (gridShift_mono p q E H) as Hk.
  pose proof (gridShift_nonneg (Zpos p) E) as Hk1.
  set (k1 := gridShift (Zpos p) E) in *. set (k2 := gridShift (Zpos q) E) in *.
  destruct (Z.eq_dec k1 k2) as [Ek|Nk].
  - rewrite Ek. apply Z.mul_le_mono_nonneg_r; [apply Z.pow_nonneg; lia|].
    apply rneZ_mono; lia.
  - assert (Hlt : k1 < k2) by lia.
    pose proof (Zdigits2_bounds p) as [_ Hp].
    pose proof (Zdigits2_bounds q) as [Hq _].
    pose proof (Zdigits2_pos_pos p). pose proof (Zdigits2_pos_pos q).
    set (d1 := Zdigits2 (Zpos p)) in *. set (d2 := Zdigits2 (Zpos q)) in *.
    assert (Hk2 : k2 = d2 + E - 53 - E /\ d1 < d2).
    { subst k1 k2. unfold gridShift in *. rewrite !fexp_eq in *. fold d1 d2 in Hlt |- *. lia. }
    destruct Hk2 as [Hk2 Hd].
    set (B := 2 ^ (d2 - 1)).
    assert (HB1 : Zpos p <= B).
    { subst B. apply Z.lt_le_incl. eapply Z.lt_le_trans; [exact Hp|].
      apply Z.pow_le_mono_r; lia. }
    assert (HBk : forall k, 0 <= k <= k2 -> rneZ B k * 2 ^ k = B).
    { intros k Hkk. subst B.
      replace (d2 - 1) with ((d2 - 1 - k) + k) by lia.
      rewrite Z.pow_add_r by lia. rewrite rneZ_exact by lia. reflexivity. }
    transitivity B.
    + rewrite <- (HBk k1) by lia.
      apply Z.mul_le_mono_nonneg_r; [apply Z.pow_nonneg; lia|].
      apply rneZ_mono; lia.
    + rewrite <- (HBk k2) at 1 by lia.
      apply Z.mul_le_mono_nonneg_r; [apply Z.pow_nonneg; lia|].
      apply rneZ_mono; subst B; lia.
Qed.

(** [x] is a zero or a positive finite number, and denotes [V * 2^b]. *)
Definition denotes (x : number) (b V : Z) : Prop :=
  match x with
  | S754_zero _ => V = 0
  | S754_finite s m e => s = false /\ b <= e /\ Zpos m * 2 ^ (e - b) = V
  | _ => False
  end.

Definition isInfinity (x : number) : Prop :=
  match x with S754_infinity _ => True | _ => False end.

(** [roundAt] on any positive integer *)
Lemma roundAt_mono_pos X1 X2 E :
  0 < X1 -> X1 <= X2 -> roundAt X1 E <= roundAt X2 E.
Proof.
  intros H1 H2. destruct X1 as [|p|p]; try lia. destruct X2 as [|q|q]; try lia.
  apply roundAt_mono. exact H2.
Qed.

Lemma roundAt_nonneg X E : 0 <= X -> 0 <= roundAt X E.
Proof.
  intros H. unfold roundAt.
  pose proof (gridShift_nonneg X E).
  apply Z.mul_nonneg_nonneg; [apply rneZ_nonneg; lia | apply Z.pow_nonneg; lia].
Qed.

Lemma round_denotes p E b :
  b <= E ->
  let x := binary_round_aux prec emax false (Zpos p) E loc_Exact in
  isInfinity x \/ denotes x b (roundAt (Zpos p * 2 ^ (E - b)) b).
Proof.
  intros Hb x. subst x.
  pose proof (binary_round_aux_spec p E) as S.
  pose proof (roundAt_shift p E (E - b) ltac:(lia)) as Sh.
  replace (E - (E - b)) with b in Sh by lia.
  destruct (binary_round_aux prec emax false (Zpos p) E loc_Exact) as [s|s| |s m e].
  - right. cbn. destruct S as [_ S]. rewrite Sh, S. reflexivity.
  - left. exact I.
  - contradiction.
  - right. destruct S as (Hs & He & Hv). cbn. split; [exact Hs|]. split; [lia|].
    rewrite Sh, <- Hv. replace (e - b) with ((e - E) + (E - b)) by lia.
    rewrite Z.pow_add_r by lia. ring.
Qed.

Lemma iter_xO p d : Zpos (Pos.iter xO p d) = Zpos p * 2 ^ Zpos d.
Proof.
  induction d as [|d IH] using Pos.peano_ind.
  - cbn [Pos.iter]. change (2 ^ 1) with 2. lia.
  - rewrite Pos.iter_succ, Pos2Z.inj_succ, Z.pow_succ_r by lia.
    rewrite Pos2Z.inj_xO, IH. ring.
Qed.

Lemma shl_align_spec mx ex ex' :
  let '(mz, ez) := shl_align mx ex ex' in
  ez = Z.min ex ex' /\ Zpos mz = Zpos mx * 2 ^ (ex - ez).
Proof.
  unfold shl_align. destruct (ex' - ex) as [|d|d] eqn:E.
  - rewrite Z.sub_diag. cbn. lia.
  - rewrite Z.sub_diag. cbn. lia.
  - split; [lia|]. rewrite iter_xO. f_equal. f_equal. lia.
Qed.

(** [Number(p)] for a positive [p], at any base below its exponent. *)
Lemma Number_denotes p :
  exists ez, ez <= 0 /\
    forall b, b <= ez ->
      isInfinity (Number (Zpos p)) \/
      denotes (Number (Zpos p)) b (roundAt (Zpos p * 2 ^ (- b)) b).
Proof.
  unfold Number, binary_normalize, binary_round.
  pose proof (shl_align_spec p 0 (fexp prec emax (Zpos (digits2_pos p) + 0))) as S.
  destruct (shl_align p 0 (fexp prec emax (Zpos (digits2_pos p) + 0))) as [mz ez].
  destruct S as [Hez Hmz]. exists ez. split; [lia|].
  intros b Hb.
  pose proof (round_denotes mz ez b Hb) as R. cbn zeta in R.
  replace (Zpos mz * 2 ^ (ez - b)) with (Zpos p * 2 ^ (- b)) in R; [exact R|].
  rewrite Hmz, <- Z.mul_assoc, <- Z.pow_add_r by lia; f_equal; f_equal; lia.
Qed.

(** The product of a number denoting [V * 2^b] with [mm * 2^em]. *)
Lemma mul_denotes x b V mm em :
  denotes x b V ->
  isInfinity (mul x (S754_finite false mm em)) \/
  denotes (mul x (S754_finite false mm em)) (b + em)
    (if V =? 0 then 0 else roundAt (V * Zpos mm) (b + em)).
Proof.
  destruct x as [s|s| |s m e]; cbn [denotes]; try contradiction.
  - intros ->. right. cbn. reflexivity.
  - intros (-> & He & <-).
    unfold mul, SFmul. cbn [xorb].
    pose proof (round_denotes (m * mm) (e + em) (b + em) ltac:(lia)) as R.
    cbn zeta in R.
    assert (P : 0 < Zpos m * 2 ^ (e - b)).
    { apply Z.mul_pos_pos; [lia | apply Z.pow_pos_nonneg; lia]. }
    destruct (Z.eqb_spec (Zpos m * 2 ^ (e - b)) 0); [lia|].
    replace (Zpos m * 2 ^ (e - b) * Zpos mm)
      with (Zpos (m * mm) * 2 ^ (e + em - (b + em))); [exact R|].
    replace (e + em - (b + em)) with (e - b) by lia.
    rewrite Pos2Z.inj_mul. ring.
Qed.

(** The integer [ceil (W * 2^c)]. *)
Definition ceilAt (c W : Z) : Z :=
  if 0 <=? c then W * 2 ^ c else - ((- W) / 2 ^ (- c)).

Lemma ceilAt_mono c W1 W2 : W1 <= W2 -> ceilAt c W1 <= ceilAt c W2.
Proof.
  intros H. unfold ceilAt. destruct (Z.leb_spec 0 c).
  - apply Z.mul_le_mono_nonneg_r; [apply Z.pow_nonneg; lia | exact H].
  - assert (0 < 2 ^ (- c)) by (apply Z.pow_pos_nonneg; lia).
    assert (- W2 / 2 ^ (- c) <= - W1 / 2 ^ (- c)) by (apply Z.div_le_mono; lia).
    lia.
Qed.

Lemma ceil_denotes x c W :
  denotes x c W -> BigInt (Math_ceil x) = Ok (ceilAt c W).
Proof.
  destruct x as [s|s| |s m e]; cbn [denotes]; try contradiction.
  - intros ->. cbn. unfold ceilAt. destruct (0 <=? c); reflexivity.
  - intros (-> & He & <-). unfold Math_ceil, ceilAt.
    destruct (Z.leb_spec 0 e) as [He0|He0].
    + cbn [BigInt]. destruct (Z.leb_spec 0 e); [|lia]. cbn [cond_Zopp]. f_equal.
      destruct (Z.leb_spec 0 c).
      * rewrite <- Z.mul_assoc, <- Z.pow_add_r by lia; f_equal; f_equal; lia.
      * assert (0 < 2 ^ (- c)) by (apply Z.pow_pos_nonneg; lia).
        replace (Zpos m * 2 ^ (e - c)) with (Zpos m * 2 ^ e * 2 ^ (- c)).
        2:{ rewrite <- Z.mul_assoc, <- Z.pow_add_r by lia; f_equal; f_equal; lia. }
        rewrite <- Z.mul_opp_l, Z.div_mul by lia. lia.
    + destruct (Z.leb_spec 0 c); [lia|].
      cbn [cond_Zopp].
      assert (E : ceil_shift (Zpos m) e = - (- (Zpos m * 2 ^ (e - c)) / 2 ^ (- c))).
      { unfold ceil_shift. f_equal.
        replace (- c) with ((- e) + (e - c)) by lia.
        rewrite Z.pow_add_r by lia.
        rewrite <- Z.mul_opp_l.
        rewrite Z.div_mul_cancel_r; [reflexivity | |];
          apply Z.pow_nonzero; lia. }
      rewrite <- E.
      pose proof (ceil_shift_nonneg (Zpos m) e ltac:(lia)) as Hn.
      destruct (ceil_shift (Zpos m) e) as [|c'|c']; [reflexivity | | lia].
      cbn. f_equal. lia.
Qed.

Lemma ceil_infinity x : isInfinity x -> Js.is_ok (BigInt (Math_ceil x)) = false.
Proof. destruct x; cbn; try contradiction. reflexivity. Qed.

Lemma mul_infinity x mm em :
  isInfinity x -> isInfinity (mul x (S754_finite false mm em)).
Proof. destruct x; cbn; try contradiction. intros _. exact I. Qed.

(** What [applyMultiplier] returns for a positive value and a positive
    finite multiplier [mm * 2^em], at any base [b] below the exponent of
    [Number(value)]: the ceiling of the twice rounded product. *)
Lemma applyMultiplier_denotes p mm em q :
  applyMultiplier (Zpos p) (S754_finite false mm em) = Ok q ->
  exists ez, ez <= 0 /\ forall b, b <= ez ->
    let V := roundAt (Zpos p * 2 ^ (- b)) b in
    q = ceilAt (b + em) (if V =? 0 then 0 else roundAt (V * Zpos mm) (b + em)).
Proof.
  unfold applyMultiplier. intros H.
  destruct (Number_denotes p) as (ez & Hez & HN).
  exists ez. split; [exact Hez|]. intros b Hb. cbn zeta.
  set (V := roundAt (Zpos p * 2 ^ (- b)) b).
  destruct (HN b Hb) as [Inf|Dx].
  { apply (mul_infinity _ mm em), ceil_infinity in Inf. rewrite H in Inf. discriminate. }
  fold V in Dx.
  destruct (mul_denotes _ _ _ mm em Dx) as [Inf|Dy].
  { apply ceil_infinity in Inf. rewrite H in Inf. discriminate. }
  apply ceil_denotes in Dy. rewrite H in Dy. congruence.
Qed.

Lemma applyMultiplier_zero mm em :
  applyMultiplier 0 (S754_finite false mm em) = Ok 0.
Proof. reflexivity. Qed.

Lemma applyMultiplier_denotes_base ez1 ez2 :
  exists b, b <= ez1 /\ b <= ez2 /\ (ez1 <= 0 -> b <= 0).
Proof. exists (Z.min ez1 ez2). lia. Qed.

Lemma applyMultiplier_monotone p1 p2 mm em q1 q2 :
  0 <= p1 <= p2 ->
  applyMultiplier p1 (S754_finite false mm em) = Ok q1 ->
  applyMultiplier p2 (S754_finite false mm em) = Ok q2 ->
  q1 <= q2.
Proof.
  intros [H1 H12] A1 A2.
  assert (Pm : positiveNumber (S754_finite false mm em)) by reflexivity.
  destruct p1 as [|a|a]; [| |lia].
  - rewrite applyMultiplier_zero in A1. injection A1 as <-.
    eapply applyMultiplier_nonneg; [|exact Pm|exact A2]. lia.
  - destruct p2 as [|c|c]; try lia.
    destruct (applyMultiplier_denotes a mm em q1 A1) as (ez1 & Hz1 & D1).
    destruct (applyMultiplier_denotes c mm em q2 A2) as (ez2 & Hz2 & D2).
    destruct (applyMultiplier_denotes_base ez1 ez2) as (b & Hb1 & Hb2 & Hb0).
    specialize (D1 b Hb1). specialize (D2 b Hb2). cbn zeta in D1, D2.
    specialize (Hb0 Hz1).
    assert (Pb : 0 < 2 ^ (- b)) by (apply Z.pow_pos_nonneg; lia).
    set (V1 := roundAt (Zpos a * 2 ^ (- b)) b) in *.
    set (V2 := roundAt (Zpos c * 2 ^ (- b)) b) in *.
    assert (HV : V1 <= V2).
    { apply roundAt_mono_pos; [lia | nia]. }
    assert (HV1 : 0 <= V1) by (apply roundAt_nonneg; lia).
    rewrite D1, D2. apply ceilAt_mono.
    destruct (Z.eqb_spec V1 0) as [E1|N1].
    + destruct (Z.eqb_spec V2 0); [lia|]. apply roundAt_nonneg. nia.
    + destruct (Z.eqb_spec V2 0); [lia|].
      apply roundAt_mono_pos; nia.
Qed.

Lemma Zdigits2_le p n : 0 <= n -> Zpos p < 2 ^ n -> Zdigits2 (Zpos p) <= n.
Proof.
  intros Hn H. pose proof (Zdigits2_bounds p) as [Hlo _].
  pose proof (Zdigits2_pos_pos p).
  destruct (Z.le_gt_cases (Zdigits2 (Zpos p)) n); [assumption|].
  assert (2 ^ n <= 2 ^ (Zdigits2 (Zpos p) - 1)) by (apply Z.pow_le_mono_r; lia).
  lia.
Qed.

Lemma Zdigits2_mul p q :
  Zdigits2 (Zpos (p * q)) <= Zdigits2 (Zpos p) + Zdigits2 (Zpos q).
Proof.
  pose proof (Zdigits2_bounds p) as [_ Hp]. pose proof (Zdigits2_bounds q) as [_ Hq].
  pose proof (Zdigits2_pos_pos p). pose proof (Zdigits2_pos_pos q).
  apply Zdigits2_le; [lia|].
  rewrite Pos2Z.inj_mul, Z.pow_add_r by lia.
  apply Z.mul_lt_mono_nonneg; lia.
Qed.

(** A bigint below 2^53 converts to a number without rounding. *)
Lemma Number_small p :
  Zpos p < 2 ^ 53 ->
  exists mz,
    Number (Zpos p) = S754_finite false mz (Zdigits2 (Zpos p) - 53) /\
    Zpos mz = Zpos p * 2 ^ (53 - Zdigits2 (Zpos p)).
Proof.
  intros Hp.
  pose proof (Zdigits2_le p 53 ltac:(lia) Hp) as Hd.
  pose proof (Zdigits2_pos_pos p) as Hd1.
  unfold Number, binary_normalize, binary_round.
  pose proof (shl_align_spec p 0 (fexp prec emax (Zpos (digits2_pos p) + 0))) as S.
  destruct (shl_align p 0 (fexp prec emax (Zpos (digits2_pos p) + 0))) as [mz ez].
  destruct S as [Hez Hmz].
  change (Zpos (digits2_pos p)) with (Zdigits2 (Zpos p)) in Hez.
  rewrite fexp_eq in Hez.
  assert (Ez : ez = Zdigits2 (Zpos p) - 53) by lia.
  exists mz. rewrite Ez in *. split.
  2:{ rewrite Hmz. f_equal. f_equal. lia. }
  rewrite binary_round_aux_eq. unfold roundedFloat.
  assert (Dz : Zdigits2 (Zpos mz) = 53).
  { rewrite Hmz. rewrite Zdigits2_shift by lia. lia. }
  assert (K : gridShift (Zpos mz) (Zdigits2 (Zpos p) - 53) = 0).
  { unfold gridShift. rewrite Dz, fexp_eq. lia. }
  rewrite K. change (rneZ (Zpos mz) 0) with (Zpos mz).
  pose proof (Zdigits2_bounds mz) as [_ Hhi]. rewrite Dz in Hhi.
  destruct (Z.eqb_spec (Zpos mz) (2 ^ 53)); [lia|].
  rewrite Z.add_0_r.
  destruct (Z.leb_spec (Zdigits2 (Zpos p) - 53) 971); [reflexivity | lia].
Qed.

Lemma ceilAt_shift c W s : 0 <= s -> ceilAt (c - s) (W * 2 ^ s) = ceilAt c W.
Proof.
  intros Hs. unfold ceilAt.
  assert (Ps : 0 < 2 ^ s) by (apply Z.pow_pos_nonneg; lia).
  destruct (Z.leb_spec 0 (c - s)); destruct (Z.leb_spec 0 c); try lia.
  - rewrite <- Z.mul_assoc, <- Z.pow_add_r by lia; f_equal; f_equal; lia.
  - replace (W * 2 ^ s) with (W * 2 ^ c * 2 ^ (- (c - s))).
    2:{ rewrite <- Z.mul_assoc, <- Z.pow_add_r by lia; f_equal; f_equal; lia. }
    rewrite <- Z.mul_opp_l, Z.div_mul; [lia|].
    apply Z.pow_nonzero; lia.
  - replace (- (c - s)) with ((- c) + s) by lia.
    rewrite Z.pow_add_r by lia. rewrite <- Z.mul_opp_l.
    rewrite Z.div_mul_cancel_r; [reflexivity | apply Z.pow_nonzero; lia | lia].
Qed.

Lemma roundAt_exact p E : gridShift (Zpos p) E = 0 -> roundAt (Zpos p) E = Zpos p.
Proof. intros K. unfold roundAt. rewrite K. cbn. lia. Qed.

(** The outcome of [applyMultiplier] on a value below 2^53: overflow, or the
    ceiling of the product rounded to the nearest double. *)
Lemma applyMultiplier_small p mm em :
  Zpos p < 2 ^ 53 ->
  (Zdigits2 (Zpos mm) + em <= 970 ->
     applyMultiplier (Zpos p) (S754_finite false mm em)
       = Ok (ceilAt em (roundAt (Zpos p * Zpos mm) em))) /\
  (forall q, applyMultiplier (Zpos p) (S754_finite false mm em) = Ok q ->
     q = ceilAt em (roundAt (Zpos p * Zpos mm) em)).
Proof.
  intros Hp.
  destruct (Number_small p Hp) as (mz & EN & Hmz).
  pose proof (Zdigits2_le p 53 ltac:(lia) Hp) as Hd.
  pose proof (Zdigits2_pos_pos p) as Hd1.
  set (d := Zdigits2 (Zpos p)) in *.
  unfold applyMultiplier. rewrite EN. unfold mul, SFmul. cbn [xorb].
  pose proof (round_denotes (mz * mm) (d - 53 + em) (d - 53 + em) ltac:(lia)) as R.
  cbn zeta in R. rewrite Z.sub_diag, Z.mul_1_r in R.
  pose proof (binary_round_aux_spec (mz * mm) (d - 53 + em)) as S.
  assert (EV : roundAt (Zpos (mz * mm)) (d - 53 + em)
               = roundAt (Zpos p * Zpos mm) em * 2 ^ (53 - d)).
  { rewrite Pos2Z.inj_mul, Hmz.
    replace (Zpos p * 2 ^ (53 - d) * Zpos mm) with (Zpos (p * mm) * 2 ^ (53 - d))
      by (rewrite Pos2Z.inj_mul; ring).
    replace (d - 53 + em) with (em - (53 - d)) by lia.
    rewrite roundAt_shift by lia. rewrite Pos2Z.inj_mul. reflexivity. }
  assert (EC : ceilAt (d - 53 + em) (roundAt (Zpos (mz * mm)) (d - 53 + em))
               = ceilAt em (roundAt (Zpos p * Zpos mm) em)).
  { rewrite EV. replace (d - 53 + em) with (em - (53 - d)) by lia.
    apply ceilAt_shift. lia. }
  split.
  - intros Hm.
    destruct R as [Inf|D].
    + exfalso.
      destruct (binary_round_aux prec emax false (Zpos (mz * mm)) (d - 53 + em) loc_Exact);
        try contradiction.
      destruct S as [_ S]. unfold gridShift in S. rewrite fexp_eq in S.
      pose proof (Zdigits2_mul mz mm) as Dm.
      assert (Dz : Zdigits2 (Zpos mz) = 53).
      { rewrite Hmz. rewrite Zdigits2_shift by lia. fold d. lia. }
      pose proof (Zdigits2_pos_pos mm). lia.
    + rewrite (ceil_denotes _ _ _ D). rewrite EC. reflexivity.
  - intros q H.
    destruct R as [Inf|D].
    + apply ceil_infinity in Inf. rewrite H in Inf. discriminate.
    + rewrite (ceil_denotes _ _ _ D) in H. rewrite EC in H. congruence.
Qed.

Lemma roundAt_zero E : roundAt 0 E = 0.
Proof.
  unfold roundAt, rneZ. pose proof (gridShift_nonneg 0 E).
  destruct (Z.leb_spec (gridShift 0 E) 0); [reflexivity|].
  assert (0 < 2 ^ (gridShift 0 E - 1)) by (apply Z.pow_pos_nonneg; lia).
  assert (0 < 2 ^ gridShift 0 E) by (apply Z.pow_pos_nonneg; lia).
  cbn zeta. rewrite Z.mod_0_l, Z.div_0_l by lia.
  destruct (Z.ltb_spec 0 (2 ^ (gridShift 0 E - 1))); [reflexivity | lia].
Qed.

Lemma ceilAt_zero c : ceilAt c 0 = 0.
Proof. unfold ceilAt. destruct (0 <=? c); reflexivity. Qed.

Lemma getGasPrice_applyMultiplier provider config p :
  getGasPrice_rpc provider = Ok p ->
  getGasPrice provider config = applyMultiplier p (priceMultiplier config).
Proof. intros H. unfold getGasPrice. rewrite H. reflexivity. Qed.

(** A multiplier above 1.0 is a positive finite number or +Infinity. *)
Lemma above_one_positive m :
  SFltb (Number 1) m = true ->
  (exists mm em, m = S754_finite false mm em) \/ m = S754_infinity false.
Proof.
  destruct m as [s|[|]| |[|] mm em]; cbn; try discriminate; eauto.
Qed.

(** The ceiling of the rational [p * a / b], for [b > 0]. *)
Definition exactCeiling (p a b : Z) : Z := - ((- (p * a)) / b).

(** C7 (as the code has it).  For a finite positive [priceMultiplier]
    [m = mm * 2^em] (every finite m > 1.0 is one): the quoted gas price is
    the ceiling of the product computed in double arithmetic.  For a base
    price [p < 2^53] and [m < 2^970] the quote is returned and is
    [ceil (rnd (p * m))], [rnd] rounding to the nearest double, ties to even;
    this is the exact [ceil (p * m)] when [p * m] is itself a double, that is
    when [p * mm] fits 53 bits.  The quote is monotonically non-decreasing
    in [p]: for base prices [0 <= p1 <= p2] that are both quoted,
    [quote p1 <= quote p2]. *)
Theorem getGasPrice_ceiling_of_rounded_product :
  forall (config : GasConfig) (mm : positive) (em : Z),
    priceMultiplier config = S754_finite false mm em ->
    (forall provider p,
        getGasPrice_rpc provider = Ok p ->
        0 <= p < 2 ^ 53 ->
        Zdigits2 (Zpos mm) + em <= 970 ->
        getGasPrice provider config
          = Ok (ceilAt em (roundAt (p * Zpos mm) em))) /\
    (forall p,
        0 < p -> Zdigits2 (p * Zpos mm) <= 53 -> -1074 <= em ->
        roundAt (p * Zpos mm) em = p * Zpos mm) /\
    (forall provider1 provider2 p1 p2 q1 q2,
        getGasPrice_rpc provider1 = Ok p1 ->
        getGasPrice_rpc provider2 = Ok p2 ->
        0 <= p1 <= p2 ->
        getGasPrice provider1 config = Ok q1 ->
        getGasPrice provider2 config = Ok q2 ->
        q1 <= q2).
Proof.
  intros config mm em Hm. split; [|split].
  - intros provider p Hp Hr Hd.
    rewrite (getGasPrice_applyMultiplier _ _ _ Hp), Hm.
    destruct p as [|p|p]; [| |lia].
    + rewrite Z.mul_0_l, roundAt_zero, ceilAt_zero. reflexivity.
    + apply (proj1 (applyMultiplier_small p mm em ltac:(lia))). exact Hd.
  - intros p Hp Hd He.
    destruct p as [|p|p]; try lia.
    change (Zpos p * Zpos mm) with (Zpos (p * mm)) in *.
    apply roundAt_exact. unfold gridShift. rewrite fexp_eq. lia.
  - intros provider1 provider2 p1 p2 q1 q2 H1 H2 Hle Q1 Q2.
    rewrite (getGasPrice_applyMultiplier _ _ _ H1), Hm in Q1.
    rewrite (getGasPrice_applyMultiplier _ _ _ H2), Hm in Q2.
    exact (applyMultiplier_monotone p1 p2 mm em q1 q2 Hle Q1 Q2).
Qed.

Definition gasPriceProvider (p : Z) : Provider :=
  {| getGasPrice_rpc := Ok p;
     getFeeData_rpc := Throw "not asked";
     estimateGas_rpc := Throw "not asked" |}.

Definition configWith (m : number) : GasConfig :=
  {| priceMultiplier := m;
     limitMultiplier := decimal 13 10;
     maxGasPriceGwei := Number 500;
     minGasPriceGwei := Number 1;
     ethPriceUSD := Number 2000 |}.

(** The quote is not the exact ceiling.  With the multiplier written 1.1 and
    a base price of 50 the quote is 56, the exact ceiling of 50 * 1.1 being
    55; with a base price of 30 the quote is 33, while the double nearest to
    1.1 is above 1.1 and 30 times it has ceiling 34.  With the multiplier
    1.5, which is a double, and the base price 2^53 + 1 the quote is
    13510798882111488 and the exact ceiling 13510798882111490. *)
Lemma getGasPrice_exact_ceiling_counterexample :
  getGasPrice (gasPriceProvider 50) (configWith (decimal 11 10)) = Ok 56 /\
  exactCeiling 50 11 10 = 55 /\
  decimal 11 10 = S754_finite false 4953959590107546 (-52) /\
  getGasPrice (gasPriceProvider 30) (configWith (decimal 11 10)) = Ok 33 /\
  ceilAt (-52) (30 * 4953959590107546) = 34 /\
  decimal 15 10 = S754_finite false 6755399441055744 (-52) /\
  getGasPrice (gasPriceProvider (2 ^ 53 + 1)) (configWith (decimal 15 10))
    = Ok 13510798882111488 /\
  exactCeiling (2 ^ 53 + 1) 15 10 = 13510798882111490 /\
  ceilAt (-52) ((2 ^ 53 + 1) * 6755399441055744) = 13510798882111490.
Proof. repeat split; vm_compute; reflexivity. Qed.


Lemma getGasPrice_ceiling_of_rounded_product_witness :
  priceMultiplier testConfig = S754_finite false 5404319552844595 (-52) /\
  getGasPrice (gasPriceProvider 20000000000) testConfig
    = Ok (ceilAt (-52) (roundAt (20000000000 * 5404319552844595) (-52))) /\
  ceilAt (-52) (roundAt (20000000000 * 5404319552844595) (-52)) = 24000000000 /\
  (forall q1 q2,
      getGasPrice (gasPriceProvider 20000000000) testConfig = Ok q1 ->
      getGasPrice (gasPriceProvider 20000000001) testConfig = Ok q2 ->
      q1 <= q2).
Proof.
  destruct (getGasPrice_ceiling_of_rounded_product testConfig 5404319552844595 (-52)
              ltac:(vm_compute; reflexivity)) as (Q & _ & M).
  split; [vm_compute; reflexivity|]. split.
  - apply Q; [reflexivity | lia | vm_compute; discriminate].
  - split; [vm_compute; reflexivity|].
    intros q1 q2 H1 H2.
    apply (M (gasPriceProvider 20000000000) (gasPriceProvider 20000000001)
             20000000000 20000000001 q1 q2); try reflexivity; try assumption; lia.
Defined.

End DoubleArithmetic.

(** ** The gas manager: defaults, fall-backs and missing fee data *)

Section GasManagerEdges.
Import JsNumber GasManager.

Lemma orDefault_truthy x d :
  falsyNumber d = false -> falsyNumber (orDefault x d) = false.
Proof.
  intros Hd. unfold orDefault. destruct x as [v|]; [|exact Hd].
  destruct (falsyNumber v) eqn:Hv; [exact Hd | exact Hv].
Qed.

(** What the constructor stores for a setting whose default is [d]: the
    default when the setting is absent, zero or NaN, the setting itself
    otherwise; in no case a falsy number. *)
Definition storedFor (given : option number) (d stored : number) : Prop :=
  (given = None -> stored = d) /\
  (forall v, given = Some v -> falsyNumber v = true -> stored = d) /\
  (forall v, given = Some v -> falsyNumber v = false -> stored = v) /\
  falsyNumber stored = false.

Lemma orDefault_storedFor x d :
  falsyNumber d = false -> storedFor x d (orDefault x d).
Proof.
  intros Hd. unfold storedFor. split; [|split; [|split]].
  - intros ->. reflexivity.
  - intros v -> Hv. cbn. rewrite Hv. reflexivity.
  - intros v -> Hv. cbn. rewrite Hv. reflexivity.
  - apply orDefault_truthy, Hd.
Qed.

(** X1.  The constructor leaves no field of the configuration falsy: for
    each of the five settings, one that is absent, zero or NaN is replaced
    by its default (1.2, 1.3, 500, 1 and 2000 in turn), any other is kept.
    [updateConfig] applies no such defaults: the multiplier it is given is
    stored as it is. *)
Theorem createGasManager_fields_truthy :
  forall partial : PartialGasConfig,
    let config := createGasManager partial in
    storedFor (p_priceMultiplier partial) (decimal 12 10) (priceMultiplier config) /\
    storedFor (p_limitMultiplier partial) (decimal 13 10) (limitMultiplier config) /\
    storedFor (p_maxGasPriceGwei partial) (Number 500) (maxGasPriceGwei config) /\
    storedFor (p_minGasPriceGwei partial) (Number 1) (minGasPriceGwei config) /\
    storedFor (p_ethPriceUSD partial) (Number 2000) (ethPriceUSD config) /\
    (forall current v,
       priceMultiplier (updateConfig
         {| p_priceMultiplier := Some v; p_limitMultiplier := None;
            p_maxGasPriceGwei := None; p_minGasPriceGwei := None;
            p_ethPriceUSD := None |} current) = v).
Proof.
  intros partial config. subst config. unfold createGasManager.
  cbn [priceMultiplier limitMultiplier maxGasPriceGwei minGasPriceGwei ethPriceUSD].
  repeat (split; [apply orDefault_storedFor; vm_compute; reflexivity|]).
  intros current v. reflexivity.
Qed.

(** What [try { return applyMultiplier(await m, limit) } catch { return
    300000n }] resolves to. *)
Lemma estimate_or_default (config : GasConfig) (m : Exc Z) :
  exists g,
    try_catch (let* gasEstimate := m in
               applyMultiplier gasEstimate (limitMultiplier config))
      (fun _ => Ok 300000) = Ok g /\
    (forall e, m = Throw e -> g = 300000) /\
    (forall v, m = Ok v ->
       applyMultiplier v (limitMultiplier config) = Ok g \/
       (Js.is_ok (applyMultiplier v (limitMultiplier config)) = false /\ g = 300000)).
Proof.
  destruct m as [v|e]; cbn [bind].
  - destruct (applyMultiplier v (limitMultiplier config)) as [r|e'] eqn:E; cbn.
    + exists r. split; [reflexivity|]. split; [discriminate|].
      intros v' [= <-]. left. exact E.
    + exists 300000. split; [reflexivity|]. split; [discriminate|].
      intros v' [= <-]. right. rewrite E. split; reflexivity.
  - exists 300000. cbn. split; [reflexivity|]. split; [reflexivity | discriminate].
Qed.

(** X2.  The two gas-limit estimators never reject.  Each resolves to the
    estimate of the provider (or of the contract call) with the limit
    multiplier applied, and to the default 300000 whenever the remote call
    rejects or the multiplied value cannot be converted to a bigint. *)
Theorem estimateTransactionGas_never_rejects :
  forall (provider : Provider) (config : GasConfig) (contractEstimate : Exc Z),
    (exists g,
        estimateTransactionGas provider config = Ok g /\
        (forall e, estimateGas_rpc provider = Throw e -> g = 300000) /\
        (forall v, estimateGas_rpc provider = Ok v ->
           applyMultiplier v (limitMultiplier config) = Ok g \/
           (Js.is_ok (applyMultiplier v (limitMultiplier config)) = false /\ g = 300000))) /\
    (exists g,
        estimateContractGas config contractEstimate = Ok g /\
        (forall e, contractEstimate = Throw e -> g = 300000) /\
        (forall v, contractEstimate = Ok v ->
           applyMultiplier v (limitMultiplier config) = Ok g \/
           (Js.is_ok (applyMultiplier v (limitMultiplier config)) = false /\ g = 300000))).
Proof.
  intros provider config contractEstimate.
  split; [apply (estimate_or_default config (estimateGas_rpc provider))
         | apply (estimate_or_default config contractEstimate)].
Qed.

(** X3.  Without EIP-1559 fee data there is no quote: when the provider
    reports [maxFeePerGas] or [maxPriorityFeePerGas] as null or as 0,
    [getEIP1559Fees] rejects with "Failed to get EIP-1559 fees", and so does
    [estimateGas], whatever the gas estimate and the legacy gas price. *)
Theorem estimateGas_requires_eip1559_fees :
  forall (provider : Provider) (config : GasConfig) (fmt : Z -> number)
         (feeData : FeeData),
    getFeeData_rpc provider = Ok feeData ->
    falsy (fd_maxFeePerGas feeData) || falsy (fd_maxPriorityFeePerGas feeData) = true ->
    getEIP1559Fees provider config = Throw "Failed to get EIP-1559 fees" /\
    estimateGas provider config fmt = Throw "Failed to get EIP-1559 fees".
Proof.
  intros provider config fmt feeData Hfd Hfalsy.
  assert (F : getEIP1559Fees provider config = Throw "Failed to get EIP-1559 fees").
  { unfold getEIP1559Fees. rewrite Hfd. cbn [bind].
    destruct (fd_maxFeePerGas feeData) as [mf|], (fd_maxPriorityFeePerGas feeData) as [mp|];
      try reflexivity.
    rewrite Hfalsy. reflexivity. }
  split; [exact F|].
  unfold estimateGas, estimateTransactionGas.
  destruct (estimate_or_default config (estimateGas_rpc provider)) as (g & -> & _).
  cbn [bind]. rewrite F. reflexivity.
Qed.

End GasManagerEdges.

Definition zeroMultiplierConfig : GasManager.PartialGasConfig :=
  {| GasManager.p_priceMultiplier := Some (S754_zero false);
     GasManager.p_limitMultiplier := None;
     GasManager.p_maxGasPriceGwei := Some (JsNumber.Number 600);
     GasManager.p_minGasPriceGwei := None;
     GasManager.p_ethPriceUSD := Some S754_nan |}.

Lemma createGasManager_fields_truthy_witness :
  let config := GasManager.createGasManager zeroMultiplierConfig in
  GasManager.priceMultiplier config = JsNumber.decimal 12 10 /\
  GasManager.limitMultiplier config = JsNumber.decimal 13 10 /\
  GasManager.maxGasPriceGwei config = JsNumber.Number 600 /\
  GasManager.minGasPriceGwei config = JsNumber.Number 1 /\
  GasManager.ethPriceUSD config = JsNumber.Number 2000.
Proof.
  destruct (createGasManager_fields_truthy zeroMultiplierConfig)
    as ((_ & P & _) & (L & _) & (_ & _ & G & _) & (M & _) & (_ & E & _) & _).
  split; [apply (P (S754_zero false)); reflexivity|].
  split; [apply L; reflexivity|].
  split; [apply (G (JsNumber.Number 600)); reflexivity|].
  split; [apply M; reflexivity|].
  apply (E S754_nan); reflexivity.
Defined.

Lemma estimateTransactionGas_never_rejects_witness :
  GasManager.estimateTransactionGas
    {| GasManager.getGasPrice_rpc := Ok 20000000000;
       GasManager.getFeeData_rpc := Throw "not asked";
       GasManager.estimateGas_rpc := Throw "execution reverted" |}
    GasManager.testConfig = Ok 300000.
Proof.
  destruct (estimateTransactionGas_never_rejects
              {| GasManager.getGasPrice_rpc := Ok 20000000000;
                 GasManager.getFeeData_rpc := Throw "not asked";
                 GasManager.estimateGas_rpc := Throw "execution reverted" |}
              GasManager.testConfig (Ok 0)) as [(g & E & D & _) _].
  rewrite E. f_equal. apply (D "execution reverted"). reflexivity.
Defined.

(** A provider without EIP-1559 support. *)
Definition legacyProvider : GasManager.Provider :=
  {| GasManager.getGasPrice_rpc := Ok 20000000000;
     GasManager.getFeeData_rpc :=
       Ok {| GasManager.fd_maxFeePerGas := None;
             GasManager.fd_maxPriorityFeePerGas := None |};
     GasManager.estimateGas_rpc := Ok 100000 |}.

Lemma estimateGas_requires_eip1559_fees_witness :
  GasManager.getEIP1559Fees legacyProvider GasManager.testConfig
    = Throw "Failed to get EIP-1559 fees" /\
  GasManager.estimateGas legacyProvider GasManager.testConfig etherNumber
    = Throw "Failed to get EIP-1559 fees".
Proof.
  apply (estimateGas_requires_eip1559_fees legacyProvider GasManager.testConfig
           etherNumber
           {| GasManager.fd_maxFeePerGas := None;
              GasManager.fd_maxPriorityFeePerGas := None |});
    reflexivity.
Defined.

(** ** The quote is never below the price of the provider *)

Section QuoteFloor.
Import JsNumber GasManager.

(** The multiplier [mm * 2^em] is at least 1. *)
Definition atLeastOne (mm : positive) (em : Z) : Prop :=
  0 <= em \/ 2 ^ (- em) <= Zpos mm.

Lemma gridShift_small p E :
  Zpos p < 2 ^ 53 -> 0 <= E -> gridShift (Zpos p) E = 0.
Proof.
  intros Hp HE. unfold gridShift. rewrite fexp_eq.
  pose proof (Zdigits2_le p 53 ltac:(lia) Hp). lia.
Qed.

Lemma applyMultiplier_at_least p mm em q :
  atLeastOne mm em -> Zpos p < 2 ^ 53 ->
  applyMultiplier (Zpos p) (S754_finite false mm em) = Ok q ->
  Zpos p <= q.
Proof.
  intros Hm Hp Hq.
  rewrite (proj2 (applyMultiplier_small p mm em Hp) q Hq).
  destruct (Z.le_gt_cases 0 em) as [Hem|Hem].
  - assert (R : Zpos p <= roundAt (Zpos p * Zpos mm) em).
    { rewrite <- (roundAt_exact p em (gridShift_small p em Hp Hem)) at 1.
      apply roundAt_mono_pos; [lia | nia]. }
    unfold ceilAt. destruct (Z.leb_spec 0 em); [|lia].
    assert (0 < 2 ^ em) by (apply Z.pow_pos_nonneg; lia).
    pose proof (roundAt_nonneg (Zpos p * Zpos mm) em ltac:(lia)). nia.
  - destruct Hm as [Hm|Hm]; [lia|].
    assert (E0 : ceilAt em (roundAt (Zpos p * 2 ^ (- em)) em) = Zpos p).
    { pose proof (roundAt_shift p 0 (- em) ltac:(lia)) as E1.
      replace (0 - - em) with em in E1 by lia.
      rewrite E1, (roundAt_exact p 0 (gridShift_small p 0 Hp ltac:(lia))).
      pose proof (ceilAt_shift 0 (Zpos p) (- em) ltac:(lia)) as E2.
      replace (0 - - em) with em in E2 by lia.
      rewrite E2. unfold ceilAt. cbn. lia. }
    rewrite <- E0 at 1. apply ceilAt_mono.
    assert (0 < 2 ^ (- em)) by (apply Z.pow_pos_nonneg; lia).
    apply roundAt_mono_pos; nia.
Qed.

(** X4.  With a price multiplier of at least 1 (a finite double [mm * 2^em])
    the quoted gas price is never below the price the provider reports,
    for every price below 2^53 wei. *)
Theorem getGasPrice_not_below_provider :
  forall (provider : Provider) (config : GasConfig) (mm : positive) (em p q : Z),
    priceMultiplier config = S754_finite false mm em ->
    atLeastOne mm em ->
    getGasPrice_rpc provider = Ok p ->
    0 <= p < 2 ^ 53 ->
    getGasPrice provider config = Ok q ->
    p <= q.
Proof.
  intros provider config mm em p q Hc Hm Hp Hr Hq.
  rewrite (getGasPrice_applyMultiplier _ _ _ Hp), Hc in Hq.
  destruct p as [|p|p]; [| |lia].
  - rewrite applyMultiplier_zero in Hq. injection Hq as <-. lia.
  - exact (applyMultiplier_at_least p mm em q Hm ltac:(lia) Hq).
Qed.

End QuoteFloor.

Lemma getGasPrice_not_below_provider_witness :
  exists q,
    GasManager.getGasPrice sampleProvider GasManager.testConfig = Ok q /\
    20000000000 <= q.
Proof.
  exists 24000000000. split; [vm_compute; reflexivity|].
  apply (getGasPrice_not_below_provider sampleProvider GasManager.testConfig
           5404319552844595 (-52) 20000000000 24000000000).
  - vm_compute. reflexivity.
  - right. vm_compute. discriminate.
  - reflexivity.
  - lia.
  - vm_compute. reflexivity.
Defined.

(** ** The retry wrapper: no attempts allowed, and the time spent waiting *)

Section RetryEdges.
Import BlockchainDeployment.
Context {R : Type}.
Variable cfg : DeploymentConfig.
Variable deployFn : nat -> Exc R.

(** X5.  With [maxRetries <= 0] the wrapper makes no attempt at all: the
    operation is not called, nothing is slept, and the error raised reads
    "... attempts: undefined", there being no underlying error. *)
Theorem retryDeployment_without_attempts :
  forall clock : Clock.t,
    maxRetries cfg <= 0 ->
    retryDeployment cfg deployFn clock =
      (Throw ("Deployment failed after " +:+ pretty (maxRetries cfg)
              +:+ " attempts: undefined"), 0%nat, clock).
Proof.
  intros clock H. unfold retryDeployment.
  rewrite Z2Nat.nonpos by exact H. reflexivity.
Qed.

(** The delays asked of [sleep], added up. *)
Definition totalDelay (delays : list Z) : Z := fold_right Z.add 0 delays.

Lemma totalDelay_app l1 l2 : totalDelay (l1 ++ l2) = totalDelay l1 + totalDelay l2.
Proof.
  unfold totalDelay. induction l1 as [|x l1 IH]; cbn [app fold_right]; [lia|].
  rewrite IH. lia.
Qed.

Lemma totalDelay_delaysFrom d n : forall first,
  totalDelay (delaysFrom d first n)
    = d * (2 ^ Z.of_nat (first + n) - 2 ^ Z.of_nat first).
Proof.
  induction n as [|n IH]; intros first.
  - rewrite Nat.add_0_r. cbn. lia.
  - rewrite delaysFrom_cons. unfold totalDelay. cbn [fold_right].
    fold (totalDelay (delaysFrom d (S first) n)).
    rewrite IH. replace (S first + n)%nat with (first + S n)%nat by lia.
    rewrite (Nat2Z.inj_succ first), Z.pow_succ_r by lia. lia.
Qed.

(** X6.  The time the retry wrapper asks to sleep, for a base delay [d]:
    when attempt [j+1] is the first to succeed the delays add up to
    [d * (2^j - 1)], and when all [n = maxRetries] attempts fail they add up
    to [d * (2^(n-1) - 1)]; with 5 attempts of which none succeeds that is
    15 times the base delay. *)
Theorem retryDeployment_total_backoff :
  forall clock : Clock.t,
    1 <= maxRetries cfg ->
    let n := Z.to_nat (maxRetries cfg) in
    let d := retryDelayMs cfg in
    let clock' := snd (retryDeployment cfg deployFn clock) in
    (forall j r,
        (j < n)%nat ->
        (forall k, (k < j)%nat -> failsAt deployFn k) ->
        deployFn j = Ok r ->
        totalDelay (Clock.slept clock')
          = totalDelay (Clock.slept clock) + d * (2 ^ Z.of_nat j - 1)) /\
    ((forall k, (k < n)%nat -> failsAt deployFn k) ->
        totalDelay (Clock.slept clock')
          = totalDelay (Clock.slept clock) + d * (2 ^ Z.of_nat (n - 1) - 1)) /\
    (maxRetries cfg = 5 -> d * (2 ^ Z.of_nat (n - 1) - 1) = 15 * d).
Proof.
  intros clock Hmax n d clock'.
  assert (K : forall m, Clock.slept clock' = Clock.slept clock ++ backoff d m ->
            totalDelay (Clock.slept clock')
              = totalDelay (Clock.slept clock) + d * (2 ^ Z.of_nat m - 1)).
  { intros m S'. rewrite S', totalDelay_app. unfold backoff.
    rewrite totalDelay_delaysFrom. cbn. reflexivity. }
  split; [|split].
  - intros j r Hj Hf Hr. apply K.
    destruct (retryLoop_succeeds cfg deployFn j n 1 0%nat None clock r)
      as (c & E & S'); [reflexivity | subst n; cbn; lia | exact Hj
                        | intros k Hk; apply Hf; lia | exact Hr |].
    subst clock'. unfold retryDeployment. fold n. rewrite E. exact S'.
  - intros Hf. apply K.
    destruct (retryLoop_exhausted cfg deployFn n 1 0%nat None clock)
      as (c & E & S'); [reflexivity | subst n; cbn; lia | intros k Hk; apply Hf; lia |].
    subst clock'. unfold retryDeployment. fold n. rewrite E. exact S'.
  - intros H5. subst n d. rewrite H5.
    change (2 ^ Z.of_nat (Z.to_nat 5 - 1)) with 16. lia.
Qed.

End RetryEdges.

Lemma retryDeployment_without_attempts_witness :
  BlockchainDeployment.retryDeployment
    {| BlockchainDeployment.timeoutSeconds := 300;
       BlockchainDeployment.confirmationBlocks := 2;
       BlockchainDeployment.maxRetries := 0;
       BlockchainDeployment.retryDelayMs := 1000;
       BlockchainDeployment.gasConfig := GasManager.testConfig |}
    flakyDeploy (Clock.at_time 0)
  = (Throw "Deployment failed after 0 attempts: undefined", 0%nat, Clock.at_time 0).
Proof.
  apply (retryDeployment_without_attempts
           {| BlockchainDeployment.timeoutSeconds := 300;
              BlockchainDeployment.confirmationBlocks := 2;
              BlockchainDeployment.maxRetries := 0;
              BlockchainDeployment.retryDelayMs := 1000;
              BlockchainDeployment.gasConfig := GasManager.testConfig |}
           flakyDeploy (Clock.at_time 0)).
  cbn. lia.
Defined.

Lemma retryDeployment_total_backoff_witness :
  let clock' := snd (BlockchainDeployment.retryDeployment sampleDeploymentConfig
                       flakyDeploy (Clock.at_time sampleStart)) in
  totalDelay (Clock.slept clock') = 3000.
Proof.
  destruct (retryDeployment_total_backoff sampleDeploymentConfig flakyDeploy
              (Clock.at_time sampleStart) ltac:(cbn; lia)) as [H _].
  apply (H 2%nat sampleResult).
  - cbn. lia.
  - intros k Hk. exists "nonce too low".
    destruct k as [|[|k]]; [reflexivity | reflexivity | lia].
  - reflexivity.
Defined.

(** ** Deployments: time limits and what a reported success guarantees *)

Section DeploymentOutcome.
Import BlockchainDeployment.
Variable config : DeploymentConfig.
Variable chain : Chain.

Lemma waitForConfirmation_no_time hash clock :
  timeoutSeconds config <= 0 ->
  waitForConfirmation config chain hash clock = (Throw (timeoutMessage config), clock).
Proof.
  intros H. unfold waitForConfirmation, pollBudget.
  rewrite Nat.add_comm. cbn [Nat.add waitLoop].
  destruct (Z.ltb_spec (Clock.now clock - Clock.now clock) (timeoutSeconds config * 1000));
    [lia | reflexivity].
Qed.

Lemma submitAndConfirm_no_time startTime clock r clock' :
  timeoutSeconds config <= 0 ->
  submitAndConfirm config chain startTime clock <> (Ok r, clock').
Proof.
  intros H. unfold submitAndConfirm.
  destruct (estimateGas config chain); [|discriminate].
  destruct (deployTx chain) as [contract|]; [|discriminate].
  rewrite (waitForConfirmation_no_time _ _ H). discriminate.
Qed.

(** X7.  With [timeoutSeconds <= 0] the confirmation wait gives up before
    its first poll: it raises the timeout error at once, without asking for
    the receipt and without sleeping, so neither deployment method can
    succeed, whatever the ledger answers. *)
Theorem waitForConfirmation_nonpositive_timeout :
  timeoutSeconds config <= 0 ->
  (forall hash clock,
      waitForConfirmation config chain hash clock
        = (Throw (timeoutMessage config), clock)) /\
  (forall params clock result clock',
      deployBinaryMarketContract config chain params clock <> (Ok result, clock')) /\
  (forall params clock result clock',
      deployCopyTradingVaultContract config chain params clock <> (Ok result, clock')).
Proof.
  intros H. split; [|split].
  - intros hash clock. apply waitForConfirmation_no_time, H.
  - intros params clock result clock'. unfold deployBinaryMarketContract.
    destruct (validateBinaryMarketParams chain params clock); [|discriminate].
    apply submitAndConfirm_no_time, H.
  - intros params clock result clock'. unfold deployCopyTradingVaultContract.
    destruct (validateCopyTradingVaultParams chain params); [|discriminate].
    apply submitAndConfirm_no_time, H.
Qed.

(** What a result of either deployment method is made of, [clock] being
    the clock on entry: the contract object of the submission, and the
    receipt answered to poll number [k] of the wait, which began once the gas
    quote and the submission had settled. *)
Definition confirmedResult (clock clock' : Clock.t) (result : DeploymentResult) : Prop :=
  exists contract receipt k,
    let waitStart :=
      Clock.now clock + Z.max 0 (estimateGasTime chain) + Z.max 0 (deployTime chain) in
    let asked := pollTime chain k waitStart in
    Js.is_ok (estimateGas config chain) = true /\
    deployTx chain = Ok contract /\
    contractAddress result = c_address contract /\
    getTransactionReceipt chain (c_deploymentHash contract) asked = Ok (Some receipt) /\
    transactionHash result = r_hash receipt /\
    blockNumber result = r_blockNumber receipt /\
    gasUsed result = r_gasUsed receipt /\
    confirmations result = r_confirmations receipt /\
    confirmationBlocks config <= confirmations result /\
    asked - waitStart < timeoutSeconds config * 1000 /\
    Clock.now clock' = answeredAt chain asked /\
    deploymentTime result = Clock.now clock' - Clock.now clock /\
    waitStart - Clock.now clock + 1000 * Z.of_nat k <= deploymentTime result.

Lemma submitAndConfirm_result clock clock' result :
  submitAndConfirm config chain (Clock.now clock) clock = (Ok result, clock') ->
  confirmedResult clock clock' result.
Proof.
  unfold submitAndConfirm.
  destruct (estimateGas config chain) as [gasEstimate|] eqn:G; [|discriminate].
  destruct (deployTx chain) as [contract|] eqn:D; [|discriminate].
  set (submitted := Clock.elapse (deployTime chain)
                      (Clock.elapse (estimateGasTime chain) clock)).
  unfold waitForConfirmation.
  pose proof (waitLoop_spec config chain (c_deploymentHash contract)
                (Clock.now submitted) (timeoutSeconds config * 1000)
                (pollBudget (timeoutSeconds config * 1000)) submitted
                (pollBudget_covers submitted (timeoutSeconds config * 1000))) as S.
  destruct (waitLoop config chain (pollBudget (timeoutSeconds config * 1000))
              (c_deploymentHash contract) (Clock.now submitted)
              (timeoutSeconds config * 1000) submitted)
    as [[[receipt|e] c]|]; [|discriminate|contradiction].
  destruct S as (k & Hbefore & Hrc & Hconf & Hnow & _).
  intros [= <- <-]. exists contract, receipt, k. cbn zeta.
  assert (E : Clock.now submitted
              = Clock.now clock + Z.max 0 (estimateGasTime chain)
                + Z.max 0 (deployTime chain)) by reflexivity.
  rewrite <- E. cbn [contractAddress transactionHash blockNumber gasUsed
                     confirmations deploymentTime].
  rewrite G. repeat split; try assumption; try reflexivity.
  rewrite Hnow. pose proof (pollTime_lower chain k (Clock.now submitted)).
  unfold answeredAt. lia.
Qed.

(** X8.  Whenever a deployment method reports success, the result it
    returns is backed by the ledger.  [contractAddress] is the [address]
    property of the contract object the submission resolved to, undefined
    when that object has none; hash, block number, gas used and confirmation
    count are those of the receipt answered to the last poll, and the count
    reaches [confirmationBlocks]; a gas quote was obtained.  The time limit
    bounds the wait alone: that last poll was asked less than
    [timeoutSeconds] after the wait began, while [deploymentTime] runs from
    the entry of the method to the moment the answer settled, the gas quote
    and the submission included. *)
Theorem deployment_success_is_confirmed :
  forall (clock clock' : Clock.t) (result : DeploymentResult),
    ((exists params,
         deployBinaryMarketContract config chain params clock = (Ok result, clock')) \/
     (exists params,
         deployCopyTradingVaultContract config chain params clock = (Ok result, clock'))) ->
    confirmedResult clock clock' result.
Proof.
  intros clock clock' result [[params H]|[params H]].
  - unfold deployBinaryMarketContract in H.
    destruct (validateBinaryMarketParams chain params clock); [|discriminate].
    apply submitAndConfirm_result, H.
  - unfold deployCopyTradingVaultContract in H.
    destruct (validateCopyTradingVaultParams chain params); [|discriminate].
    apply submitAndConfirm_result, H.
Qed.

(** X9.  NaN passes the numeric checks of both validators, every
    comparison with NaN being false: a market whose [endTime] is NaN is
    never refused for its end time, and a vault whose fee is NaN is never
    refused for that fee. *)
Theorem validation_lets_NaN_through :
  (forall params clock,
      endTime params = S754_nan ->
      validateBinaryMarketParams chain params clock
        <> Throw "Invalid endTime: must be in the future") /\
  (forall params,
      performanceFee params = S754_nan ->
      validateCopyTradingVaultParams chain params
        <> Throw "Invalid performanceFee: must be between 0 and 100") /\
  (forall params,
      managementFee params = S754_nan ->
      validateCopyTradingVaultParams chain params
        <> Throw "Invalid managementFee: must be between 0 and 100").
Proof.
  split; [|split].
  - intros params clock H. unfold validateBinaryMarketParams. rewrite H.
    destruct (blank (title params)); [discriminate|].
    destruct (blank (description params)); [discriminate|].
    replace (JsNumber.leb S754_nan _) with false by reflexivity.
    destruct (negb (isAddress chain (oracleAddress params))); [discriminate|].
    destruct (initialLiquidity params <=? 0); discriminate.
  - intros params H. unfold validateCopyTradingVaultParams. rewrite H.
    destruct (negb (isAddress chain (leader params))); [discriminate|].
    destruct (blank (name params)); [discriminate|].
    cbn [SFltb SFcompare orb].
    replace (SFltb (JsNumber.Number 100) S754_nan) with false by reflexivity.
    cbn [orb].
    destruct (_ || _)%bool; discriminate.
  - intros params H. unfold validateCopyTradingVaultParams. rewrite H.
    destruct (negb (isAddress chain (leader params))); [discriminate|].
    destruct (blank (name params)); [discriminate|].
    destruct (_ || _)%bool; [discriminate|].
    replace (SFltb S754_nan (JsNumber.Number 0)) with false by reflexivity.
    replace (SFltb (JsNumber.Number 100) S754_nan) with false by reflexivity.
    discriminate.
Qed.

End DeploymentOutcome.

(** A service that allows the confirmation no time at all. *)
Definition hastyDeploymentConfig : BlockchainDeployment.DeploymentConfig :=
  {| BlockchainDeployment.timeoutSeconds := 0;
     BlockchainDeployment.confirmationBlocks := 2;
     BlockchainDeployment.maxRetries := 5;
     BlockchainDeployment.retryDelayMs := 1000;
     BlockchainDeployment.gasConfig := GasManager.testConfig |}.

Lemma waitForConfirmation_nonpositive_timeout_witness :
  BlockchainDeployment.waitForConfirmation hastyDeploymentConfig (healthyChain 1)
    "0xa1b2" (Clock.at_time (sampleStart + 60000))
  = (Throw "Deployment timeout after 0 seconds", Clock.at_time (sampleStart + 60000)).
Proof.
  apply (proj1 (waitForConfirmation_nonpositive_timeout hastyDeploymentConfig
                  (healthyChain 1) ltac:(cbn; lia))).
Defined.

(** A ledger reached through a slow node, by a library whose contract
    objects have no [address] property: the gas quote takes 0.7 s, the
    submission 1.8 s and every poll a quarter of a second. *)
Definition sluggishChain : BlockchainDeployment.Chain :=
  {| BlockchainDeployment.isAddress := isHexAddress;
     BlockchainDeployment.gasProvider := sampleProvider;
     BlockchainDeployment.formatEtherNumber := etherNumber;
     BlockchainDeployment.estimateGasTime := 700;
     BlockchainDeployment.deployTx :=
       Ok {| BlockchainDeployment.c_address := None;
             BlockchainDeployment.c_deploymentHash := "0xa1b2" |};
     BlockchainDeployment.deployTime := 1800;
     BlockchainDeployment.getTransactionReceipt :=
       receiptOf (sampleStart + 3000) 1;
     BlockchainDeployment.receiptTime := fun _ => 250 |}.

Lemma deployment_success_is_confirmed_witness :
  exists result clock',
    BlockchainDeployment.deployBinaryMarketContract sampleDeploymentConfig
      sluggishChain sampleMarketParams (Clock.at_time sampleStart)
      = (Ok result, clock') /\
    confirmedResult sampleDeploymentConfig sluggishChain
      (Clock.at_time sampleStart) clock' result /\
    BlockchainDeployment.contractAddress result = None /\
    BlockchainDeployment.deploymentTime result = 15250.
Proof.
  eexists _, _. split; [vm_compute; reflexivity|].
  split; [|split; reflexivity].
  apply deployment_success_is_confirmed. left. exists sampleMarketParams.
  vm_compute. reflexivity.
Defined.

(** A market whose end time could not be parsed, and a vault whose fees
    could not. *)
Definition timelessMarketParams : BlockchainDeployment.BinaryMarketDeployParams :=
  {| BlockchainDeployment.title := "Arsenal v Chelsea: home win";
     BlockchainDeployment.description := "Resolves YES if the home side wins";
     BlockchainDeployment.endTime := S754_nan;
     BlockchainDeployment.oracleAddress := "0x70997970C51812dc3A010C7d01b50e0d17dc79C8";
     BlockchainDeployment.initialLiquidity := 1000000000000000000 |}.

Definition feelessVaultParams : BlockchainDeployment.CopyTradingVaultDeployParams :=
  {| BlockchainDeployment.leader := "0x70997970C51812dc3A010C7d01b50e0d17dc79C8";
     BlockchainDeployment.name := "Alpha vault";
     BlockchainDeployment.performanceFee := S754_nan;
     BlockchainDeployment.managementFee := S754_nan |}.

Lemma validation_lets_NaN_through_witness :
  BlockchainDeployment.validateBinaryMarketParams (healthyChain 1) timelessMarketParams
    (Clock.at_time sampleStart) = Ok tt /\
  BlockchainDeployment.validateBinaryMarketParams (healthyChain 1) timelessMarketParams
    (Clock.at_time sampleStart) <> Throw "Invalid endTime: must be in the future" /\
  BlockchainDeployment.validateCopyTradingVaultParams (healthyChain 1) feelessVaultParams
    = Ok tt /\
  BlockchainDeployment.validateCopyTradingVaultParams (healthyChain 1) feelessVaultParams
    <> Throw "Invalid performanceFee: must be between 0 and 100".
Proof.
  destruct (validation_lets_NaN_through (healthyChain 1)) as (T & P & _).
  split; [vm_compute; reflexivity|].
  split; [apply T; reflexivity|].
  split; [vm_compute; reflexivity|].
  apply P. reflexivity.
Defined.

(** ** The alert service: bookkeeping *)

Section AlertBookkeeping.
Import AlertService.
Context {Data : Type}.
Implicit Types (s : AlertService.State Data) (a : Alert).

Lemma count_cons (p : Alert -> bool) a l :
  count p (a :: l) = ((if p a then 1 else 0) + count p l)%nat.
Proof. unfold count. cbn [List.filter]. destruct (p a); reflexivity. Qed.

Lemma count_Permutation (p : Alert -> bool) l l' :
  l ≡ₚ l' -> count p l = count p l'.
Proof.
  induction 1 as [|x l l' _ IH|x y l|l l' l'' _ IH1 _ IH2].
  - reflexivity.
  - rewrite !count_cons, IH. reflexivity.
  - rewrite !count_cons. lia.
  - congruence.
Qed.

Lemma count_by_status (l : list Alert) :
  length l = (count (fun a => bool_decide (status a = ACTIVE)) l
              + count (fun a => bool_decide (status a = ACKNOWLEDGED)) l
              + count (fun a => bool_decide (status a = RESOLVED)) l)%nat.
Proof.
  induction l as [|a l IH]; [reflexivity|].
  rewrite !count_cons. cbn [length]. rewrite IH.
  destruct (status a); repeat case_bool_decide; try congruence; lia.
Qed.

Lemma count_by_level (l : list Alert) :
  length l = (count (fun a => bool_decide (level a = INFO)) l
              + count (fun a => bool_decide (level a = WARNING)) l
              + count (fun a => bool_decide (level a = CRITICAL)) l)%nat.
Proof.
  induction l as [|a l IH]; [reflexivity|].
  rewrite !count_cons. cbn [length]. rewrite IH.
  destruct (level a); repeat case_bool_decide; try congruence; lia.
Qed.

(** The alerts held, in the order [alerts.values()] lists them. *)
Definition held s : list Alert := List.map snd (map_to_list (alerts s)).

Lemma length_held s : length (held s) = size (alerts s).
Proof. unfold held. rewrite length_map. apply length_map_to_list. Qed.

(** X10.  The statistics add up: every alert held is counted once among the
    three statuses and once among the three levels, and [total] is the number
    of alerts held. *)
Theorem getStatistics_partition :
  forall s,
    let stats := getStatistics s in
    total stats = size (alerts s) /\
    total stats = (active stats + acknowledged stats + resolved stats)%nat /\
    total stats = (byLevel stats INFO + byLevel stats WARNING
                   + byLevel stats CRITICAL)%nat.
Proof.
  intros s stats. subst stats. unfold getStatistics. cbn.
  fold (held s). split; [apply length_held|].
  split; [apply count_by_status | apply count_by_level].
Qed.

Lemma held_alter (f : Alert -> Alert) (k : string) (m : gmap string Alert) a :
  m !! k = Some a ->
  List.map snd (map_to_list (alter f k m))
    ≡ₚ f a :: List.map snd (map_to_list (delete k m)) /\
  List.map snd (map_to_list m) ≡ₚ a :: List.map snd (map_to_list (delete k m)).
Proof.
  intros H. split.
  - rewrite <- (insert_delete_id m k a H) at 1. rewrite alter_insert_eq.
    rewrite map_to_list_insert by apply lookup_delete_eq. reflexivity.
  - rewrite <- (map_to_list_delete m k a H). reflexivity.
Qed.

Lemma set_alerts_id s : set_alerts (alerts s) s = s.
Proof. destruct s; reflexivity. Qed.

Lemma setStatus_spec (st : AlertStatus) (alertId : string) s :
  let s' := set_alerts (alter (with_status st) alertId (alerts s)) s in
  match alerts s !! alertId with
  | None => s' = s
  | Some a =>
      alerts s' !! alertId = Some (with_status st a) /\
      (forall k, k <> alertId -> alerts s' !! k = alerts s !! k) /\
      total (getStatistics s') = total (getStatistics s) /\
      (forall l, byLevel (getStatistics s') l = byLevel (getStatistics s) l) /\
      (forall p : AlertStatus -> bool,
         (count (fun x => p (status x)) (held s') + (if p (status a) then 1 else 0)
          = count (fun x => p (status x)) (held s) + (if p st then 1 else 0))%nat)
  end.
Proof.
  intros s'. subst s'. destruct (alerts s !! alertId) as [a|] eqn:H.
  - destruct (held_alter (with_status st) alertId (alerts s) a H) as [P1 P2].
    split; [cbn; rewrite lookup_alter_eq, H; reflexivity|].
    split; [intros k Hk; cbn; apply lookup_alter_ne; congruence|].
    unfold getStatistics, held. cbn [alerts set_alerts total byLevel].
    split; [rewrite (Permutation_length P1), (Permutation_length P2); reflexivity|].
    split.
    + intros l. rewrite (count_Permutation _ _ _ P1), (count_Permutation _ _ _ P2).
      rewrite !count_cons. reflexivity.
    + intros p. rewrite (count_Permutation _ _ _ P1), (count_Permutation _ _ _ P2).
      rewrite !count_cons. cbn [status with_status]. lia.
  - rewrite alter_id' by exact H. apply set_alerts_id.
Qed.

(** X11.  [acknowledgeAlert] and [resolveAlert] on an id that is not held
    change nothing.  On an alert that is held they set its status and leave
    everything else as it was: the other alerts, the total, the counts by
    level; in the counts by status the alert moves from its former status to
    the new one. *)
Theorem acknowledge_resolve_bookkeeping :
  forall (alertId : string) s,
    match alerts s !! alertId with
    | None => acknowledgeAlert alertId s = s /\ resolveAlert alertId s = s
    | Some a =>
        alerts (acknowledgeAlert alertId s) !! alertId
          = Some (with_status ACKNOWLEDGED a) /\
        alerts (resolveAlert alertId s) !! alertId = Some (with_status RESOLVED a) /\
        (forall k, k <> alertId ->
           alerts (acknowledgeAlert alertId s) !! k = alerts s !! k /\
           alerts (resolveAlert alertId s) !! k = alerts s !! k) /\
        total (getStatistics (acknowledgeAlert alertId s)) = total (getStatistics s) /\
        total (getStatistics (resolveAlert alertId s)) = total (getStatistics s) /\
        (status a = ACTIVE ->
           S (active (getStatistics (acknowledgeAlert alertId s)))
             = active (getStatistics s) /\
           acknowledged (getStatistics (acknowledgeAlert alertId s))
             = S (acknowledged (getStatistics s)) /\
           resolved (getStatistics (acknowledgeAlert alertId s))
             = resolved (getStatistics s))
    end.
Proof.
  intros alertId s.
  pose proof (setStatus_spec ACKNOWLEDGED alertId s) as A.
  pose proof (setStatus_spec RESOLVED alertId s) as R.
  cbn zeta in A, R. unfold acknowledgeAlert, resolveAlert.
  destruct (alerts s !! alertId) as [a|]; [|split; assumption].
  destruct A as (A1 & A2 & A3 & A4 & A5), R as (R1 & R2 & R3 & R4 & R5).
  split; [exact A1|]. split; [exact R1|].
  split; [intros k Hk; split; [apply A2 | apply R2]; exact Hk|].
  split; [exact A3|]. split; [exact R3|].
  intros Hact.
  pose proof (A5 (fun st => bool_decide (st = ACTIVE))) as C1.
  pose proof (A5 (fun st => bool_decide (st = ACKNOWLEDGED))) as C2.
  pose proof (A5 (fun st => bool_decide (st = RESOLVED))) as C3.
  rewrite Hact in C1, C2, C3. cbn beta in C1, C2, C3.
  change (bool_decide (ACTIVE = ACTIVE)) with true in C1.
  change (bool_decide (ACKNOWLEDGED = ACTIVE)) with false in C1.
  change (bool_decide (ACTIVE = ACKNOWLEDGED)) with false in C2.
  change (bool_decide (ACKNOWLEDGED = ACKNOWLEDGED)) with true in C2.
  change (bool_decide (ACTIVE = RESOLVED)) with false in C3.
  change (bool_decide (ACKNOWLEDGED = RESOLVED)) with false in C3.
  unfold getStatistics. cbn [active acknowledged resolved alerts set_alerts].
  unfold held in C1, C2, C3. cbn [alerts set_alerts] in C1, C2, C3.
  repeat split; lia.
Qed.

End AlertBookkeeping.

(** ** The alert service: dispatch, escalation and the rule set *)

Section AlertDispatch.
Import AlertService.
Context {Data : Type}.
Implicit Types (s : AlertService.State Data) (a : Alert).

Lemma triggerAlert_frame a now s :
  alerts (snd (triggerAlert a now s)) = alerts s /\
  rules (snd (triggerAlert a now s)) = rules s /\
  notificationConfig (snd (triggerAlert a now s)) = notificationConfig s.
Proof.
  unfold triggerAlert. destruct (shouldTriggerAlert a now s); cbn [negb].
  - rewrite sendAll_spec. repeat split.
  - repeat split.
Qed.

Lemma triggerAlert_outbox a now s :
  outbox (snd (triggerAlert a now s)) =
    outbox s ++ (if shouldTriggerAlert a now s
                 then notifications (notificationConfig s) a else []).
Proof.
  destruct (shouldTriggerAlert a now s) eqn:H.
  - rewrite (triggerAlert_dispatch a now s H). reflexivity.
  - rewrite (triggerAlert_suppressed a now s H). cbn. rewrite app_nil_r. reflexivity.
Qed.

(** X12.  The value [trigger] resolves to: [true] exactly when the alert is
    not deduplicated and every channel of its level is switched on.  A
    dispatch with a channel switched off still sends on the other channels of
    the level and still records the dispatch time, yet resolves to [false]. *)
Theorem triggerAlert_true_iff_all_channels_on :
  forall a (now : Z) s,
    (fst (triggerAlert a now s) = true <->
       shouldTriggerAlert a now s = true /\
       Forall (fun c => channelOn (notificationConfig s) c = true)
         (getChannelsForLevel (level a))) /\
    (shouldTriggerAlert a now s = true ->
       outbox (snd (triggerAlert a now s))
         = outbox s ++ notifications (notificationConfig s) a /\
       lastAlertTime (snd (triggerAlert a now s)) !! deduplicationKey a = Some now).
Proof.
  intros a now s. split.
  - destruct (shouldTriggerAlert a now s) eqn:H.
    + rewrite (triggerAlert_dispatch a now s H). cbn [fst].
      rewrite forallb_forall, Forall_forall. split.
      * intros F. split; [reflexivity|]. intros c Hc. apply F.
        apply in_map, list_elem_of_In, Hc.
      * intros [_ F] b Hb. apply in_map_iff in Hb as (c & <- & Hc).
        apply F, list_elem_of_In, Hc.
    + rewrite (triggerAlert_suppressed a now s H). cbn [fst].
      split; [discriminate | intros [? _]; discriminate].
  - intros H. rewrite (triggerAlert_dispatch a now s H). cbn.
    split; [reflexivity | apply lookup_insert_eq].
Qed.

Definition levelOrder (l : AlertLevel) : Z :=
  match l with INFO => 0 | WARNING => 1 | CRITICAL => 2 end.

(** X13.  [escalateAlert] never lowers a level and touches nothing it
    should not.  For an id that is not held, or a new level that is not
    strictly higher than the current one, the service is left as it was.
    Otherwise the alert takes the new level, all other alerts stay as they
    were, and the escalated alert is dispatched again on the channels of the
    new level, unless its [(source, title)] was dispatched within the
    deduplication window. *)
Theorem escalateAlert_raises_and_redispatches :
  forall (alertId : string) (newLevel : AlertLevel) (now : Z) s,
    let s' := escalateAlert alertId newLevel now s in
    match alerts s !! alertId with
    | None => s' = s
    | Some a =>
        if levelOrder newLevel >? levelOrder (level a) then
          alerts s' = <[alertId := with_level newLevel a]> (alerts s) /\
          outbox s' =
            outbox s ++
            (if shouldTriggerAlert (with_level newLevel a) now s
             then notifications (notificationConfig s) (with_level newLevel a)
             else [])
        else s' = s
    end /\
    (forall k a a', alerts s !! k = Some a -> alerts s' !! k = Some a' ->
       levelOrder (level a) <= levelOrder (level a') /\
       id a' = id a /\ title a' = title a /\ status a' = status a /\
       source a' = source a).
Proof.
  intros alertId newLevel now s s'. subst s'. unfold escalateAlert.
  destruct (alerts s !! alertId) as [a|] eqn:H.
  2:{ split; [reflexivity|]. intros k a a' H1 H2. rewrite H1 in H2.
      injection H2 as <-. repeat split. lia. }
  change (isHigherLevel newLevel (level a))
    with (levelOrder newLevel >? levelOrder (level a)).
  destruct (levelOrder newLevel >? levelOrder (level a)) eqn:Hi.
  2:{ split; [reflexivity|]. intros k a0 a' H1 H2. rewrite H1 in H2.
      injection H2 as <-. repeat split. lia. }
  set (s1 := set_alerts (<[alertId := with_level newLevel a]> (alerts s)) s).
  destruct (triggerAlert_frame (with_level newLevel a) now s1) as (Fa & _ & _).
  assert (A : alerts (snd (triggerAlert (with_level newLevel a) now s1))
              = <[alertId := with_level newLevel a]> (alerts s)) by (rewrite Fa; reflexivity).
  split.
  - split; [exact A|]. rewrite triggerAlert_outbox. reflexivity.
  - intros k a0 a' H1 H2. rewrite A in H2.
    destruct (decide (k = alertId)) as [->|Hk].
    + rewrite lookup_insert_eq in H2. injection H2 as <-.
      rewrite H in H1. injection H1 as <-. cbn.
      apply Z.gtb_lt in Hi. repeat split. lia.
    + rewrite lookup_insert_ne in H2 by congruence. rewrite H1 in H2.
      injection H2 as <-. repeat split. lia.
Qed.

Lemma createAlert_frame t d l src md now s :
  let s' := snd (createAlert t d l src md now s) in
  rules s' = rules s /\ notificationConfig s' = notificationConfig s /\
  deduplicationWindow s' = deduplicationWindow s /\
  lastAlertTime s' = lastAlertTime s /\ outbox s' = outbox s /\
  randomUsed s' = S (randomUsed s) /\
  (forall k, is_Some (alerts s !! k) -> is_Some (alerts s' !! k)).
Proof.
  cbn. repeat split.
  intros k Hk. destruct (decide (k = "alert-" +:+ pretty now +:+ "-" +:+ random s (randomUsed s)))
    as [->|Hne].
  - rewrite lookup_insert_eq. eauto.
  - rewrite lookup_insert_ne by congruence. exact Hk.
Qed.

(** What [evaluateRules] leaves alone. *)
Definition sameDispatchState s s' : Prop :=
  rules s' = rules s /\ notificationConfig s' = notificationConfig s /\
  deduplicationWindow s' = deduplicationWindow s /\
  lastAlertTime s' = lastAlertTime s /\ outbox s' = outbox s /\
  (forall k, is_Some (alerts s !! k) -> is_Some (alerts s' !! k)).

Lemma evaluateRule_frame data sd now rule s new s' :
  evaluateRule data sd now rule s = Ok (new, s') ->
  sameDispatchState s s' /\
  randomUsed s' = (randomUsed s + length new)%nat.
Proof.
  unfold evaluateRule.
  assert (Same : sameDispatchState s s /\ randomUsed s = (randomUsed s + 0)%nat).
  { split; [repeat split; auto | lia]. }
  destruct (enabled rule); cbn [negb]; [|intros [= <- <-]; exact Same].
  destruct (condition rule data) as [[|]|]; cbn [try_catch];
    try (intros [= <- <-]; exact Same).
  pose proof (createAlert_frame (rule_name rule) ("Rule triggered: " +:+ rule_name rule)
                (rule_level rule) "rule-engine"
                [("ruleId", rule_id rule); ("data", sd data)] now s) as F.
  destruct (createAlert (rule_name rule) ("Rule triggered: " +:+ rule_name rule)
              (rule_level rule) "rule-engine"
              [("ruleId", rule_id rule); ("data", sd data)] now s) as [alert s1].
  cbn [snd] in F. destruct F as (R & C & W & L & O & U & K).
  intros [= <- <-].
  split; [repeat split; assumption|]. cbn [length]. rewrite U. lia.
Qed.

Lemma evaluateLoop_frame data sd now rs : forall acc s out s',
  evaluateLoop data sd now rs acc s = Ok (out, s') ->
  sameDispatchState s s' /\
  (randomUsed s' + length acc = randomUsed s + length out)%nat.
Proof.
  induction rs as [|[k rule] rs IH]; intros acc s out s'; cbn [evaluateLoop].
  - intros [= <- <-]. split; [repeat split; auto | lia].
  - destruct (evaluateRule data sd now rule s) as [[new s1]|e] eqn:E; cbn [bind];
      [|discriminate].
    intros H. cbn [fst snd] in H.
    destruct (evaluateRule_frame _ _ _ _ _ _ _ E) as [(R1 & C1 & W1 & L1 & O1 & K1) U1].
    destruct (IH _ _ _ _ H) as [(R2 & C2 & W2 & L2 & O2 & K2) U2].
    split.
    + repeat split; try congruence. intros k' Hk. apply K2, K1, Hk.
    + rewrite length_app in U2. lia.
Qed.

(** X14.  The rule engine only records alerts.  [evaluateRules] sends no
    notification and leaves the deduplication times, the rules and the
    configuration as they were; it removes no alert, and it draws one new
    alert id for each alert it returns. *)
Theorem evaluateRules_sends_nothing :
  forall (data : Data) (showData : Data -> string) (now : Z) s,
  exists triggered s',
    evaluateRules data showData now s = Ok (triggered, s') /\
    outbox s' = outbox s /\
    lastAlertTime s' = lastAlertTime s /\
    rules s' = rules s /\
    notificationConfig s' = notificationConfig s /\
    deduplicationWindow s' = deduplicationWindow s /\
    (forall k, is_Some (alerts s !! k) -> is_Some (alerts s' !! k)) /\
    randomUsed s' = (randomUsed s + length triggered)%nat.
Proof.
  intros data sd now s.
  destruct (evaluateLoop_ok data sd now (rules s) [] s) as (new & s' & E & _).
  cbn [app] in E. exists new, s'. split; [exact E|].
  destruct (evaluateLoop_frame _ _ _ _ _ _ _ _ E) as [(R & C & W & L & O & K) U].
  cbn [length] in U. repeat split; try assumption. lia.
Qed.

End AlertDispatch.

(** ** The alert service: the store of alerts and the rule set *)

Section AlertStore.
Import AlertService.
Context {Data : Type}.
Implicit Types (s : AlertService.State Data) (a : Alert).

(** X15.  [createAlert] stores the alert it returns under the id it drew,
    ACTIVE and stamped with the current time, and leaves the alerts under
    all other ids as they were.  The number of alerts held grows by one,
    unless the id was taken already: then the earlier alert is replaced. *)
Theorem createAlert_stores_the_alert :
  forall (t d : string) (l : AlertLevel) (src : string)
         (md : list (string * string)) (now : Z) s,
    let a := fst (createAlert t d l src md now s) in
    let s' := snd (createAlert t d l src md now s) in
    alerts s' !! id a = Some a /\
    status a = ACTIVE /\ timestamp a = now /\
    title a = t /\ description a = d /\ level a = l /\ source a = src /\
    (forall k, k <> id a -> alerts s' !! k = alerts s !! k) /\
    total (getStatistics s')
      = match alerts s !! id a with
        | Some _ => total (getStatistics s)
        | None => S (total (getStatistics s))
        end.
Proof.
  intros t d l src md now s a s'. subst a s'. cbn.
  split; [apply lookup_insert_eq|]. repeat split.
  - intros k Hk. apply lookup_insert_ne. congruence.
  - rewrite !length_map, !length_map_to_list, map_size_insert.
    destruct (alerts s !! _); reflexivity.
Qed.

(** X16.  [clearAllAlerts] drops the alerts together with the times of
    the last dispatches, and nothing else: the statistics read zero, rules,
    channels and window are kept, and the next [trigger] of any alert is
    dispatched, whatever was dispatched before. *)
Theorem clearAllAlerts_forgets_dispatches :
  forall s a (now : Z),
    let s' := clearAllAlerts s in
    total (getStatistics s') = 0%nat /\
    rules s' = rules s /\
    notificationConfig s' = notificationConfig s /\
    deduplicationWindow s' = deduplicationWindow s /\
    shouldTriggerAlert a now s' = true /\
    outbox (snd (triggerAlert a now s'))
      = outbox s ++ notifications (notificationConfig s) a.
Proof.
  intros s a now s'. subst s'.
  assert (T : shouldTriggerAlert a now (clearAllAlerts s) = true).
  { unfold shouldTriggerAlert, clearAllAlerts. cbn. rewrite lookup_empty. reflexivity. }
  split; [reflexivity|]. repeat split; try exact T.
  rewrite (triggerAlert_dispatch a now _ T). reflexivity.
Qed.

(** The ids under which rules are registered, in the order of the map. *)
Definition ruleIds s : list string := List.map fst (rules s).

Lemma map_set_In {V} k (v : V) m : In (k, v) (map_set k v m).
Proof.
  induction m as [|[k' v'] m IH]; cbn; [left; reflexivity|].
  destruct (String.eqb k k'); [left; reflexivity | right; exact IH].
Qed.

Lemma map_set_keys {V} k (v : V) m j :
  In j (List.map fst (map_set k v m)) <-> j = k \/ In j (List.map fst m).
Proof.
  induction m as [|[k' v'] m IH]; cbn; [intuition|].
  destruct (String.eqb_spec k k') as [->|Hne]; cbn; [intuition|].
  rewrite IH. intuition.
Qed.

Lemma map_set_NoDup {V} k (v : V) m :
  List.NoDup (List.map fst m) -> List.NoDup (List.map fst (map_set k v m)).
Proof.
  induction m as [|[k' v'] m IH]; cbn; intros H.
  - constructor; [intros []|constructor].
  - inversion H as [|? ? Hn Hm]; subst.
    destruct (String.eqb_spec k k') as [->|Hne]; cbn.
    + constructor; assumption.
    + constructor; [|apply IH, Hm].
      rewrite map_set_keys. intros [->|Hin]; [congruence | contradiction].
Qed.

Lemma map_set_idem {V} k (v : V) m : map_set k v (map_set k v m) = map_set k v m.
Proof.
  induction m as [|[k' v'] m IH]; cbn.
  - rewrite String.eqb_refl. reflexivity.
  - destruct (String.eqb_spec k k') as [->|Hne]; cbn.
    + rewrite String.eqb_refl. reflexivity.
    + destruct (String.eqb_spec k k'); [contradiction|]. rewrite IH. reflexivity.
Qed.

Lemma map_set_unique {V} k (v v' : V) m :
  List.NoDup (List.map fst m) -> In (k, v') (map_set k v m) -> v' = v.
Proof.
  induction m as [|[k' w] m IH]; cbn; intros H.
  - intros [[= ->]|[]]. reflexivity.
  - inversion H as [|? ? Hn Hm]; subst.
    destruct (String.eqb_spec k k') as [->|Hne]; cbn.
    + intros [[= ->]|Hin]; [reflexivity|].
      exfalso. apply Hn. apply (in_map fst) in Hin. exact Hin.
    + intros [[= -> ->]|Hin]; [contradiction | apply IH; assumption].
Qed.

Lemma map_delete_keys {V} k (m : list (string * V)) j :
  In j (List.map fst (map_delete k m)) <-> j <> k /\ In j (List.map fst m).
Proof.
  unfold map_delete. induction m as [|[k' v'] m IH]; cbn; [intuition|].
  destruct (String.eqb_spec k k') as [->|Hne]; cbn; rewrite IH; intuition congruence.
Qed.

Lemma map_delete_NoDup {V} k (m : list (string * V)) :
  List.NoDup (List.map fst m) -> List.NoDup (List.map fst (map_delete k m)).
Proof.
  induction m as [|[k' v'] m IH]; cbn; intros H; [constructor|].
  inversion H as [|? ? Hn Hm]; subst.
  destruct (String.eqb_spec k k') as [->|Hne]; cbn; [apply IH, Hm|].
  constructor; [|apply IH, Hm].
  fold (map_delete k m). rewrite map_delete_keys. intros [_ Hin]. contradiction.
Qed.

Lemma map_delete_set_fresh {V} k (v : V) m :
  ~ In k (List.map fst m) -> map_delete k (map_set k v m) = m.
Proof.
  unfold map_delete. induction m as [|[k' v'] m IH]; cbn; intros H.
  - rewrite String.eqb_refl. reflexivity.
  - destruct (String.eqb_spec k k') as [->|Hne]; [exfalso; apply H; left; reflexivity|].
    cbn. destruct (String.eqb_spec k k'); [contradiction|]. cbn.
    rewrite IH; [reflexivity|]. intros Hin. apply H. right. exact Hin.
Qed.

(** X17.  The rule set behaves as a map keyed by rule id.  After
    [addRule(rule)] the rule is registered under its id; adding it again
    changes nothing; after [removeRule(id)] no rule is registered under
    [id]; removing a rule just added under a new id restores the rule set.
    Rule ids stay distinct, so a rule added under an id already in use takes
    the place of the earlier one. *)
Theorem rules_behave_as_a_map :
  forall (rule : AlertRule Data) (ruleId : string) s,
    In (rule_id rule, rule) (rules (addRule rule s)) /\
    addRule rule (addRule rule s) = addRule rule s /\
    ~ In ruleId (ruleIds (removeRule ruleId s)) /\
    (~ In (rule_id rule) (ruleIds s) ->
       removeRule (rule_id rule) (addRule rule s) = s) /\
    (List.NoDup (ruleIds s) ->
       List.NoDup (ruleIds (addRule rule s)) /\
       List.NoDup (ruleIds (removeRule ruleId s)) /\
       (forall other, In (rule_id rule, other) (rules (addRule rule s)) ->
          other = rule) /\
       length (rules (addRule rule s))
         = if existsb (String.eqb (rule_id rule)) (ruleIds s)
           then length (rules s) else S (length (rules s))).
Proof.
  intros rule ruleId s. unfold addRule, removeRule, ruleIds. cbn [rules set_rules].
  split; [apply map_set_In|].
  split.
  { rewrite map_set_idem. destruct s; reflexivity. }
  split; [rewrite map_delete_keys; intros [H _]; congruence|].
  split.
  { intros H. rewrite (map_delete_set_fresh _ _ _ H). destruct s; reflexivity. }
  intros N. split; [apply map_set_NoDup, N|].
  split; [apply map_delete_NoDup, N|].
  split; [intros other; apply map_set_unique, N|].
  clear N. induction (rules s) as [|[k' v'] m IH]; cbn; [reflexivity|].
  destruct (String.eqb (rule_id rule) k'); cbn; [reflexivity|].
  rewrite IH. destruct (existsb _ _); reflexivity.
Qed.

End AlertStore.

(** ** The database queue: whole batches *)

Section DatabaseBatches.
Import MarketResolution.
Variable deployContract : Item -> MarketRow -> Exc DeployOutcome.
Variable newDecimal : string -> Exc string.

Lemma countStatus_cons s (row : QueueRow) l :
  countStatus s (row :: l)
    = ((if bool_decide (deploymentStatus row = s) then 1 else 0) + countStatus s l)%nat.
Proof.
  unfold countStatus. cbn [List.filter].
  destruct (bool_decide (deploymentStatus row = s)); reflexivity.
Qed.

(** X18.  The four counts of [getDeploymentQueueStatus] add up to the
    number of jobs in the queue: every job is counted under exactly one
    status. *)
Theorem getDeploymentQueueStatus_partition :
  forall db : Db,
    let st := getDeploymentQueueStatus db in
    (pending st + deploying st + deployed st + failed st)%nat
      = size (contractDeployQueue db).
Proof.
  intros db st. subst st. unfold getDeploymentQueueStatus. cbn.
  rewrite <- length_map_to_list, <- (length_map snd).
  induction (List.map snd (map_to_list (contractDeployQueue db))) as [|row l IH];
    [reflexivity|].
  rewrite !countStatus_cons. cbn [length]. rewrite <- IH.
  destruct (deploymentStatus row); repeat case_bool_decide; try congruence; lia.
Qed.

(** *** One step touches one job *)








(** *** A loop over selected jobs *)

Section Loop.
Variable step : Item -> Db -> Db.
Variable after : QueueRow -> QueueRow -> Prop.
Hypothesis step_other : forall item db j,
  j <> fst item -> contractDeployQueue (step item db) !! j = contractDeployQueue db !! j.
Hypothesis step_own : forall id row db,
  contractDeployQueue db !! id = Some row ->
  exists row', contractDeployQueue (step (id, row) db) !! id = Some row' /\ after row row'.


End Loop.













(** *** A job that can never be deployed *)








(** *** Re-queueing failed jobs *)




(** *** The two ends of one step *)






End DatabaseBatches.

(** *** An alert service holding one alert and one rule *)

Definition heldService : AlertService.State unit :=
  snd (AlertService.createAlert "BinaryMarket Deployment Failed"
         "Deployment failed: nonce too low" AlertService.WARNING "deployment-queue"
         [] 1000 sampleAlertService).

Definition gasSpikeRule : AlertService.AlertRule unit :=
  {| AlertService.rule_id := "gas-spike";
     AlertService.rule_name := "Gas price spike";
     AlertService.condition := fun _ => Some true;
     AlertService.rule_level := AlertService.CRITICAL;
     AlertService.channels := [AlertService.SLACK];
     AlertService.enabled := true |}.

Lemma acknowledge_resolve_bookkeeping_witness :
  S (AlertService.active
       (AlertService.getStatistics
          (AlertService.acknowledgeAlert "alert-1000-0" heldService)))
    = AlertService.active (AlertService.getStatistics heldService) /\
  AlertService.acknowledgeAlert "alert-9" heldService = heldService.
Proof.
  split.
  - pose proof (acknowledge_resolve_bookkeeping "alert-1000-0" heldService) as H.
    destruct (AlertService.alerts heldService !! "alert-1000-0") as [a|] eqn:E;
      [|vm_compute in E; discriminate].
    destruct H as (_ & _ & _ & _ & _ & M).
    apply M. vm_compute in E. injection E as <-. reflexivity.
  - pose proof (acknowledge_resolve_bookkeeping "alert-9" heldService) as H.
    destruct (AlertService.alerts heldService !! "alert-9") as [a|] eqn:E;
      [vm_compute in E; discriminate|].
    apply H.
Defined.

Lemma triggerAlert_true_iff_all_channels_on_witness :
  fst (AlertService.triggerAlert sampleAlert 1000 sampleAlertService) <> true /\
  AlertService.outbox (snd (AlertService.triggerAlert sampleAlert 1000 sampleAlertService))
    = [(AlertService.EMAIL, "alert-1000-k3x9q2m1z");
       (AlertService.SLACK, "alert-1000-k3x9q2m1z")].
Proof.
  destruct (triggerAlert_true_iff_all_channels_on sampleAlert 1000 sampleAlertService)
    as [I D].
  split.
  - intros T. apply I in T as [_ F].
    apply Forall_forall with (x := AlertService.SMS) in F; [discriminate|].
    apply list_elem_of_In. cbn. auto.
  - apply D. reflexivity.
Defined.

Lemma escalateAlert_raises_and_redispatches_witness :
  AlertService.level
    <$> AlertService.alerts
          (AlertService.escalateAlert "alert-1000-0" AlertService.CRITICAL 2000 heldService)
        !! "alert-1000-0"
    = Some AlertService.CRITICAL /\
  AlertService.escalateAlert "alert-1000-0" AlertService.INFO 2000 heldService
    = heldService.
Proof.
  split.
  - pose proof (escalateAlert_raises_and_redispatches "alert-1000-0" AlertService.CRITICAL
                  2000 heldService) as [H _].
    destruct (AlertService.alerts heldService !! "alert-1000-0") as [a|] eqn:E;
      [|vm_compute in E; discriminate].
    vm_compute in E. injection E as <-.
    destruct H as [-> _]. rewrite lookup_insert_eq. reflexivity.
  - pose proof (escalateAlert_raises_and_redispatches "alert-1000-0" AlertService.INFO
                  2000 heldService) as [H _].
    destruct (AlertService.alerts heldService !! "alert-1000-0") as [a|] eqn:E;
      [|vm_compute in E; discriminate].
    vm_compute in E. injection E as <-. exact H.
Defined.

Lemma evaluateRules_sends_nothing_witness :
  exists triggered s',
    AlertService.evaluateRules tt (fun _ => "{}") 3000
      (AlertService.addRule gasSpikeRule heldService) = Ok (triggered, s') /\
    AlertService.outbox s' = [] /\
    is_Some (AlertService.alerts s' !! "alert-1000-0") /\
    length triggered = 1%nat.
Proof.
  destruct (evaluateRules_sends_nothing tt (fun _ => "{}") 3000
              (AlertService.addRule gasSpikeRule heldService))
    as (triggered & s' & E & O & _ & _ & _ & _ & K & U).
  exists triggered, s'. split; [exact E|]. split; [exact O|].
  split; [apply K; vm_compute; eauto|].
  revert E. vm_compute. intros [= <- _]. reflexivity.
Defined.

Lemma createAlert_stores_the_alert_witness :
  AlertService.alerts heldService !! "alert-1000-0"
    = Some (fst (AlertService.createAlert "BinaryMarket Deployment Failed"
                   "Deployment failed: nonce too low" AlertService.WARNING
                   "deployment-queue" [] 1000 sampleAlertService)) /\
  AlertService.alerts heldService !! "alert-1000-1" = None.
Proof.
  destruct (createAlert_stores_the_alert (Data := unit) "BinaryMarket Deployment Failed"
              "Deployment failed: nonce too low" AlertService.WARNING
              "deployment-queue" [] 1000 sampleAlertService) as (L & _ & _ & _ & _ & _ & _ & O & _).
  split; [exact L|].
  unfold heldService. rewrite O; [reflexivity | vm_compute; discriminate].
Defined.

Lemma rules_behave_as_a_map_witness :
  AlertService.removeRule "gas-spike"
    (AlertService.addRule gasSpikeRule sampleAlertService) = sampleAlertService /\
  List.NoDup (ruleIds (AlertService.addRule gasSpikeRule
                         (AlertService.addRule gasSpikeRule sampleAlertService))).
Proof.
  split.
  - apply (rules_behave_as_a_map gasSpikeRule "gas-spike" sampleAlertService).
    intros [].
  - destruct (rules_behave_as_a_map gasSpikeRule "gas-spike"
                (AlertService.addRule gasSpikeRule sampleAlertService))
      as (_ & _ & _ & _ & N).
    apply N. cbn. constructor; [intros []|constructor].
Defined.

(** *** Queues for whole runs *)











(** ** The batch processor: one alert per job *)

Section BatchAlerts.
Import DeploymentQueue.
Context {Data Store : Type}.
Variable updateQueueItemStatus : string -> string -> Store -> Exc Store.
Variable saveDeploymentResult :
  DeploymentQueueItem -> BlockchainDeployment.DeploymentResult -> Store -> Exc Store.
Variable deployConfig : BlockchainDeployment.DeploymentConfig.
Variable chainFor : DeploymentQueueItem -> Z -> BlockchainDeployment.Chain.

Local Abbreviation State := (@DeploymentQueue.State Data Store).
Local Abbreviation processQueueItem :=
  (@DeploymentQueue.processQueueItem Data Store updateQueueItemStatus
     saveDeploymentResult deployConfig chainFor).
Local Abbreviation processItems :=
  (@DeploymentQueue.processItems Data Store updateQueueItemStatus
     saveDeploymentResult deployConfig chainFor).
Local Abbreviation deploy := (DeploymentQueue.deploy deployConfig chainFor).

Lemma processItems_alerts :
  storeAccepts updateQueueItemStatus saveDeploymentResult ->
  forall (items : list DeploymentQueueItem) (st : State),
  exists st',
    processItems items st = (Ok tt, st') /\
    isProcessing st' = isProcessing st /\
    batchSize st' = batchSize st /\
    AlertService.randomUsed (alertService st')
      = (AlertService.randomUsed (alertService st) + length items)%nat.
Proof.
  intros Hstore. induction items as [|item items IH]; intros st.
  - exists st. cbn. repeat split. lia.
  - destruct (processQueueItem_alert updateQueueItemStatus saveDeploymentResult
                deployConfig chainFor item st Hstore) as (item' & st1 & E & P & B & A).
    destruct (IH st1) as (st' & E' & P' & B' & U').
    exists st'. cbn [DeploymentQueue.processItems]. rewrite E.
    split; [exact E'|]. split; [congruence|]. split; [congruence|].
    rewrite U', (oneMoreAlert_randomUsed _ _ _ A). cbn [length]. lia.
Qed.

(** X24.  When the job store accepts every write, no job stops the batch:
    [processQueueItem] never rejects, whether the deployment succeeds or
    fails, and creates exactly one alert, INFO for a deployment that
    succeeded and WARNING for one that failed.  The loop over a batch
    therefore handles every job and has created as many alerts as the batch
    has jobs. *)
Theorem processItems_one_alert_per_job :
  storeAccepts updateQueueItemStatus saveDeploymentResult ->
  forall (items : list DeploymentQueueItem) (st : State),
    (forall item,
        exists item' st',
          processQueueItem item st = (Ok tt, item', st') /\
          oneMoreAlert
            (if Js.is_ok (fst (deploy item (clock st)))
             then AlertService.INFO else AlertService.WARNING)
            (alertService st) (alertService st')) /\
    exists st',
      processItems items st = (Ok tt, st') /\
      isProcessing st' = isProcessing st /\
      batchSize st' = batchSize st /\
      AlertService.randomUsed (alertService st')
        = (AlertService.randomUsed (alertService st) + length items)%nat.
Proof.
  intros Hstore items st. split.
  - intros item.
    destruct (processQueueItem_alert updateQueueItemStatus saveDeploymentResult
                deployConfig chainFor item st Hstore) as (item' & st' & E & _ & _ & A).
    exists item', st'. split; assumption.
  - apply processItems_alerts, Hstore.
Qed.

End BatchAlerts.


(** ** The batch processor: a whole run without store errors *)

Section WholeRun.
Import DeploymentQueue.
Context {Data Store : Type}.
Variable getQueueItems : string -> Z -> Store -> Exc (list DeploymentQueueItem).
Variable updateQueueItemStatus : string -> string -> Store -> Exc Store.
Variable saveDeploymentResult :
  DeploymentQueueItem -> BlockchainDeployment.DeploymentResult -> Store -> Exc Store.
Variable deployConfig : BlockchainDeployment.DeploymentConfig.
Variable chainFor : DeploymentQueueItem -> Z -> BlockchainDeployment.Chain.

Local Abbreviation State := (@DeploymentQueue.State Data Store).
Local Abbreviation processQueue :=
  (@DeploymentQueue.processQueue Data Store getQueueItems updateQueueItemStatus
     saveDeploymentResult deployConfig chainFor).
Local Abbreviation processItems :=
  (@DeploymentQueue.processItems Data Store updateQueueItemStatus
     saveDeploymentResult deployConfig chainFor).
Local Abbreviation retryItems :=
  (@DeploymentQueue.retryItems Data Store updateQueueItemStatus
     saveDeploymentResult deployConfig chainFor).

(** The job store answers every fetch. *)
Definition storeAnswers : Prop :=
  forall status limit s, exists items, getQueueItems status limit s = Ok items.

(** The failed jobs that still have retries left. *)
Definition retriable (items : list DeploymentQueueItem) : list DeploymentQueueItem :=
  List.filter (fun item => retryCount item <? maxRetries item) items.

Lemma retryItems_alerts :
  storeAccepts updateQueueItemStatus saveDeploymentResult ->
  forall (items : list DeploymentQueueItem) (st : State),
  exists st',
    retryItems items st = (Ok tt, st') /\
    isProcessing st' = isProcessing st /\
    AlertService.randomUsed (alertService st')
      = (AlertService.randomUsed (alertService st) + length (retriable items))%nat.
Proof.
  intros Hstore. induction items as [|item items IH]; intros st.
  - exists st. cbn. repeat split. lia.
  - cbn [DeploymentQueue.retryItems retriable List.filter].
    unfold DeploymentQueue.retryOne.
    destruct (retryCount item <? maxRetries item).
    + unfold retryQueueItem.
      destruct (processQueueItem_alert updateQueueItemStatus saveDeploymentResult
                  deployConfig chainFor
                  (set_retryCount (retryCount item + 1) item) st Hstore)
        as (item' & st1 & E & P & _ & A).
      rewrite E. destruct (IH st1) as (st' & E' & P' & U').
      exists st'. split; [exact E'|]. split; [congruence|].
      fold (retriable items). rewrite U', (oneMoreAlert_randomUsed _ _ _ A).
      cbn [length]. lia.
    + unfold markQueueItemFailed, updateStatus.
      destruct (proj1 Hstore (id item) "failed" (store st)) as [s' ->].
      destruct (IH (set_store s' st)) as (st' & E' & P' & U').
      exists st'. split; [exact E'|]. split; [exact P' | exact U'].
Qed.

(** X25.  A run of [processQueue] on an idle processor whose job store
    answers every fetch and accepts every write never ends in the error
    branch, however many deployments fail.  It ends at the empty-batch
    return, with nothing changed, when no job is pending; otherwise it
    completes, with [isProcessing] cleared, having created one alert for each
    pending job and one for each failed job it retried, those with
    [retryCount < maxRetries]. *)
Theorem processQueue_completes_without_store_errors :
  storeAnswers ->
  storeAccepts updateQueueItemStatus saveDeploymentResult ->
  forall st : State,
    isProcessing st = false ->
    exists pendingItems,
      getQueueItems "pending" (batchSize st) (store st) = Ok pendingItems /\
      match pendingItems with
      | [] => processQueue st = (EmptyBatch, st)
      | _ :: _ =>
          exists st' failedItems,
            processQueue st = (BatchDone, st') /\
            isProcessing st' = false /\
            getQueueItems "failed" (batchSize st)
              (store (snd (processItems pendingItems (set_isProcessing true st))))
              = Ok failedItems /\
            AlertService.randomUsed (alertService st')
              = (AlertService.randomUsed (alertService st)
                 + length pendingItems + length (retriable failedItems))%nat
      end.
Proof.
  intros Hfetch Hstore st Hidle.
  destruct (Hfetch "pending" (batchSize st) (store st)) as [pendingItems Hp].
  exists pendingItems. split; [exact Hp|].
  unfold DeploymentQueue.processQueue, processQueue_try. rewrite Hidle.
  cbn [batchSize store set_isProcessing]. rewrite Hp.
  destruct pendingItems as [|item items]; cbn [length Nat.eqb].
  - destruct st; cbn in *; subst; reflexivity.
  - destruct (processItems_alerts updateQueueItemStatus saveDeploymentResult
                deployConfig chainFor Hstore (item :: items) (set_isProcessing true st))
      as (st1 & E1 & P1 & B1 & U1).
    rewrite E1. cbn [snd].
    destruct (Hfetch "failed" (batchSize st1) (store st1)) as [failedItems Hf].
    rewrite Hf.
    destruct (retryItems_alerts Hstore failedItems st1) as (st2 & E2 & P2 & U2).
    rewrite E2.
    exists (set_isProcessing false st2), failedItems.
    split; [reflexivity|]. split; [reflexivity|].
    split; [cbn [batchSize set_isProcessing] in B1; rewrite <- B1; exact Hf|].
    cbn [alertService set_isProcessing]. rewrite U2, U1. reflexivity.
Qed.

End WholeRun.

(** The job table of the examples, reachable at every call. *)
Definition reachable (s : DeploymentQueue.Table.Store) : DeploymentQueue.Table.Store :=
  tableOf (DeploymentQueue.Table.rows s) false.

Definition reachableProcessQueue (chain : BlockchainDeployment.Chain) :=
  @DeploymentQueue.processQueue unit _
    (fun status limit s => DeploymentQueue.Table.getQueueItems status limit (reachable s))
    (fun itemId status s =>
       DeploymentQueue.Table.updateQueueItemStatus itemId status (reachable s))
    (fun item result s =>
       DeploymentQueue.Table.saveDeploymentResult item result (reachable s))
    sampleDeploymentConfig (fun _ _ => chain).

Lemma processQueue_completes_without_store_errors_witness :
  exists st',
    reachableProcessQueue brokeChain (sampleState false (tableOf [pendingJob] false))
      = (DeploymentQueue.BatchDone, st') /\
    AlertService.randomUsed (DeploymentQueue.alertService st') = 2%nat.
Proof.
  destruct (processQueue_completes_without_store_errors
              (fun status limit s =>
                 DeploymentQueue.Table.getQueueItems status limit (reachable s))
              (fun itemId status s =>
                 DeploymentQueue.Table.updateQueueItemStatus itemId status (reachable s))
              (fun item result s =>
                 DeploymentQueue.Table.saveDeploymentResult item result (reachable s))
              sampleDeploymentConfig (fun _ _ => brokeChain)
              ltac:(intros status limit s; eexists; reflexivity)
              ltac:(split; intros; eexists; reflexivity)
              (sampleState (Store := DeploymentQueue.Table.Store) false
                 (tableOf [pendingJob] false))
              ltac:(reflexivity))
    as (pendingItems & Hp & H).
  vm_compute in Hp. injection Hp as <-.
  destruct H as (st' & failedItems & E & _ & Hf & U).
  exists st'. split; [exact E|].
  rewrite U. vm_compute in Hf. injection Hf as <-. reflexivity.
Defined.

(** X26.  With the data-access methods as the source has them, which
    return no rows and store nothing, every call of [processQueue] on an
    idle processor ends at the empty-batch return: no job is deployed, no
    alert is created and the processor is left exactly as it was, whatever
    the configuration and the ledger. *)
Theorem processQueue_placeholders_process_nothing :
  forall (Data : Type) (deployConfig : BlockchainDeployment.DeploymentConfig)
         (chainFor : DeploymentQueue.DeploymentQueueItem -> Z -> BlockchainDeployment.Chain)
         (st : @DeploymentQueue.State Data DeploymentQueue.Stub.Store),
    DeploymentQueue.processQueue
      DeploymentQueue.Stub.getQueueItems
      DeploymentQueue.Stub.updateQueueItemStatus
      DeploymentQueue.Stub.saveDeploymentResult
      deployConfig chainFor st
    = (if DeploymentQueue.isProcessing st
       then DeploymentQueue.AlreadyProcessing else DeploymentQueue.EmptyBatch,
       st).
Proof.
  intros Data deployConfig chainFor st.
  unfold DeploymentQueue.processQueue.
  destruct st as [[|] b a s c]; reflexivity.
Qed.

Lemma processItems_one_alert_per_job_witness :
  exists st',
    DeploymentQueue.processItems
      DeploymentQueue.Stub.updateQueueItemStatus
      DeploymentQueue.Stub.saveDeploymentResult
      sampleDeploymentConfig (fun _ _ => brokeChain)
      [pendingJob; untitledJob] (sampleState false tt) = (Ok tt, st') /\
    AlertService.randomUsed (DeploymentQueue.alertService st') = 2%nat.
Proof.
  destruct (processItems_one_alert_per_job
              DeploymentQueue.Stub.updateQueueItemStatus
              DeploymentQueue.Stub.saveDeploymentResult
              sampleDeploymentConfig (fun _ _ => brokeChain)
              ltac:(split; intros; eexists; reflexivity)
              [pendingJob; untitledJob] (sampleState (Store := unit) false tt))
    as [_ (st' & E & _ & _ & U)].
  exists st'. split; [exact E | exact U].
Defined.

(** ** The deployment validator *)

(** X27.  The verdict of [validateTransaction].  It never rejects; it
    calls a transaction invalid when the provider rejects, when the
    transaction is unknown and when its receipt has status 0, and in no
    other case.  In particular a transaction that has no receipt yet is
    valid, with the warning "Transaction not yet confirmed". *)
Theorem validateTransaction_verdict :
  forall (getTransaction : Exc (option string))
         (getTransactionReceipt : Exc (option BlockchainDeployment.Receipt))
         (gasLimit : option Z) (toFixed2 : JsNumber.number -> string),
    let verdict :=
      DeploymentValidator.validateTransaction getTransaction getTransactionReceipt
        gasLimit toFixed2 in
    DeploymentValidator.isValid verdict
      = match getTransaction, getTransactionReceipt with
        | Ok (Some _), Ok None => true
        | Ok (Some _), Ok (Some receipt) =>
            negb (BlockchainDeployment.r_status receipt =? 0)
        | _, _ => false
        end /\
    (DeploymentValidator.isValid verdict = true <->
       DeploymentValidator.errors verdict = []) /\
    match getTransaction, getTransactionReceipt with
    | Ok (Some _), Ok None =>
        DeploymentValidator.warnings verdict = ["Transaction not yet confirmed"]
    | Ok (Some _), Ok (Some receipt) =>
        (BlockchainDeployment.r_status receipt = 0 ->
           DeploymentValidator.errors verdict = ["Transaction failed (status = 0)"])
    | _, _ => DeploymentValidator.warnings verdict = []
    end.
Proof.
  intros getTransaction getTransactionReceipt gasLimit toFixed2 verdict.
  subst verdict. unfold DeploymentValidator.validateTransaction.
  destruct getTransaction as [[tx|]|e]; cbn;
    try (split; [reflexivity|]; split; [split; [discriminate|discriminate]|reflexivity]).
  destruct getTransactionReceipt as [[receipt|]|e]; cbn;
    try (split; [reflexivity|]; split; [split; [discriminate|discriminate]|reflexivity]);
    try (split; [reflexivity|]; split; [split; reflexivity|reflexivity]).
  destruct (BlockchainDeployment.r_status receipt =? 0) eqn:S0; cbn.
  - split; [reflexivity|]. split; [split; discriminate|]. reflexivity.
  - split; [reflexivity|]. split; [split; reflexivity|].
    intros H. rewrite H in S0. discriminate.
Qed.

Lemma validateTransaction_verdict_witness :
  DeploymentValidator.isValid
    (DeploymentValidator.validateTransaction (Ok (Some "0xa1b2")) (Ok None) None
       (fun _ => "")) = true /\
  DeploymentValidator.errors
    (DeploymentValidator.validateTransaction (Ok (Some "0xa1b2"))
       (receiptOf sampleStart 0 "0xa1b2" sampleStart) None (fun _ => ""))
    = ["Transaction failed (status = 0)"].
Proof.
  split.
  - apply (proj1 (validateTransaction_verdict (Ok (Some "0xa1b2")) (Ok None) None
                    (fun _ => ""))).
  - destruct (validateTransaction_verdict (Ok (Some "0xa1b2"))
                (receiptOf sampleStart 0 "0xa1b2" sampleStart) None (fun _ => ""))
      as (_ & _ & R).
    apply R. reflexivity.
Defined.

(** *** The oracle whitelist *)

Section OracleWhitelist.
Import DeploymentValidator.
Variable isAddress : string -> bool.
Variable toLowerCase : string -> string.
Hypothesis toLowerCase_idempotent :
  forall s, toLowerCase (toLowerCase s) = toLowerCase s.

(** Every entry of the whitelist is in lower case, as [setOracleWhitelist]
    and [addOracleToWhitelist] store them. *)
Definition lowerCased (oracleConfig : OracleConfig) : Prop :=
  Forall (fun w => toLowerCase w = w) (whitelist oracleConfig).

(** [validateOracleAddress(address).isValid] *)
Definition whitelisted (address : string) (oracleConfig : OracleConfig) : bool :=
  isValid (validateOracleAddress isAddress toLowerCase address oracleConfig).

Lemma whitelisted_iff address oracleConfig :
  whitelisted address oracleConfig = true <->
  isAddress address = true /\
  exists w, In w (whitelist oracleConfig) /\ toLowerCase w = toLowerCase address.
Proof.
  unfold whitelisted, validateOracleAddress.
  destruct (isAddress address); cbn [negb isValid].
  2:{ split; [discriminate | intros [? _]; discriminate]. }
  destruct (existsb _ _) eqn:E; cbn.
  - split; [|reflexivity]. intros _. split; [reflexivity|].
    apply existsb_exists in E as (w & Hw & Heq).
    exists w. split; [exact Hw | apply String.eqb_eq, Heq].
  - split; [discriminate|]. intros [_ (w & Hw & Heq)].
    assert (existsb (fun whitelistedAddress =>
              String.eqb (toLowerCase whitelistedAddress) (toLowerCase address))
              (whitelist oracleConfig) = true); [|congruence].
    apply existsb_exists. exists w. split; [exact Hw | apply String.eqb_eq, Heq].
Qed.

Lemma includes_In a l : includes a l = true <-> In a l.
Proof.
  unfold includes. rewrite existsb_exists. split.
  - intros (x & Hx & E). apply String.eqb_eq in E. subst. exact Hx.
  - intros H. exists a. split; [exact H | apply String.eqb_refl].
Qed.

(** X28.  The whitelist operations agree with the validation.  An address
    added with [addOracleToWhitelist] is accepted by [validateOracleAddress]
    in any capitalisation; adding it again changes nothing, and an invalid
    address is never added.  On a whitelist kept in lower case, which
    [setOracleWhitelist], [addOracleToWhitelist] and
    [removeOracleFromWhitelist] all preserve, an address removed with
    [removeOracleFromWhitelist] is refused in any capitalisation. *)
Theorem oracle_whitelist_round_trip :
  forall (address : string) (oracleConfig : OracleConfig),
    let added := addOracleToWhitelist isAddress toLowerCase address oracleConfig in
    let removed := removeOracleFromWhitelist toLowerCase address oracleConfig in
    (isAddress address = true ->
       forall other, isAddress other = true ->
         toLowerCase other = toLowerCase address -> whitelisted other added = true) /\
    (isAddress address = false -> added = oracleConfig) /\
    addOracleToWhitelist isAddress toLowerCase address added = added /\
    (forall entries,
       lowerCased (setOracleWhitelist toLowerCase entries oracleConfig) /\
       getOracleWhitelist (setOracleWhitelist toLowerCase entries oracleConfig)
         = List.map toLowerCase entries) /\
    (lowerCased oracleConfig ->
       lowerCased added /\ lowerCased removed /\
       forall other, toLowerCase other = toLowerCase address ->
         whitelisted other removed = false).
Proof.
  intros address oracleConfig added removed. subst added removed.
  split; [|split; [|split; [|split]]].
  - intros Ha other Ho Heq. apply whitelisted_iff. split; [exact Ho|].
    exists (toLowerCase address). rewrite toLowerCase_idempotent.
    split; [|symmetry; exact Heq].
    unfold addOracleToWhitelist. rewrite Ha.
    destruct (includes (toLowerCase address) (whitelist oracleConfig)) eqn:I; cbn.
    + apply includes_In, I.
    + apply in_or_app. right. left. reflexivity.
  - intros Ha. unfold addOracleToWhitelist. rewrite Ha. reflexivity.
  - unfold addOracleToWhitelist. destruct (isAddress address) eqn:Ha; [|reflexivity].
    destruct (includes (toLowerCase address) (whitelist oracleConfig)) eqn:I;
      cbn [negb whitelist].
    + rewrite I. reflexivity.
    + assert (I' : includes (toLowerCase address)
                     (whitelist oracleConfig ++ [toLowerCase address]) = true).
      { apply includes_In, in_or_app. right. left. reflexivity. }
      rewrite I'. reflexivity.
  - intros entries. split; [|reflexivity].
    unfold lowerCased, setOracleWhitelist. cbn. apply Forall_forall.
    intros w Hw. apply list_elem_of_In, in_map_iff in Hw as (x & <- & _).
    apply toLowerCase_idempotent.
  - intros L. split; [|split].
    + unfold lowerCased, addOracleToWhitelist.
      destruct (isAddress address); [|exact L].
      destruct (includes _ _); cbn; [exact L|].
      apply Forall_app. split; [exact L|].
      constructor; [apply toLowerCase_idempotent | constructor].
    + unfold lowerCased, removeOracleFromWhitelist. cbn.
      apply Forall_forall. intros w Hw.
      apply list_elem_of_In, List.filter_In in Hw as [Hw _].
      unfold lowerCased in L. rewrite Forall_forall in L.
      apply L, list_elem_of_In, Hw.
    + intros other Heq.
      destruct (whitelisted other (removeOracleFromWhitelist toLowerCase address oracleConfig))
        eqn:W; [|reflexivity].
      exfalso. apply whitelisted_iff in W as [_ (w & Hw & Hweq)].
      cbn in Hw. apply List.filter_In in Hw as [Hw Hne].
      unfold lowerCased in L. rewrite Forall_forall in L.
      pose proof (L w ltac:(apply list_elem_of_In, Hw)) as Lw.
      rewrite Lw, Heq in Hweq. subst w.
      rewrite String.eqb_refl in Hne. discriminate.
Qed.

End OracleWhitelist.

(** Lower case on the ASCII letters. *)
Definition asciiLower (c : Ascii.ascii) : Ascii.ascii :=
  let n := Ascii.nat_of_ascii c in
  if ((65 <=? n) && (n <=? 90))%nat then Ascii.ascii_of_nat (n + 32) else c.

Fixpoint lowerAscii (s : string) : string :=
  match s with
  | EmptyString => EmptyString
  | String c r => String (asciiLower c) (lowerAscii r)
  end.

Lemma lowerAscii_idempotent s : lowerAscii (lowerAscii s) = lowerAscii s.
Proof.
  induction s as [|c r IH]; [reflexivity|]. cbn [lowerAscii]. rewrite IH. f_equal.
  destruct c as [[|] [|] [|] [|] [|] [|] [|] [|]]; reflexivity.
Qed.

Definition sampleOracleConfig : DeploymentValidator.OracleConfig :=
  {| DeploymentValidator.whitelist := ["0x70997970c51812dc3a010c7d01b50e0d17dc79c8"];
     DeploymentValidator.maxAge := 3600 |}.

Lemma oracle_whitelist_round_trip_witness :
  let oracle := "0x3C44CdDdB6a900fa2b585dd299e03d12FA4293BC" in
  whitelisted isHexAddress lowerAscii "0x3c44cdddb6a900fa2b585dd299e03d12fa4293bc"
    (DeploymentValidator.addOracleToWhitelist isHexAddress lowerAscii oracle
       sampleOracleConfig) = true /\
  whitelisted isHexAddress lowerAscii "0x70997970C51812dc3A010C7d01b50e0d17dc79C8"
    (DeploymentValidator.removeOracleFromWhitelist lowerAscii
       "0x70997970C51812DC3A010C7D01B50E0D17DC79C8" sampleOracleConfig) = false.
Proof.
  cbn zeta. split.
  - apply (proj1 (oracle_whitelist_round_trip isHexAddress lowerAscii lowerAscii_idempotent
                    "0x3C44CdDdB6a900fa2b585dd299e03d12FA4293BC" sampleOracleConfig));
      reflexivity.
  - destruct (oracle_whitelist_round_trip isHexAddress lowerAscii lowerAscii_idempotent
                "0x70997970C51812DC3A010C7D01B50E0D17DC79C8" sampleOracleConfig)
      as (_ & _ & _ & _ & R).
    apply R; [|reflexivity].
    constructor; [reflexivity | constructor].
Defined.

(** ** Whole numbers in double arithmetic *)

Section WholeNumbers.
Import JsNumber.

(** The double of value [z * 2^e], for a positive [z] of at most 53 binary
    digits: the significand is [z] shifted up to 53 digits. *)
Definition dyadic (z e : Z) : number :=
  S754_finite false (Z.to_pos (z * 2 ^ (53 - Zdigits2 z))) (e + Zdigits2 z - 53).

Lemma binary_round_dyadic p E z s :
  0 < z -> 0 <= s -> Zpos p = z * 2 ^ s -> Zdigits2 z <= 53 ->
  -1074 <= E + s + Zdigits2 z - 53 <= 971 ->
  binary_round prec emax false p E = dyadic z (E + s).
Proof.
  intros Hz Hs Hp Hd Hr.
  destruct z as [|pz|pz]; try lia.
  pose proof (Zdigits2_pos_pos pz) as Hd1.
  assert (Dp : Zdigits2 (Zpos p) = Zdigits2 (Zpos pz) + s)
    by (rewrite Hp; apply Zdigits2_shift; lia).
  unfold binary_round.
  pose proof (shl_align_spec p E (fexp prec emax (Zpos (digits2_pos p) + E))) as S.
  destruct (shl_align p E (fexp prec emax (Zpos (digits2_pos p) + E))) as [mz ez].
  destruct S as [Hez Hmz].
  change (Zpos (digits2_pos p)) with (Zdigits2 (Zpos p)) in Hez.
  rewrite fexp_eq, Dp in Hez.
  rewrite binary_round_aux_eq. unfold roundedFloat, dyadic.
  set (dz := Zdigits2 (Zpos pz)) in *.
  assert (Dm : Zdigits2 (Zpos mz) = dz + s + (E - ez)).
  { rewrite Hmz, Zdigits2_shift by lia. lia. }
  assert (K : gridShift (Zpos mz) ez = dz + s + E - 53 - ez).
  { unfold gridShift. rewrite Dm, fexp_eq. lia. }
  assert (P53 : 0 < 2 ^ (53 - dz)) by (apply Z.pow_pos_nonneg; lia).
  assert (R : rneZ (Zpos mz) (gridShift (Zpos mz) ez) = Zpos pz * 2 ^ (53 - dz)).
  { rewrite K. destruct (Z.le_gt_cases (dz + s + E - 53) E) as [Hle|Hgt].
    - replace (dz + s + E - 53 - ez) with 0 by lia.
      change (rneZ (Zpos mz) 0) with (Zpos mz).
      rewrite Hmz, Hp, <- Z.mul_assoc, <- Z.pow_add_r by lia.
      f_equal. f_equal. lia.
    - assert (Ee : ez = E) by lia. clear Hez. rewrite Ee in *.
      replace (Zpos mz) with (Zpos pz * 2 ^ (53 - dz) * 2 ^ (dz + s + E - 53 - E)).
      + apply rneZ_exact. lia.
      + rewrite Hmz, Hp, Z.sub_diag, Z.mul_1_r, <- Z.mul_assoc, <- Z.pow_add_r by lia.
        f_equal. f_equal. lia. }
  rewrite R.
  assert (B : Zpos pz * 2 ^ (53 - dz) < 2 ^ 53).
  { pose proof (Zdigits2_bounds pz) as [_ Hhi]. fold dz in Hhi.
    replace (2 ^ 53) with (2 ^ dz * 2 ^ (53 - dz))
      by (rewrite <- Z.pow_add_r by lia; f_equal; lia).
    apply Z.mul_lt_mono_pos_r; assumption. }
  destruct (Zpos pz * 2 ^ (53 - dz)) as [|m'|m'] eqn:Em; try lia.
  destruct (Z.eqb_spec (Zpos m') (2 ^ 53)); [lia|].
  rewrite K.
  destruct (Z.leb_spec (ez + (dz + s + E - 53 - ez)) 971); [|lia].
  f_equal; lia.
Qed.

Lemma Number_0 : Number 0 = S754_zero false.
Proof. reflexivity. Qed.

Lemma Number_dyadic z : 0 < z < 2 ^ 53 -> Number z = dyadic z 0.
Proof.
  intros [Hz Hlt]. destruct z as [|p|p]; try lia.
  pose proof (Zdigits2_le p 53 ltac:(lia) Hlt).
  pose proof (Zdigits2_pos_pos p).
  unfold Number, binary_normalize.
  rewrite (binary_round_dyadic p 0 (Zpos p) 0);
    [reflexivity | lia | lia | rewrite Z.mul_1_r; reflexivity | lia | lia].
Qed.

Lemma dyadic_significand z :
  0 < z -> Zdigits2 z <= 53 ->
  Zpos (Z.to_pos (z * 2 ^ (53 - Zdigits2 z))) = z * 2 ^ (53 - Zdigits2 z).
Proof.
  intros Hz Hd. apply Z2Pos.id. apply Z.mul_pos_pos; [exact Hz|].
  apply Z.pow_pos_nonneg; lia.
Qed.

Lemma digits_small z : 0 < z < 2 ^ 53 -> 1 <= Zdigits2 z <= 53.
Proof.
  intros [Hz Hlt]. destruct z as [|p|p]; try lia. split.
  - apply Zdigits2_pos_pos.
  - apply Zdigits2_le; [lia | exact Hlt].
Qed.

(** Comparison of whole numbers below 2^53 is the comparison of integers. *)
Lemma compare_Number a b :
  0 <= a < 2 ^ 53 -> 0 <= b < 2 ^ 53 ->
  SFcompare (Number a) (Number b) = Some (a ?= b).
Proof.
  intros Ha Hb.
  destruct (Z.eq_dec a 0) as [->|Na]; destruct (Z.eq_dec b 0) as [->|Nb].
  - reflexivity.
  - rewrite Number_0, (Number_dyadic b) by lia.
    destruct b as [|pb|pb]; try lia. reflexivity.
  - rewrite Number_0, (Number_dyadic a) by lia.
    destruct a as [|pa|pa]; try lia. reflexivity.
  - rewrite (Number_dyadic a), (Number_dyadic b) by lia.
    pose proof (digits_small a ltac:(lia)) as Da.
    pose proof (digits_small b ltac:(lia)) as Db.
    unfold dyadic. cbn [SFcompare]. f_equal.
    destruct a as [|pa|pa]; try lia. destruct b as [|pb|pb]; try lia.
    pose proof (Zdigits2_bounds pa) as [La Ua].
    pose proof (Zdigits2_bounds pb) as [Lb Ub].
    destruct (Z.compare_spec (0 + Zdigits2 (Zpos pa) - 53) (0 + Zdigits2 (Zpos pb) - 53))
      as [He|Hl|Hg].
    + assert (Ed : Zdigits2 (Zpos pa) = Zdigits2 (Zpos pb)) by lia.
      rewrite Ed.
      change (Pos.compare_cont Eq ?x ?y) with (Z.compare (Zpos x) (Zpos y)).
      rewrite <- Ed at 1.
      rewrite !dyadic_significand by lia. rewrite Ed.
      assert (C : 0 < 2 ^ (53 - Zdigits2 (Zpos pb))) by (apply Z.pow_pos_nonneg; lia).
      destruct (Z.compare_spec (Zpos pa) (Zpos pb)) as [E|L|G];
        [rewrite E; apply Z.compare_refl
        | apply Z.compare_lt_iff; nia
        | apply Z.compare_gt_iff; nia].
    + symmetry. apply Z.compare_lt_iff.
      assert (2 ^ (Zdigits2 (Zpos pa)) <= 2 ^ (Zdigits2 (Zpos pb) - 1))
        by (apply Z.pow_le_mono_r; lia).
      lia.
    + symmetry. apply Z.compare_gt_iff.
      assert (2 ^ (Zdigits2 (Zpos pb)) <= 2 ^ (Zdigits2 (Zpos pa) - 1))
        by (apply Z.pow_le_mono_r; lia).
      lia.
Qed.

Lemma ltb_Number a b :
  0 <= a < 2 ^ 53 -> 0 <= b < 2 ^ 53 -> ltb (Number a) (Number b) = (a <? b).
Proof.
  intros Ha Hb. unfold ltb, SFltb, Z.ltb. rewrite compare_Number by assumption.
  destruct (a ?= b); reflexivity.
Qed.

Lemma leb_Number a b :
  0 <= a < 2 ^ 53 -> 0 <= b < 2 ^ 53 -> leb (Number a) (Number b) = (a <=? b).
Proof.
  intros Ha Hb. unfold leb, SFleb, Z.leb. rewrite compare_Number by assumption.
  destruct (a ?= b); reflexivity.
Qed.

(** The sum of two whole numbers is exact as long as it stays below 2^53. *)
Lemma add_Number a b :
  0 <= a -> 0 <= b -> a + b < 2 ^ 53 ->
  add (Number a) (Number b) = Number (a + b).
Proof.
  intros Ha Hb Hs.
  destruct (Z.eq_dec a 0) as [->|Na].
  { rewrite Z.add_0_l. destruct (Z.eq_dec b 0) as [->|Nb]; [reflexivity|].
    rewrite Number_0, (Number_dyadic b) by lia. reflexivity. }
  destruct (Z.eq_dec b 0) as [->|Nb].
  { rewrite Z.add_0_r, Number_0, (Number_dyadic a) by lia. reflexivity. }
  pose proof (digits_small a ltac:(lia)) as Da.
  pose proof (digits_small b ltac:(lia)) as Db.
  pose proof (digits_small (a + b) ltac:(lia)) as Dc.
  rewrite (Number_dyadic a), (Number_dyadic b), (Number_dyadic (a + b)) by lia.
  unfold dyadic at 1 2. unfold add, SFadd. cbn [cond_Zopp].
  set (ea := 0 + Zdigits2 a - 53). set (eb := 0 + Zdigits2 b - 53).
  set (ma := Z.to_pos (a * 2 ^ (53 - Zdigits2 a))).
  set (mb := Z.to_pos (b * 2 ^ (53 - Zdigits2 b))).
  pose proof (shl_align_spec ma ea (Z.min ea eb)) as Sa.
  pose proof (shl_align_spec mb eb (Z.min ea eb)) as Sb.
  destruct (shl_align ma ea (Z.min ea eb)) as [ma' ea'].
  destruct (shl_align mb eb (Z.min ea eb)) as [mb' eb'].
  destruct Sa as [Ea Ma]. destruct Sb as [Eb Mb]. cbn [fst].
  assert (Ez : Z.min ea eb <= 0) by (subst ea eb; lia).
  assert (Pa : Zpos ma = a * 2 ^ (53 - Zdigits2 a))
    by (subst ma; apply dyadic_significand; lia).
  assert (Pb : Zpos mb = b * 2 ^ (53 - Zdigits2 b))
    by (subst mb; apply dyadic_significand; lia).
  assert (Sum : Zpos ma' + Zpos mb' = (a + b) * 2 ^ (- Z.min ea eb)).
  { rewrite Ma, Mb, Pa, Pb, Ea, Eb.
    rewrite <- !Z.mul_assoc, <- !Z.pow_add_r by (subst ea eb; lia).
    rewrite Z.mul_add_distr_r. f_equal; f_equal; f_equal; subst ea eb; lia. }
  change (Zpos ma' + Zpos mb') with (Zpos (ma' + mb')) in *.
  unfold binary_normalize.
  rewrite (binary_round_dyadic (ma' + mb') (Z.min ea eb) (a + b) (- Z.min ea eb));
    [f_equal; lia | lia | lia | exact Sum | lia | lia].
Qed.

(** Half of a whole number below 2^53, rounded down. *)
Lemma half_Number s :
  0 < s < 2 ^ 53 ->
  Math_floor (div (Number s) (Number 2)) = Number (s / 2).
Proof.
  intros Hs.
  pose proof (digits_small s Hs) as Ds.
  rewrite (Number_dyadic s) by lia.
  change (Number 2) with (S754_finite false 4503599627370496 (-51)).
  unfold dyadic, div, SFdiv, SFdiv_core_binary. cbn [xorb].
  set (ms := Z.to_pos (s * 2 ^ (53 - Zdigits2 s))).
  assert (Pm : Zpos ms = s * 2 ^ (53 - Zdigits2 s))
    by (subst ms; apply dyadic_significand; lia).
  assert (P53 : 0 < 2 ^ (53 - Zdigits2 s)) by (apply Z.pow_pos_nonneg; lia).
  assert (Dm : Zdigits2 (Zpos ms) = 53).
  { rewrite Pm. destruct s as [|ps|ps]; try lia.
    rewrite Zdigits2_shift by lia. lia. }
  rewrite Dm. change (Zdigits2 4503599627370496) with 53.
  rewrite fexp_eq.
  replace (Z.min (Z.max (53 + (0 + Zdigits2 s - 53) - (53 + -51) - 53) (-1074))
             (0 + Zdigits2 s - 53 - -51)) with (Zdigits2 s - 55) by lia.
  replace (0 + Zdigits2 s - 53 - -51 - (Zdigits2 s - 55)) with 53 by lia.
  rewrite Z.shiftl_mul_pow2 by lia.
  assert (Dv : Z.div_eucl (Zpos ms * 2 ^ 53) 4503599627370496 = (2 * Zpos ms, 0)).
  { pose proof (Z.div_eucl_eq (Zpos ms * 2 ^ 53) 4503599627370496 ltac:(lia)) as E.
    pose proof (Z.mod_pos_bound (Zpos ms * 2 ^ 53) 4503599627370496 ltac:(lia)) as B.
    unfold Z.modulo in B.
    destruct (Z.div_eucl (Zpos ms * 2 ^ 53) 4503599627370496) as [q r].
    change (2 ^ 53) with (2 * 4503599627370496) in E.
    assert (q = 2 * Zpos ms /\ r = 0) as [-> ->] by nia. reflexivity. }
  rewrite Dv. change (new_location 4503599627370496 0) with loc_Exact.
  change (2 * Zpos ms) with (Zpos (2 * ms)).
  rewrite binary_round_aux_eq. unfold roundedFloat.
  assert (K : gridShift (Zpos (2 * ms)) (Zdigits2 s - 55) = 1).
  { unfold gridShift. rewrite fexp_eq.
    replace (Zdigits2 (Zpos (2 * ms))) with 54; [lia|].
    replace (Zpos (2 * ms)) with (Zpos ms * 2 ^ 1) by lia.
    rewrite Zdigits2_shift by lia. lia. }
  rewrite K.
  replace (rneZ (Zpos (2 * ms)) 1) with (Zpos ms)
    by (replace (Zpos (2 * ms)) with (Zpos ms * 2 ^ 1) by lia; rewrite rneZ_exact; lia).
  assert (B : Zpos ms < 2 ^ 53).
  { pose proof (Zdigits2_bounds ms) as [_ Hhi]. rewrite Dm in Hhi. exact Hhi. }
  destruct (Z.eqb_spec (Zpos ms) (2 ^ 53)); [lia|].
  destruct (Z.leb_spec (Zdigits2 s - 55 + 1) 971); [|lia].
  unfold Math_floor.
  destruct (Z.leb_spec 0 (Zdigits2 s - 55 + 1)); [lia|].
  cbn [cond_Zopp].
  assert (H2 : Zpos ms / 2 ^ (- (Zdigits2 s - 55 + 1)) = s / 2).
  { rewrite Pm.
    replace (2 ^ (- (Zdigits2 s - 55 + 1))) with (2 * 2 ^ (53 - Zdigits2 s)).
    - apply Z.div_mul_cancel_r; lia.
    - replace (- (Zdigits2 s - 55 + 1)) with (1 + (53 - Zdigits2 s)) by lia.
      rewrite Z.pow_add_r by lia. reflexivity. }
  rewrite H2.
  destruct (Z.eqb_spec (s / 2) 0) as [->|]; reflexivity.
Qed.

End WholeNumbers.

(** ** The search for the deployment block *)

Section DeploymentBlock.
Import JsNumber ContractFactory.
Variable isAddress : string -> bool.
Variable provider : Provider.
Variable address : string.

Lemma mid_bounds low high : low < high -> low <= (low + high) / 2 < high.
Proof.
  intros H. split.
  - apply Z.div_le_lower_bound; lia.
  - apply Z.div_lt_upper_bound; lia.
Qed.

(** The midpoint halves the interval. *)
Lemma mid_halves low high :
  low < high ->
  (low + high) / 2 - low <= (high - low) / 2 /\
  high - ((low + high) / 2 + 1) <= (high - low) / 2.
Proof.
  intros H.
  replace (low + high) with ((high - low) + low * 2) by lia.
  rewrite Z.div_add by lia.
  pose proof (Z.div_mod (high - low) 2 ltac:(lia)).
  pose proof (Z.mod_pos_bound (high - low) 2 ltac:(lia)).
  lia.
Qed.

(** One turn of the loop on whole numbers up to 2^52: the arithmetic of
    the source is exact there. *)
Lemma bisect_whole steps low high :
  0 <= low -> low < high -> high <= 2 ^ 52 ->
  bisect provider (S steps) address (Number low) (Number high) =
    match getCode provider address (Number ((low + high) / 2)) with
    | Throw e => Some (Throw e)
    | Ok bytecode =>
        if String.eqb bytecode "0x"
        then bisect provider steps address (Number ((low + high) / 2 + 1)) (Number high)
        else bisect provider steps address (Number low) (Number ((low + high) / 2))
    end.
Proof.
  intros H0 Hlt Hh. pose proof (mid_bounds low high Hlt) as [M1 M2].
  assert (P : 2 ^ 52 + 2 ^ 52 = 2 ^ 53) by reflexivity.
  cbn [bisect]. rewrite ltb_Number by lia.
  destruct (Z.ltb_spec low high); [|lia].
  rewrite add_Number by lia. rewrite half_Number by lia.
  rewrite add_Number by lia. reflexivity.
Qed.

Lemma bisect_done steps low high :
  0 <= high <= low -> low < 2 ^ 53 ->
  bisect provider (S steps) address (Number low) (Number high) = Some (Ok (Number low)).
Proof.
  intros H Hl. cbn [bisect]. rewrite ltb_Number by lia.
  destruct (Z.ltb_spec low high); [lia | reflexivity].
Qed.

(** The loop ends within one turn more than the binary logarithm of the
    width of the interval, and a block it returns lies between the bounds it
    started from. *)
Lemma bisect_ends : forall steps low high,
  0 <= low -> low <= high -> high <= 2 ^ 52 ->
  high - low < 2 ^ Z.of_nat steps ->
  exists r, bisect provider (S steps) address (Number low) (Number high) = Some r /\
            forall x, r = Ok x -> exists b, x = Number b /\ low <= b <= high.
Proof.
  induction steps as [|steps IH]; intros low high H0 Hle Hh Hfuel.
  - change (2 ^ Z.of_nat 0) with 1 in Hfuel. rewrite bisect_done by lia.
    eexists. split; [reflexivity|]. intros x [= <-]. exists low. split; [reflexivity | lia].
  - destruct (Z.eq_dec low high) as [->|Hne].
    { rewrite bisect_done by lia. eexists. split; [reflexivity|].
      intros x [= <-]. exists high. split; [reflexivity | lia]. }
    assert (Hlt : low < high) by lia.
    pose proof (mid_bounds low high Hlt) as [M1 M2].
    pose proof (mid_halves low high Hlt) as [W1 W2].
    assert (Hw : (high - low) / 2 < 2 ^ Z.of_nat steps).
    { apply Z.div_lt_upper_bound; [lia|].
      rewrite Nat2Z.inj_succ, Z.pow_succ_r in Hfuel by lia. lia. }
    rewrite bisect_whole by lia.
    destruct (getCode provider address (Number ((low + high) / 2))) as [bytecode|e].
    + destruct (String.eqb bytecode "0x").
      * destruct (IH ((low + high) / 2 + 1) high ltac:(lia) ltac:(lia) ltac:(lia) ltac:(lia))
          as (r & E & B).
        exists r. split; [exact E|]. intros x Hx.
        destruct (B x Hx) as (b & -> & Hb). exists b. split; [reflexivity | lia].
      * destruct (IH low ((low + high) / 2) ltac:(lia) ltac:(lia) ltac:(lia) ltac:(lia))
          as (r & E & B).
        exists r. split; [exact E|]. intros x Hx.
        destruct (B x Hx) as (b & -> & Hb). exists b. split; [reflexivity | lia].
    + eexists. split; [reflexivity | discriminate].
Qed.

(** More turns than needed change nothing. *)
Lemma bisect_more : forall steps low high r,
  bisect provider steps address low high = Some r ->
  forall more, bisect provider (steps + more) address low high = Some r.
Proof.
  induction steps as [|steps IH]; intros low high r H more; [discriminate|].
  cbn [Nat.add bisect] in *. destruct (ltb low high); [|exact H].
  destruct (getCode provider address _) as [bytecode|e]; [|exact H].
  destruct (String.eqb bytecode "0x"); apply IH, H.
Qed.

(** The contract has no code before block [d] and has code from block [d]
    on, as far as the blocks below [head] are concerned. *)
Definition deployedAt (d head : Z) : Prop :=
  forall b, 0 <= b < head ->
    exists bytecode,
      getCode provider address (Number b) = Ok bytecode /\
      (String.eqb bytecode "0x" = true <-> b < d).

Lemma bisect_finds (d head : Z) :
  deployedAt d head -> head <= 2 ^ 52 ->
  forall steps low high,
    0 <= low -> low <= d <= high -> high <= head ->
    high - low < 2 ^ Z.of_nat steps ->
    bisect provider (S steps) address (Number low) (Number high) = Some (Ok (Number d)).
Proof.
  intros Hd Hh. induction steps as [|steps IH]; intros low high H0 Hin Hhi Hfuel.
  - change (2 ^ Z.of_nat 0) with 1 in Hfuel. rewrite bisect_done by lia.
    repeat f_equal. lia.
  - destruct (Z.eq_dec low high) as [->|Hne].
    { rewrite bisect_done by lia. repeat f_equal. lia. }
    assert (Hlt : low < high) by lia.
    pose proof (mid_bounds low high Hlt) as [M1 M2].
    pose proof (mid_halves low high Hlt) as [W1 W2].
    assert (Hw : (high - low) / 2 < 2 ^ Z.of_nat steps).
    { apply Z.div_lt_upper_bound; [lia|].
      rewrite Nat2Z.inj_succ, Z.pow_succ_r in Hfuel by lia. lia. }
    rewrite bisect_whole by lia.
    destruct (Hd ((low + high) / 2) ltac:(lia)) as (bytecode & -> & Hc).
    destruct (String.eqb bytecode "0x").
    + pose proof (proj1 Hc eq_refl). apply IH; lia.
    + assert (d <= (low + high) / 2).
      { destruct (Z.lt_ge_cases ((low + high) / 2) d) as [Hlt'|Hge']; [|lia].
        apply Hc in Hlt'. discriminate. }
      apply IH; lia.
Qed.

Lemma budget_54 (steps : nat) (head : Z) :
  (54 <= steps)%nat -> 0 <= head <= 2 ^ 52 ->
  exists more, steps = (54 + more)%nat /\ head - 0 < 2 ^ Z.of_nat 53.
Proof.
  intros Hs Hh. exists (steps - 54)%nat. split; [lia|].
  change (2 ^ Z.of_nat 53) with (2 * 2 ^ 52). lia.
Qed.

(** X29.  Up to block 2^52 the search of [getContractDeploymentBlock] is
    exact and short.  With the latest block [head] at most 2^52 it ends
    within 54 turns of its loop, whatever bytecode the provider reports; what
    it returns is a block between 0 and [head], or null if the provider,
    asked for the latest block a second time, reports one below the block
    found.  If the contract has no code before block [d] and has code from
    [d] on, the block found is [d]: the answer is [d] whenever the second
    report of the latest block is not below [d].  The block [head] itself is
    never looked at. *)
Theorem getContractDeploymentBlock_finds_first_block :
  forall (head : Z) (steps : nat),
    isAddress address = true ->
    getBlockNumber provider 0 = Ok (Number head) ->
    0 <= head <= 2 ^ 52 ->
    (54 <= steps)%nat ->
    (exists outcome,
        getContractDeploymentBlock isAddress provider steps address = Some outcome /\
        forall answer, outcome = Ok answer ->
          exists block again,
            0 <= block <= head /\
            getBlockNumber provider 1 = Ok again /\
            answer = if leb (Number block) again then Some (Number block) else None) /\
    (forall d,
        0 <= d <= head -> deployedAt d head ->
        getContractDeploymentBlock isAddress provider steps address
          = Some (match getBlockNumber provider 1 with
                  | Throw e => Throw e
                  | Ok again =>
                      Ok (if leb (Number d) again then Some (Number d) else None)
                  end) /\
        forall again,
          d <= again < 2 ^ 53 ->
          getBlockNumber provider 1 = Ok (Number again) ->
          getContractDeploymentBlock isAddress provider steps address
            = Some (Ok (Some (Number d)))).
Proof.
  intros head steps Ha Hh Hr Hs.
  destruct (budget_54 steps head Hs Hr) as (more & -> & Hfuel).
  unfold getContractDeploymentBlock, isValidContractAddress. rewrite Ha, Hh. cbn [negb].
  split.
  - destruct (bisect_ends 53 0 head ltac:(lia) ltac:(lia) ltac:(lia) Hfuel)
      as (r & E & B).
    rewrite (bisect_more 54 _ _ r E more).
    destruct r as [low|e].
    + destruct (B low eq_refl) as (b & -> & Hb).
      destruct (getBlockNumber provider 1) as [again|e].
      * eexists. split; [reflexivity|]. intros answer [= <-].
        exists b, again. split; [lia|]. split; reflexivity.
      * eexists. split; [reflexivity|]. intros answer X. discriminate X.
    + eexists. split; [reflexivity|]. intros answer X. discriminate X.
  - intros d Hd Hcode.
    rewrite (bisect_more 54 _ _ _
               (bisect_finds d head Hcode ltac:(lia) 53 0 head
                  ltac:(lia) ltac:(lia) ltac:(lia) Hfuel) more).
    split.
    + destruct (getBlockNumber provider 1); reflexivity.
    + intros again Hagain ->. rewrite leb_Number by lia.
      destruct (Z.leb_spec d again); [reflexivity | lia].
Qed.

(** *** Beyond 2^52 *)

(** One turn of the loop, when it is taken and the provider answers: the
    bounds it leaves. *)
Definition turn (low high : number) : option (number * number) :=
  if ltb low high then
    let mid := Math_floor (div (add low high) (Number 2)) in
    match getCode provider address mid with
    | Ok bytecode =>
        Some (if String.eqb bytecode "0x" then (add mid (Number 1), high) else (low, mid))
    | Throw _ => None
    end
  else None.

Fixpoint turns (k : nat) (low high : number) : option (number * number) :=
  match k with
  | O => Some (low, high)
  | S k' =>
      match turn low high with
      | Some (low', high') => turns k' low' high'
      | None => None
      end
  end.

Lemma bisect_turn steps low high low' high' :
  turn low high = Some (low', high') ->
  bisect provider (S steps) address low high = bisect provider steps address low' high'.
Proof.
  unfold turn. cbn [bisect]. destruct (ltb low high); [|discriminate].
  destruct (getCode provider address _) as [bytecode|e]; [|discriminate].
  destruct (String.eqb bytecode "0x"); intros [= <- <-]; reflexivity.
Qed.

Lemma bisect_turns : forall k low high low' high',
  turns k low high = Some (low', high') ->
  (forall steps, bisect provider steps address low' high' = None) ->
  forall steps, bisect provider steps address low high = None.
Proof.
  induction k as [|k IH]; intros low high low' high' T Hstuck steps.
  - injection T as -> ->. apply Hstuck.
  - cbn [turns] in T. destruct (turn low high) as [[l1 h1]|] eqn:E; [|discriminate].
    destruct steps as [|steps]; [reflexivity|].
    rewrite (bisect_turn steps low high l1 h1 E). apply (IH l1 h1 low' high' T Hstuck).
Qed.

(** X30.  The search need not end.  If, after some turns of the loop, a
    turn leaves the bounds as they were, the loop runs for ever and
    [getContractDeploymentBlock] never returns.  Beyond block 2^52 this does
    happen: the sum [low + high] is rounded, and the midpoint of two
    neighbouring blocks can come out as [high] itself. *)
Theorem getContractDeploymentBlock_may_never_return :
  forall (head low high : number) (k : nat),
    isAddress address = true ->
    getBlockNumber provider 0 = Ok head ->
    turns k (Number 0) head = Some (low, high) ->
    turn low high = Some (low, high) ->
    forall steps,
      getContractDeploymentBlock isAddress provider steps address = None.
Proof.
  intros head low high k Ha Hh T Hfix steps.
  unfold getContractDeploymentBlock, isValidContractAddress. rewrite Ha, Hh. cbn [negb].
  rewrite (bisect_turns k (Number 0) head low high T); [reflexivity|].
  intros n. induction n as [|n IH]; [reflexivity|].
  rewrite (bisect_turn n low high low high Hfix). exact IH.
Qed.

End DeploymentBlock.

(** A ledger at block 1000 on which the contract was created in block 617. *)
Definition ledgerAt1000 : ContractFactory.Provider :=
  {| ContractFactory.getBlockNumber := fun _ => Ok (JsNumber.Number 1000);
     ContractFactory.getCode := fun _ block =>
       Ok (if JsNumber.ltb block (JsNumber.Number 617)
           then "0x" else "0x6080604052") |}.

Lemma getContractDeploymentBlock_finds_first_block_witness :
  ContractFactory.getContractDeploymentBlock isHexAddress ledgerAt1000 54
    "0x5FbDB2315678afecb367f032d93F642f64180aa3"
  = Some (Ok (Some (JsNumber.Number 617))).
Proof.
  destruct (getContractDeploymentBlock_finds_first_block isHexAddress ledgerAt1000
              "0x5FbDB2315678afecb367f032d93F642f64180aa3" 1000 54%nat
              ltac:(reflexivity) ltac:(reflexivity) ltac:(lia) ltac:(lia))
    as [_ F].
  destruct (F 617) as [_ G].
  - lia.
  - intros b Hb. cbn [ledgerAt1000 ContractFactory.getCode].
    rewrite ltb_Number by lia.
    eexists. split; [reflexivity|].
    destruct (Z.ltb_spec b 617); split; intros; try reflexivity; try lia; discriminate.
  - apply (G 1000); [lia | reflexivity].
Defined.

(** A ledger at block 2^52 + 2 on which the contract was created in that
    very block. *)
Definition lateLedger : ContractFactory.Provider :=
  {| ContractFactory.getBlockNumber := fun _ => Ok (JsNumber.Number (2 ^ 52 + 2));
     ContractFactory.getCode := fun _ block =>
       Ok (if JsNumber.ltb block (JsNumber.Number (2 ^ 52 + 2))
           then "0x" else "0x6080604052") |}.

(** After 51 turns the bounds are the blocks 2^52 + 1 and 2^52 + 2; their
    sum, 2^53 + 3, is rounded to 2^53 + 4, so that the midpoint is the upper
    bound, where there is code: nothing moves any more. *)
Lemma getContractDeploymentBlock_may_never_return_witness :
  ContractFactory.getBlockNumber lateLedger 0 = Ok (JsNumber.Number (2 ^ 52 + 2)) /\
  forall steps,
    ContractFactory.getContractDeploymentBlock isHexAddress lateLedger steps
      "0x5FbDB2315678afecb367f032d93F642f64180aa3" = None.
Proof.
  split; [reflexivity|].
  apply (getContractDeploymentBlock_may_never_return isHexAddress lateLedger
           "0x5FbDB2315678afecb367f032d93F642f64180aa3"
           (JsNumber.Number (2 ^ 52 + 2))
           (JsNumber.Number (2 ^ 52 + 1)) (JsNumber.Number (2 ^ 52 + 2)) 51%nat).
  - reflexivity.
  - reflexivity.
  - vm_compute. reflexivity.
  - vm_compute. reflexivity.
Defined.
